(** * goscrape/paginate: the three pagination strategies

  A shallow embedding of [paginate.go] together with the parts of the Go
  standard library ([strings], [strconv], [net/url], as of Go 1.22) and of
  [goquery] that its three [NextPage] methods execute.  Go strings are
  byte strings and are modelled by [string] (a list of 8-bit [ascii]);
  [uint64] and [int] are modelled by [Z] with the wrap-around written
  out; [map[string][]string] is a [gmap string (list string)]. *)

From Stdlib Require Import ZArith NArith Ascii String.
From stdpp Require Import gmap strings list sorting.
From Equations Require Import Equations.

Local Open Scope Z_scope.

(** ** Errors

  Go's [error] interface, restricted to the dynamic types the modelled
  calls can produce. *)
Inductive error : Type :=
| errorString (msg : string)            (* errors.New(msg) *)
| invalidPort (colonPort : string)      (* fmt.Errorf("invalid port %q after host", colonPort) *)
| EscapeError (s : string)              (* url.EscapeError *)
| InvalidHostError (s : string)         (* url.InvalidHostError *)
| urlError (Op URL : string) (Err : error)      (* &url.Error{Op, URL, Err} *)
| NumError (Func Num : string) (Err : error).   (* &strconv.NumError{Func, Num, Err} *)

(** A Go result pair [(T, error)] of a library call whose value is only
  meaningful when the error is nil. *)
Inductive res (A : Type) : Type :=
| Ok (a : A)
| Err (e : error).
Arguments Ok {A} a.
Arguments Err {A} e.

(** ** Bytes *)
Module byte.
Definition val (c : ascii) : N := N_of_ascii c.
Definition of_N (n : N) : ascii := ascii_of_N (n mod 256).

(** [lo <= c && c <= hi] *)
Definition within (lo hi c : ascii) : bool :=
  ((val lo <=? val c) && (val c <=? val hi))%N.

(** [c] is one of the bytes of [set]. *)
Fixpoint oneof (set : string) (c : ascii) : bool :=
  match set with
  | EmptyString => false
  | String x set' => Ascii.eqb c x || oneof set' c
  end.
End byte.

(** ** Package [strings] *)
Module strings.
Definition len (s : string) : Z := Z.of_nat (String.length s).

(** [s[lo:]] and [s[:hi]] for indices within [0..len(s)]. *)
Fixpoint from (lo : nat) (s : string) : string :=
  match lo, s with
  | O, _ => s
  | S n, String _ s' => from n s'
  | S _, EmptyString => EmptyString
  end.
Fixpoint upto (hi : nat) (s : string) : string :=
  match hi, s with
  | O, _ => EmptyString
  | S n, String c s' => String c (upto n s')
  | S _, EmptyString => EmptyString
  end.

Fixpoint HasPrefix (s prefix : string) : bool :=
  match prefix, s with
  | EmptyString, _ => true
  | String p prefix', String c s' => Ascii.eqb c p && HasPrefix s' prefix'
  | String _ _, EmptyString => false
  end.

(** [strings.Index(s, substr)], -1 when absent. *)
Fixpoint Index (s substr : string) : Z :=
  if HasPrefix s substr then 0
  else match s with
       | EmptyString => -1
       | String _ s' =>
           let i := Index s' substr in
           if i <? 0 then -1 else i + 1
       end.

(** [strings.LastIndex(s, substr)], -1 when absent. *)
Fixpoint LastIndex (s substr : string) : Z :=
  match s with
  | EmptyString => if HasPrefix s substr then 0 else -1
  | String _ s' =>
      let i := LastIndex s' substr in
      if 0 <=? i then i + 1
      else if HasPrefix s substr then 0 else -1
  end.

Definition Contains (s substr : string) : bool := 0 <=? Index s substr.

(** [strings.Cut(s, sep)]: the text before and after the first [sep]. *)
Definition Cut (s sep : string) : string * string * bool :=
  let i := Index s sep in
  if 0 <=? i
  then (upto (Z.to_nat i) s, from (Z.to_nat i + String.length sep) s, true)
  else (s, EmptyString, false).

(** [strings.Count(s, substr)] for a one-byte [substr]. *)
Fixpoint CountByte (s : string) (c : ascii) : Z :=
  match s with
  | EmptyString => 0
  | String x s' => (if Ascii.eqb x c then 1 else 0) + CountByte s' c
  end.

Definition HasSuffix (s suffix : string) : bool :=
  (String.length suffix <=? String.length s)%nat
  && String.eqb (from (String.length s - String.length suffix) s) suffix.

(** [strings.ToLower] on the ASCII range; bytes from 0x80 up are left as
    they are (the callers pass ASCII only). *)
Definition lowerByte (c : ascii) : ascii :=
  if byte.within "A" "Z" c then byte.of_N (byte.val c + 32) else c.
Fixpoint ToLower (s : string) : string :=
  match s with
  | EmptyString => EmptyString
  | String c s' => String (lowerByte c) (ToLower s')
  end.
End strings.

(** ** Package [strconv] *)
Module strconv.
Definition ErrRange : error := errorString "value out of range".
Definition ErrSyntax : error := errorString "invalid syntax".
Definition syntaxError (fn str : string) : error := NumError fn str ErrSyntax.
Definition rangeError (fn str : string) : error := NumError fn str ErrRange.

Definition maxUint64 : Z := 2 ^ 64 - 1.
(** Arithmetic of [uint64]. *)
Definition u64 (z : Z) : Z := z mod 2 ^ 64.

(** [lower(c)]: [c | ('x' - 'X')]. *)
Definition lower (c : ascii) : N := N.lor (byte.val c) 32.

(** The digit loop of [ParseUint(s, 10, 64)]: [s0] is the whole argument
    (for the error), [s] what is left to read, [n] the accumulator. *)
Fixpoint ParseUint_loop (s0 s : string) (n : Z) : Z * option error :=
  let base := 10 in
  let cutoff := maxUint64 / 10 + 1 in
  let maxVal := u64 (2 ^ 64 - 1) in
  match s with
  | EmptyString => (n, None)
  | String c s' =>
      let digit :=
        if byte.within "0" "9" c then Some (Z.of_N (byte.val c - byte.val "0"))
        else if ((byte.val "a" <=? lower c) && (lower c <=? byte.val "z"))%N
             then Some (Z.of_N (lower c - byte.val "a" + 10))
             else None in
      match digit with
      | None => (0, Some (syntaxError "ParseUint" s0))
      | Some d =>
          if base <=? d then (0, Some (syntaxError "ParseUint" s0))
          else if cutoff <=? n then (maxVal, Some (rangeError "ParseUint" s0))
          else
            let n := u64 (n * base) in
            let n1 := u64 (n + d) in
            if (n1 <? n) || (maxVal <? n1)
            then (maxVal, Some (rangeError "ParseUint" s0))
            else ParseUint_loop s0 s' n1
      end
  end.

(** [strconv.ParseUint(s, 10, 64)], the one instantiation the program
    makes (so neither the base prefix nor underscores are accepted). *)
Definition ParseUint (s : string) : Z * option error :=
  match s with
  | EmptyString => (0, Some (syntaxError "ParseUint" s))
  | _ => ParseUint_loop s s 0
  end.

Definition digits : string := "0123456789abcdefghijklmnopqrstuvwxyz".
Definition digitAt (i : Z) : ascii :=
  match String.get (Z.to_nat i) digits with
  | Some c => c
  | None => "0"%char
  end.

(** The base-10 loop of [formatBits]: peel off the low digit while
    [u >= 10].  A [uint64] has at most 20 decimal digits, which is the
    amount of fuel [FormatUint] supplies. *)
Fixpoint formatBits (fuel : nat) (u : Z) (a : string) : string :=
  match fuel with
  | O => a
  | S fuel' =>
      if 10 <=? u
      then formatBits fuel' (u / 10) (String (digitAt (u mod 10)) a)
      else String (digitAt u) a
  end.

(** [strconv.FormatUint(i, 10)]. *)
Definition FormatUint (i : Z) : string := formatBits 20 i EmptyString.
End strconv.

(** ** Package [net/url]: escaping *)
Module url.

Inductive encoding : Set :=
| encodePath
| encodePathSegment
| encodeHost
| encodeZone
| encodeUserPassword
| encodeQueryComponent
| encodeFragment.

Definition isHostOrZone (mode : encoding) : bool :=
  match mode with encodeHost | encodeZone => true | _ => false end.
Definition isQueryComponent (mode : encoding) : bool :=
  match mode with encodeQueryComponent => true | _ => false end.

Definition upperhex : string := "0123456789ABCDEF".
Definition hexAt (i : N) : ascii :=
  match String.get (N.to_nat i) upperhex with
  | Some c => c
  | None => "0"%char
  end.

Definition ishex (c : ascii) : bool :=
  byte.within "0" "9" c || byte.within "a" "f" c || byte.within "A" "F" c.

Definition unhex (c : ascii) : N :=
  (if byte.within "0" "9" c then byte.val c - byte.val "0"
   else if byte.within "a" "f" c then byte.val c - byte.val "a" + 10
   else if byte.within "A" "F" c then byte.val c - byte.val "A" + 10
   else 0)%N.

(** [unhex(a)<<4 | unhex(b)] as a byte. *)
Definition unhex2 (a b : ascii) : ascii :=
  byte.of_N (N.lor (N.shiftl (unhex a) 4) (unhex b)).

(** [shouldEscape(c, mode)]: must [c] be percent-encoded in this part of a
    URL.  The quotation mark of the host list is byte 34. *)
Definition shouldEscape (c : ascii) (mode : encoding) : bool :=
  if byte.within "a" "z" c || byte.within "A" "Z" c || byte.within "0" "9" c
  then false
  else if isHostOrZone mode
          && byte.oneof (String "034" "!$&'()*+,;=:[]<>") c
  then false
  else if byte.oneof "-_.~" c then false
  else if byte.oneof "$&+,/:;=?@" c
  then match mode with
       | encodePath => Ascii.eqb c "?"
       | encodePathSegment => byte.oneof "/;,?" c
       | encodeUserPassword => byte.oneof "@/?:" c
       | encodeQueryComponent => true
       | encodeFragment => false
       | encodeHost | encodeZone => true
       end
  else if match mode with encodeFragment => byte.oneof "!()*" c | _ => false end
  then false
  else true.

(** First loop of [unescape]: count the escapes and check that they are
    well formed; [n] and [hasPlus] are the loop's two variables. *)
Fixpoint unescape_check (s : string) (mode : encoding) (n : Z) (hasPlus : bool)
  : res (Z * bool) :=
  match s with
  | EmptyString => Ok (n, hasPlus)
  | String "%" rest =>
      match rest with
      | String a (String b rest') =>
          if negb (ishex a) || negb (ishex b)
          then Err (EscapeError (strings.upto 3 s))
          else if match mode with encodeHost => true | _ => false end
                  && (unhex a <? 8)%N
                  && negb (String.eqb (strings.upto 3 s) "%25")
          then Err (EscapeError (strings.upto 3 s))
          else if match mode with encodeZone => true | _ => false end
                  && negb (String.eqb (strings.upto 3 s) "%25")
                  && negb (Ascii.eqb (unhex2 a b) " ")
                  && shouldEscape (unhex2 a b) encodeHost
          then Err (EscapeError (strings.upto 3 s))
          else unescape_check rest' mode (n + 1) hasPlus
      | _ => Err (EscapeError (strings.upto 3 s))
      end
  | String "+" rest =>
      unescape_check rest mode n (isQueryComponent mode)
  | String c rest =>
      if isHostOrZone mode && (byte.val c <? 128)%N && shouldEscape c encodeHost
      then Err (InvalidHostError (String c EmptyString))
      else unescape_check rest mode n hasPlus
  end.

(** Second loop of [unescape]: decode.  It runs only on strings the first
    loop accepted, where every percent sign has its two hex digits. *)
Fixpoint unescape_build (s : string) (mode : encoding) : string :=
  match s with
  | EmptyString => EmptyString
  | String "%" (String a (String b rest)) =>
      String (unhex2 a b) (unescape_build rest mode)
  | String "%" _ => EmptyString
  | String "+" rest =>
      String (if isQueryComponent mode then " "%char else "+"%char)
             (unescape_build rest mode)
  | String c rest => String c (unescape_build rest mode)
  end.

Definition unescape (s : string) (mode : encoding) : res string :=
  match unescape_check s mode 0 false with
  | Err e => Err e
  | Ok (n, hasPlus) =>
      if (n =? 0) && negb hasPlus then Ok s
      else Ok (unescape_build s mode)
  end.

(** First loop of [escape]: [(spaceCount, hexCount)]. *)
Fixpoint escape_count (s : string) (mode : encoding) (spaceCount hexCount : Z)
  : Z * Z :=
  match s with
  | EmptyString => (spaceCount, hexCount)
  | String c rest =>
      if shouldEscape c mode
      then if Ascii.eqb c " " && isQueryComponent mode
           then escape_count rest mode (spaceCount + 1) hexCount
           else escape_count rest mode spaceCount (hexCount + 1)
      else escape_count rest mode spaceCount hexCount
  end.

(** Second loop of [escape]. *)
Fixpoint escape_build (s : string) (mode : encoding) : string :=
  match s with
  | EmptyString => EmptyString
  | String c rest =>
      if Ascii.eqb c " " && isQueryComponent mode
      then String "+" (escape_build rest mode)
      else if shouldEscape c mode
      then String "%"
             (String (hexAt (N.shiftr (byte.val c) 4))
                (String (hexAt (N.land (byte.val c) 15))
                   (escape_build rest mode)))
      else String c (escape_build rest mode)
  end.

Definition escape (s : string) (mode : encoding) : string :=
  let '(spaceCount, hexCount) := escape_count s mode 0 0 in
  if (spaceCount =? 0) && (hexCount =? 0) then s
  else escape_build s mode.

Definition QueryUnescape (s : string) : res string :=
  unescape s encodeQueryComponent.
Definition QueryEscape (s : string) : string :=
  escape s encodeQueryComponent.

(** ** Package [net/url]: the URL structure *)

Record Userinfo : Type := mkUserinfo {
  username : string;
  password : string;
  passwordSet : bool
}.

Definition User (username : string) : Userinfo :=
  mkUserinfo username EmptyString false.
Definition UserPassword (username password : string) : Userinfo :=
  mkUserinfo username password true.

(** [Userinfo.String] on a pointer receiver; [None] is the nil pointer. *)
Definition Userinfo_String (u : option Userinfo) : string :=
  match u with
  | None => EmptyString
  | Some u =>
      let s := escape (username u) encodeUserPassword in
      if passwordSet u
      then s +:+ ":" +:+ escape (password u) encodeUserPassword
      else s
  end.

Record URL : Type := mkURL {
  Scheme : string;
  Opaque : string;
  User_ : option Userinfo;
  Host : string;
  Path : string;
  RawPath : string;
  OmitHost : bool;
  ForceQuery : bool;
  RawQuery : string;
  Fragment : string;
  RawFragment : string
}.

(** [new(URL)]. *)
Definition zeroURL : URL :=
  mkURL EmptyString EmptyString None EmptyString EmptyString EmptyString
        false false EmptyString EmptyString EmptyString.

Definition set_Scheme (u : URL) (x : string) : URL :=
  mkURL x (Opaque u) (User_ u) (Host u) (Path u) (RawPath u) (OmitHost u)
        (ForceQuery u) (RawQuery u) (Fragment u) (RawFragment u).
Definition set_Opaque (u : URL) (x : string) : URL :=
  mkURL (Scheme u) x (User_ u) (Host u) (Path u) (RawPath u) (OmitHost u)
        (ForceQuery u) (RawQuery u) (Fragment u) (RawFragment u).
Definition set_User (u : URL) (x : option Userinfo) : URL :=
  mkURL (Scheme u) (Opaque u) x (Host u) (Path u) (RawPath u) (OmitHost u)
        (ForceQuery u) (RawQuery u) (Fragment u) (RawFragment u).
Definition set_Host (u : URL) (x : string) : URL :=
  mkURL (Scheme u) (Opaque u) (User_ u) x (Path u) (RawPath u) (OmitHost u)
        (ForceQuery u) (RawQuery u) (Fragment u) (RawFragment u).
Definition set_Path (u : URL) (x : string) : URL :=
  mkURL (Scheme u) (Opaque u) (User_ u) (Host u) x (RawPath u) (OmitHost u)
        (ForceQuery u) (RawQuery u) (Fragment u) (RawFragment u).
Definition set_RawPath (u : URL) (x : string) : URL :=
  mkURL (Scheme u) (Opaque u) (User_ u) (Host u) (Path u) x (OmitHost u)
        (ForceQuery u) (RawQuery u) (Fragment u) (RawFragment u).
Definition set_OmitHost (u : URL) (x : bool) : URL :=
  mkURL (Scheme u) (Opaque u) (User_ u) (Host u) (Path u) (RawPath u) x
        (ForceQuery u) (RawQuery u) (Fragment u) (RawFragment u).
Definition set_ForceQuery (u : URL) (x : bool) : URL :=
  mkURL (Scheme u) (Opaque u) (User_ u) (Host u) (Path u) (RawPath u)
        (OmitHost u) x (RawQuery u) (Fragment u) (RawFragment u).
Definition set_RawQuery (u : URL) (x : string) : URL :=
  mkURL (Scheme u) (Opaque u) (User_ u) (Host u) (Path u) (RawPath u)
        (OmitHost u) (ForceQuery u) x (Fragment u) (RawFragment u).
Definition set_Fragment (u : URL) (x : string) : URL :=
  mkURL (Scheme u) (Opaque u) (User_ u) (Host u) (Path u) (RawPath u)
        (OmitHost u) (ForceQuery u) (RawQuery u) x (RawFragment u).
Definition set_RawFragment (u : URL) (x : string) : URL :=
  mkURL (Scheme u) (Opaque u) (User_ u) (Host u) (Path u) (RawPath u)
        (OmitHost u) (ForceQuery u) (RawQuery u) (Fragment u) x.

Definition nonempty (s : string) : bool := negb (String.eqb s EmptyString).

#[global] Instance res_ret : MRet res := fun _ a => Ok a.
#[global] Instance res_bind : MBind res :=
  fun _ _ f r => match r with Ok a => f a | Err e => Err e end.

(** [s[lo:hi]]. *)
Definition slice (s : string) (lo hi : nat) : string :=
  strings.upto (hi - lo) (strings.from lo s).

(** [validEncoded(s, mode)]. *)
Fixpoint validEncoded (s : string) (mode : encoding) : bool :=
  match s with
  | EmptyString => true
  | String c rest =>
      if byte.oneof "!$&'()*+,;=:@" c then validEncoded rest mode
      else if byte.oneof "[]" c then validEncoded rest mode
      else if Ascii.eqb c "%" then validEncoded rest mode
      else if shouldEscape c mode then false
      else validEncoded rest mode
  end.

(** [u.setPath(p)]: the updated URL and the error; on an error the URL is
    left as it was. *)
Definition setPath (u : URL) (p : string) : URL * option error :=
  match unescape p encodePath with
  | Err e => (u, Some e)
  | Ok path =>
      let u := set_Path u path in
      if String.eqb p (escape path encodePath)
      then (set_RawPath u EmptyString, None)
      else (set_RawPath u p, None)
  end.

Definition EscapedPath (u : URL) : string :=
  if nonempty (RawPath u) && validEncoded (RawPath u) encodePath
     && match unescape (RawPath u) encodePath with
        | Ok p => String.eqb p (Path u)
        | Err _ => false
        end
  then RawPath u
  else if String.eqb (Path u) "*" then "*"
  else escape (Path u) encodePath.

Definition setFragment (u : URL) (f : string) : URL * option error :=
  match unescape f encodeFragment with
  | Err e => (u, Some e)
  | Ok frag =>
      let u := set_Fragment u frag in
      if String.eqb f (escape frag encodeFragment)
      then (set_RawFragment u EmptyString, None)
      else (set_RawFragment u f, None)
  end.

Definition EscapedFragment (u : URL) : string :=
  if nonempty (RawFragment u) && validEncoded (RawFragment u) encodeFragment
     && match unescape (RawFragment u) encodeFragment with
        | Ok f => String.eqb f (Fragment u)
        | Err _ => false
        end
  then RawFragment u
  else escape (Fragment u) encodeFragment.

(** ** Package [net/url]: parsing *)

(** The loop of [getScheme]: [i] is the index of the first byte of [s] in
    [rawURL]. *)
Fixpoint getScheme_loop (rawURL : string) (i : nat) (s : string)
  : res (string * string) :=
  match s with
  | EmptyString => Ok (EmptyString, rawURL)
  | String c s' =>
      if byte.within "a" "z" c || byte.within "A" "Z" c
      then getScheme_loop rawURL (S i) s'
      else if byte.within "0" "9" c || byte.oneof "+-." c
      then if (i =? 0)%nat then Ok (EmptyString, rawURL)
           else getScheme_loop rawURL (S i) s'
      else if Ascii.eqb c ":"
      then if (i =? 0)%nat then Err (errorString "missing protocol scheme")
           else Ok (strings.upto i rawURL, strings.from (S i) rawURL)
      else Ok (EmptyString, rawURL)
  end.

Definition getScheme (rawURL : string) : res (string * string) :=
  getScheme_loop rawURL 0 rawURL.

Fixpoint allDigits (s : string) : bool :=
  match s with
  | EmptyString => true
  | String b rest => byte.within "0" "9" b && allDigits rest
  end.

Definition validOptionalPort (port : string) : bool :=
  match port with
  | EmptyString => true
  | String c rest => Ascii.eqb c ":" && allDigits rest
  end.

Fixpoint validUserinfo (s : string) : bool :=
  match s with
  | EmptyString => true
  | String r rest =>
      (byte.within "A" "Z" r || byte.within "a" "z" r || byte.within "0" "9" r
       || byte.oneof "-._:~!$&'()*+,;=%@" r)
      && validUserinfo rest
  end.

Definition parseHost (host : string) : res string :=
  let finish := unescape host encodeHost in
  if strings.HasPrefix host "["
  then
    let i := strings.LastIndex host "]" in
    if i <? 0 then Err (errorString "missing ']' in host")
    else
      let colonPort := strings.from (Z.to_nat (i + 1)) host in
      if negb (validOptionalPort colonPort) then Err (invalidPort colonPort)
      else
        let zone := strings.Index (strings.upto (Z.to_nat i) host) "%25" in
        if 0 <=? zone
        then
          host1 ← unescape (strings.upto (Z.to_nat zone) host) encodeHost;
          host2 ← unescape (slice host (Z.to_nat zone) (Z.to_nat i)) encodeZone;
          host3 ← unescape (strings.from (Z.to_nat i) host) encodeHost;
          Ok (host1 +:+ host2 +:+ host3)
        else finish
  else
    let i := strings.LastIndex host ":" in
    if negb (i =? -1)
       && negb (validOptionalPort (strings.from (Z.to_nat i) host))
    then Err (invalidPort (strings.from (Z.to_nat i) host))
    else finish.

Definition parseAuthority (authority : string)
  : res (option Userinfo * string) :=
  let i := strings.LastIndex authority "@" in
  host ← (if i <? 0 then parseHost authority
          else parseHost (strings.from (Z.to_nat (i + 1)) authority));
  if i <? 0 then Ok (None, host)
  else
    let userinfo := strings.upto (Z.to_nat i) authority in
    if negb (validUserinfo userinfo)
    then Err (errorString "net/url: invalid userinfo")
    else if negb (strings.Contains userinfo ":")
    then
      userinfo ← unescape userinfo encodeUserPassword;
      Ok (Some (User userinfo), host)
    else
      let '(username, password, _) := strings.Cut userinfo ":" in
      username ← unescape username encodeUserPassword;
      password ← unescape password encodeUserPassword;
      Ok (Some (UserPassword username password), host).

Fixpoint stringContainsCTLByte (s : string) : bool :=
  match s with
  | EmptyString => false
  | String b rest =>
      (byte.val b <? 32)%N || (byte.val b =? 127)%N
      || stringContainsCTLByte rest
  end.

Definition parse (rawURL : string) (viaRequest : bool) : res URL :=
  if stringContainsCTLByte rawURL
  then Err (errorString "net/url: invalid control character in URL")
  else if String.eqb rawURL EmptyString && viaRequest
  then Err (errorString "empty url")
  else if String.eqb rawURL "*" then Ok (set_Path zeroURL "*")
  else
    '(scheme, rest) ← getScheme rawURL;
    let url := set_Scheme zeroURL (strings.ToLower scheme) in
    let '(url, rest) :=
      if strings.HasSuffix rest "?" && (strings.CountByte rest "?" =? 1)
      then (set_ForceQuery url true,
            strings.upto (String.length rest - 1) rest)
      else let '(rest', query, _) := strings.Cut rest "?" in
           (set_RawQuery url query, rest') in
    if negb (strings.HasPrefix rest "/") && nonempty (Scheme url)
    then Ok (set_Opaque url rest)
    else if negb (strings.HasPrefix rest "/") && viaRequest
    then Err (errorString "invalid URI for request")
    else if negb (strings.HasPrefix rest "/")
            && strings.Contains (strings.Cut rest "/").1.1 ":"
    then Err (errorString "first path segment in URL cannot contain colon")
    else
      '(url, rest) ←
        (if (nonempty (Scheme url)
             || negb viaRequest && negb (strings.HasPrefix rest "///"))
            && strings.HasPrefix rest "//"
         then
           let authority := strings.from 2 rest in
           let i := strings.Index authority "/" in
           let '(authority, rest) :=
             if 0 <=? i
             then (strings.upto (Z.to_nat i) authority,
                   strings.from (Z.to_nat i) authority)
             else (authority, EmptyString) in
           '(user, host) ← parseAuthority authority;
           Ok (set_Host (set_User url user) host, rest)
         else if nonempty (Scheme url) && strings.HasPrefix rest "/"
         then Ok (set_OmitHost url true, rest)
         else Ok (url, rest));
      match setPath url rest with
      | (_, Some err) => Err err
      | (url, None) => Ok url
      end.

(** [url.Parse(rawURL)]. *)
Definition Parse (rawURL : string) : res URL :=
  let '(u, frag, _) := strings.Cut rawURL "#" in
  match parse u false with
  | Err err => Err (urlError "parse" u err)
  | Ok url =>
      if String.eqb frag EmptyString then Ok url
      else match setFragment url frag with
           | (_, Some err) => Err (urlError "parse" rawURL err)
           | (url, None) => Ok url
           end
  end.

(** [URL.String]: reassemble the URL ([buf] is the string builder). *)
Definition URL_String (u : URL) : string :=
  let buf := EmptyString in
  let buf := if nonempty (Scheme u) then buf +:+ Scheme u +:+ ":" else buf in
  let buf :=
    if nonempty (Opaque u) then buf +:+ Opaque u
    else
      let buf :=
        if nonempty (Scheme u) || nonempty (Host u) || bool_decide (User_ u ≠ None)
        then
          if OmitHost u && String.eqb (Host u) EmptyString
             && bool_decide (User_ u = None)
          then buf
          else
            let buf :=
              if nonempty (Host u) || nonempty (Path u)
                 || bool_decide (User_ u ≠ None)
              then buf +:+ "//" else buf in
            let buf :=
              match User_ u with
              | Some _ => buf +:+ Userinfo_String (User_ u) +:+ "@"
              | None => buf
              end in
            if nonempty (Host u) then buf +:+ escape (Host u) encodeHost
            else buf
        else buf in
      let path := EscapedPath u in
      let buf :=
        if nonempty path && negb (strings.HasPrefix path "/")
           && nonempty (Host u)
        then buf +:+ "/" else buf in
      let buf :=
        if String.eqb buf EmptyString
           && strings.Contains (strings.Cut path "/").1.1 ":"
        then buf +:+ "./" else buf in
      buf +:+ path in
  let buf :=
    if ForceQuery u || nonempty (RawQuery u)
    then buf +:+ "?" +:+ RawQuery u else buf in
  if nonempty (Fragment u) then buf +:+ "#" +:+ EscapedFragment u else buf.

(** ** Package [net/url]: reference resolution *)

(** Termination of the two loops that consume a string one [strings.Cut]
    at a time. *)
Lemma from_length (k : nat) (s : string) :
  String.length (strings.from k s) = (String.length s - k)%nat.
Proof.
  revert s; induction k as [|k IH]; intros [|c s]; simpl; try lia.
  apply IH.
Qed.

Lemma Index_nonneg_nonempty (s sep : string) :
  sep ≠ EmptyString -> 0 <= strings.Index s sep -> s ≠ EmptyString.
Proof.
  intros Hsep Hi ->. destruct sep as [|c sep]; [done|].
  simpl in Hi. lia.
Qed.

Lemma Cut_found_shrinks (s sep a b : string) :
  sep ≠ EmptyString ->
  strings.Cut s sep = (a, b, true) ->
  (String.length b < String.length s)%nat.
Proof.
  intros Hsep. unfold strings.Cut.
  destruct (0 <=? strings.Index s sep) eqn:Hi; [|congruence].
  intros [= _ <-]. apply Z.leb_le in Hi.
  pose proof (Index_nonneg_nonempty s sep Hsep Hi) as Hs.
  rewrite from_length.
  destruct s; [done|]. destruct sep; [done|]. simpl. lia.
Qed.

Lemma Cut_nonempty_shrinks (s sep : string) :
  sep ≠ EmptyString -> s ≠ EmptyString ->
  (String.length (strings.Cut s sep).1.2 < String.length s)%nat.
Proof.
  intros Hsep Hs.
  destruct (strings.Cut s sep) as [[a b] [|]] eqn:Hcut; simpl.
  - eapply Cut_found_shrinks; [exact Hsep | exact Hcut].
  - unfold strings.Cut in Hcut.
    destruct (0 <=? strings.Index s sep); [congruence|].
    injection Hcut as _ <-. destruct s; [done|]. simpl. lia.
Qed.

Definition inspect {A : Type} (a : A) : {b : A | a = b} := exist _ a eq_refl.

(** The body of the loop of [resolvePath] for one path element: the new
    content of [dst] and the new value of [first]. *)
Definition resolvePath_step (elem dst : string) (first : bool)
  : string * bool :=
  if String.eqb elem "." then (dst, false)
  else if String.eqb elem ".."
  then
    let str := strings.from 1 dst in
    let index := strings.LastIndex str "/" in
    if index =? -1 then ("/", true)
    else ("/" +:+ strings.upto (Z.to_nat index) str, first)
  else ((if first then dst else dst +:+ "/") +:+ elem, false).

(** The loop [for found { elem, remaining, found = strings.Cut(remaining, "/"); ... }]
    of [resolvePath]; it returns the last [elem] and [dst]. *)
Equations? resolvePath_loop (remaining dst : string) (first : bool)
  : string * string by wf (String.length remaining) lt :=
  resolvePath_loop remaining dst first
    with inspect (strings.Cut remaining "/") => {
    | exist _ (elem, remaining', true) Hcut :=
        resolvePath_loop remaining'
          (resolvePath_step elem dst first).1
          (resolvePath_step elem dst first).2;
    | exist _ (elem, _, false) Hcut :=
        (elem, (resolvePath_step elem dst first).1) }.
Proof. eapply Cut_found_shrinks; [|exact Hcut]. done. Qed.

Definition resolvePath (base ref : string) : string :=
  let full :=
    if String.eqb ref EmptyString then base
    else if negb (strings.HasPrefix ref "/")
    then
      let i := strings.LastIndex base "/" in
      strings.upto (Z.to_nat (i + 1)) base +:+ ref
    else ref in
  if String.eqb full EmptyString then EmptyString
  else
    let '(elem, dst) := resolvePath_loop full "/" true in
    let dst :=
      if String.eqb elem "." || String.eqb elem ".." then dst +:+ "/"
      else dst in
    let r := dst in
    if (1 <? strings.len r) && strings.HasPrefix (strings.from 1 r) "/"
    then strings.from 1 r
    else r.

(** [u.ResolveReference(ref)]. *)
Definition ResolveReference (u ref : URL) : URL :=
  let url := ref in
  let url :=
    if String.eqb (Scheme ref) EmptyString then set_Scheme url (Scheme u)
    else url in
  if nonempty (Scheme ref) || nonempty (Host ref)
     || bool_decide (User_ ref ≠ None)
  then (setPath url (resolvePath (EscapedPath ref) EmptyString)).1
  else if nonempty (Opaque ref)
  then set_Path (set_Host (set_User url None) EmptyString) EmptyString
  else
    let url :=
      if String.eqb (Path ref) EmptyString && negb (ForceQuery ref)
         && String.eqb (RawQuery ref) EmptyString
      then
        let url := set_RawQuery url (RawQuery u) in
        if String.eqb (Fragment ref) EmptyString
        then set_RawFragment (set_Fragment url (Fragment u)) (RawFragment u)
        else url
      else url in
    if String.eqb (Path ref) EmptyString && nonempty (Opaque u)
    then
      set_Path (set_Host (set_User (set_Opaque url (Opaque u)) None)
                  EmptyString) EmptyString
    else
      let url := set_User (set_Host url (Host u)) (User_ u) in
      (setPath url (resolvePath (EscapedPath u) (EscapedPath ref))).1.

(** ** Package [net/url]: query strings *)

(** [url.Values], [map[string][]string]. *)
Abbreviation Values := (gmap string (list string)).

(** [m[key]]: the zero value (a nil slice) for an absent key. *)
Definition Values_at (m : Values) (key : string) : list string :=
  default [] (m !! key).

(** The body of the loop of [parseQuery] for one [&]-separated piece.  A
    semicolon overwrites [err]; an escape error is kept only when [err] is
    still nil. *)
Definition parseQuery_step (m : Values) (key : string) (err : option error)
  : Values * option error :=
  if strings.Contains key ";"
  then (m, Some (errorString "invalid semicolon separator in query"))
  else if String.eqb key EmptyString then (m, err)
  else
    let '(key, value, _) := strings.Cut key "=" in
    match QueryUnescape key with
    | Err err1 => (m, if err is None then Some err1 else err)
    | Ok key =>
        match QueryUnescape value with
        | Err err1 => (m, if err is None then Some err1 else err)
        | Ok value => (<[key := Values_at m key ++ [value]]> m, err)
        end
    end.

(** [parseQuery(m, query)]: the loop [for query != "" { ... }]; [err] is the
    named result, which starts out nil. *)
Equations? parseQuery (m : Values) (query : string) (err : option error)
  : Values * option error by wf (String.length query) lt :=
  parseQuery m query err with inspect (String.eqb query EmptyString) => {
    | exist _ true _ := (m, err);
    | exist _ false Hne :=
        parseQuery (parseQuery_step m (strings.Cut query "&").1.1 err).1
                   (strings.Cut query "&").1.2
                   (parseQuery_step m (strings.Cut query "&").1.1 err).2 }.
Proof.
  apply Cut_nonempty_shrinks; [done|].
  intros ->. discriminate.
Qed.

(** [url.ParseQuery(query)].  Like the Go function it returns the map of
    the pieces it could read together with the error, if any piece was
    skipped. *)
Definition ParseQuery (query : string) : Values * option error :=
  parseQuery ∅ query None.

(** The inner loop of [Values.Encode] over the values of one key. *)
Definition Encode_values (keyEscaped : string) (vs : list string)
  (buf : string) : string :=
  fold_left
    (fun buf v =>
       (if 0 <? strings.len buf then buf +:+ "&" else buf)
       +:+ keyEscaped +:+ "=" +:+ QueryEscape v)
    vs buf.

(** [Values.Encode]: the keys are sorted before anything is written. *)
Definition Encode (v : Values) : string :=
  if (size v =? 0)%nat then EmptyString
  else
    let keys := merge_sort String.le (map_to_list v).*1 in
    fold_left
      (fun buf k => Encode_values (QueryEscape k) (Values_at v k) buf)
      keys EmptyString.

End url.

(** ** Package [goquery]

    The document handle that [NextPage] receives.  The CSS selector engine
    (cascadia) and the HTML tree it walks are outside this repository: a
    [Selection] carries, next to its nodes, the function [findWithMatcher]
    that gives the nodes a selector selects below a list of nodes, and
    every statement about a document holds for every such function. *)
Module goquery.

(** [html.Attribute]. *)
Record Attribute : Type := mkAttribute {
  Namespace : string;
  Key : string;
  Val : string
}.

(** [html.Node], restricted to what [Selection.Attr] reads. *)
Record Node : Type := mkNode {
  Data : string;
  NodeAttr : list Attribute
}.

Record Selection : Type := mkSelection {
  Nodes : list Node;
  findWithMatcher : string -> list Node -> list Node
}.

(** [s.Find(selector)]. *)
Definition Find (s : Selection) (selector : string) : Selection :=
  mkSelection (findWithMatcher s selector (Nodes s)) (findWithMatcher s).

(** [getAttributePtr(attrName, n)]: the first attribute with that key. *)
Fixpoint getAttributePtr (attrName : string) (attrs : list Attribute)
  : option Attribute :=
  match attrs with
  | [] => None
  | a :: attrs' =>
      if String.eqb (Key a) attrName then Some a
      else getAttributePtr attrName attrs'
  end.

Definition getAttributeValue (attrName : string) (n : Node) : string * bool :=
  match getAttributePtr attrName (NodeAttr n) with
  | Some a => (Val a, true)
  | None => (EmptyString, false)
  end.

(** [s.Attr(attrName)]: the attribute of the first node of the selection. *)
Definition Attr (s : Selection) (attrName : string) : string * bool :=
  match Nodes s with
  | [] => (EmptyString, false)
  | n :: _ => getAttributeValue attrName n
  end.

End goquery.

(** ** Package [paginate] *)
Module paginate.

(** Modelled from the spec: the interface [scrape.Paginator], which the
    repository declares in its root package, outside the file modelled
    here.  The specification (section 3) gives it the one operation
    [NextPage(currentURL, document) -> (nextURL, error)].  The
    implementations have pointer receivers, so a call also yields the
    receiver's state after the call. *)
Class Paginator (P : Type) : Type :=
  NextPage : P -> string -> goquery.Selection -> P * (string * option error).

(** *** BySelector *)

Record bySelectorPaginator : Type := mkBySelector {
  sel : string;
  attr : string
}.

Definition BySelector (sel attr : string) : bySelectorPaginator :=
  mkBySelector sel attr.

Definition bySelector_NextPage (p : bySelectorPaginator) (uri : string)
  (doc : goquery.Selection) : string * option error :=
  let '(val, found) := goquery.Attr (goquery.Find doc (sel p)) (attr p) in
  if negb found then (EmptyString, None)
  else
    (* Make the URL absolute. *)
    match url.Parse uri with
    | Err err => (EmptyString, Some err)
    | Ok base =>
        match url.Parse val with
        | Err err => (EmptyString, Some err)
        | Ok attrUrl =>
            let newUrl := url.ResolveReference base attrUrl in
            (url.URL_String newUrl, None)
        end
    end.

#[global] Instance bySelector_Paginator : Paginator bySelectorPaginator :=
  fun p uri doc => (p, bySelector_NextPage p uri doc).

(** *** ByQueryParam *)

Record byQueryParamPaginator : Type := mkByQueryParam {
  param : string
}.

Definition ByQueryParam (param : string) : byQueryParamPaginator :=
  mkByQueryParam param.

Definition byQueryParam_NextPage (p : byQueryParamPaginator) (u : string)
  (_ : goquery.Selection) : string * option error :=
  (* Parse *)
  match url.Parse u with
  | Err err => (EmptyString, Some err)
  | Ok uri =>
      (* Parse query *)
      match url.ParseQuery (url.RawQuery uri) with
      | (_, Some err) => (EmptyString, Some err)
      | (vals, None) =>
          (* Find query param and increment.  If it doesn't exist, then
             we just stop. *)
          let params := url.Values_at vals (param p) in
          let ok := bool_decide (is_Some (vals !! param p)) in
          if negb ok || (length params <? 1)%nat then (EmptyString, None)
          else
            match params with
            | [] => (EmptyString, None) (* excluded by the test above *)
            | first :: more =>
                (* params[0] *)
                match strconv.ParseUint first with
                | (_, Some _) => (EmptyString, None)
                | (parsed, None) =>
                    (* Put everything back together:
                       params[0] = strconv.FormatUint(parsed+1, 10) in
                       uint64 arithmetic, then vals[p.param] = params. *)
                    let params :=
                      strconv.FormatUint (strconv.u64 (parsed + 1)) :: more in
                    let vals := <[param p := params]> vals in
                    let query := url.Encode vals in
                    let uri := url.set_RawQuery uri query in
                    (url.URL_String uri, None)
                end
            end
      end
  end.

#[global] Instance byQueryParam_Paginator : Paginator byQueryParamPaginator :=
  fun p u doc => (p, byQueryParam_NextPage p u doc).

(** *** LimitPages *)

(** Go's [int] on a 64-bit platform. *)
Definition minInt : Z := - 2 ^ 63.
Definition maxInt : Z := 2 ^ 63 - 1.
Definition int (z : Z) : Z := (z + 2 ^ 63) mod 2 ^ 64 - 2 ^ 63.
Definition isInt (z : Z) : Prop := minInt <= z <= maxInt.

Record limitPagesPaginator (U : Type) : Type := mkLimitPages {
  current : Z;
  limit : Z;
  underlying : U
}.
Arguments mkLimitPages {U} current limit underlying.
Arguments current {U} l.
Arguments limit {U} l.
Arguments underlying {U} l.

Definition LimitPages {U : Type} (limit : Z) (underlying : U)
  : limitPagesPaginator U :=
  mkLimitPages 0 limit underlying.

Definition limitPages_NextPage {U : Type} `{Paginator U}
  (p : limitPagesPaginator U) (url : string) (sel : goquery.Selection)
  : limitPagesPaginator U * (string * option error) :=
  (* If we've already paginated this number of pages, then we stop. *)
  if limit p <=? current p then (p, (EmptyString, None))
  else
    (* p.current += 1 *)
    let p := mkLimitPages (int (current p + 1)) (limit p) (underlying p) in
    (* return p.underlying.NextPage(url, sel) *)
    let '(u, r) := NextPage (underlying p) url sel in
    (mkLimitPages (current p) (limit p) u, r).

#[global] Instance limitPages_Paginator (U : Type) `{Paginator U}
  : Paginator (limitPagesPaginator U) :=
  limitPages_NextPage.

End paginate.

(** * RFC 3986, section 5: the reference the specification names

    Reference resolution as the RFC words it: a URI reference is split into
    its five components by the expression of appendix B (a component that
    is absent is undefined, [None]), the target is built by the algorithm of
    section 5.2.2 with [merge] (5.2.3) and [remove_dot_segments] (5.2.4), and
    recomposed as in section 5.3. *)
Module rfc3986.

Record components : Type := mkComponents {
  scheme : option string;
  authority : option string;
  path : string;
  query : option string;
  fragment : option string
}.

(** The longest prefix of [s] without a byte of [stop], and the rest. *)
Fixpoint span (stop : string) (s : string) : string * string :=
  match s with
  | EmptyString => (EmptyString, EmptyString)
  | String c s' =>
      if byte.oneof stop c then (EmptyString, s)
      else let '(a, b) := span stop s' in (String c a, b)
  end.

(** Appendix B: a scheme is a non-empty run without colon, slash, question
    mark or number sign that a colon ends; an authority follows two slashes
    and runs to the next slash, question mark or number sign; the path runs
    to the next question mark or number sign; the query follows a question
    mark and runs to the number sign; the fragment follows the number
    sign. *)
Definition split (s : string) : components :=
  let '(scheme, s) :=
    match span ":/?#" s with
    | (String c a, String ":" rest) => (Some (String c a), rest)
    | _ => (None, s)
    end in
  let '(authority, s) :=
    match s with
    | String "/" (String "/" rest) =>
        let '(a, rest') := span "/?#" rest in (Some a, rest')
    | _ => (None, s)
    end in
  let '(path, s) := span "?#" s in
  let '(query, s) :=
    match s with
    | String "?" rest => let '(q, rest') := span "#" rest in (Some q, rest')
    | _ => (None, s)
    end in
  let fragment :=
    match s with
    | String "#" rest => Some rest
    | _ => None
    end in
  mkComponents scheme authority path query fragment.

(** The output buffer without its last segment and the slash before it. *)
Definition dropLastSegment (output : string) : string :=
  let i := strings.LastIndex output "/" in
  if i <? 0 then EmptyString else strings.upto (Z.to_nat i) output.

(** Section 5.2.4; every step shortens the input buffer, so its length
    (plus one) is fuel enough. *)
Fixpoint remove_dot_segments_loop (fuel : nat) (input output : string)
  : string :=
  match fuel with
  | O => output
  | S fuel' =>
      if String.eqb input EmptyString then output
      else if strings.HasPrefix input "../"
      then remove_dot_segments_loop fuel' (strings.from 3 input) output
      else if strings.HasPrefix input "./"
      then remove_dot_segments_loop fuel' (strings.from 2 input) output
      else if strings.HasPrefix input "/./"
      then remove_dot_segments_loop fuel' (strings.from 2 input) output
      else if String.eqb input "/."
      then remove_dot_segments_loop fuel' "/" output
      else if strings.HasPrefix input "/../"
      then remove_dot_segments_loop fuel' (strings.from 3 input)
             (dropLastSegment output)
      else if String.eqb input "/.."
      then remove_dot_segments_loop fuel' "/" (dropLastSegment output)
      else if String.eqb input "." || String.eqb input ".."
      then remove_dot_segments_loop fuel' EmptyString output
      else
        match input with
        | EmptyString => output
        | String c rest =>
            let '(segment, rest') := span "/" rest in
            remove_dot_segments_loop fuel' rest'
              (output +:+ String c segment)
        end
  end.

Definition remove_dot_segments (path : string) : string :=
  remove_dot_segments_loop (S (String.length path)) path EmptyString.

(** Section 5.2.3. *)
Definition merge (base : components) (ref_path : string) : string :=
  if bool_decide (authority base ≠ None) && String.eqb (path base) EmptyString
  then "/" +:+ ref_path
  else
    let i := strings.LastIndex (path base) "/" in
    strings.upto (Z.to_nat (i + 1)) (path base) +:+ ref_path.

(** Section 5.2.2, for a strict parser. *)
Definition transform (base r : components) : components :=
  match scheme r with
  | Some _ =>
      mkComponents (scheme r) (authority r) (remove_dot_segments (path r))
        (query r) (fragment r)
  | None =>
      match authority r with
      | Some _ =>
          mkComponents (scheme base) (authority r)
            (remove_dot_segments (path r)) (query r) (fragment r)
      | None =>
          if String.eqb (path r) EmptyString
          then
            mkComponents (scheme base) (authority base) (path base)
              (match query r with Some q => Some q | None => query base end)
              (fragment r)
          else if strings.HasPrefix (path r) "/"
          then
            mkComponents (scheme base) (authority base)
              (remove_dot_segments (path r)) (query r) (fragment r)
          else
            mkComponents (scheme base) (authority base)
              (remove_dot_segments (merge base (path r))) (query r)
              (fragment r)
      end
  end.

(** Section 5.3. *)
Definition recompose (t : components) : string :=
  (match scheme t with Some s => s +:+ ":" | None => EmptyString end)
  +:+ (match authority t with Some a => "//" +:+ a | None => EmptyString end)
  +:+ path t
  +:+ (match query t with Some q => "?" +:+ q | None => EmptyString end)
  +:+ (match fragment t with Some f => "#" +:+ f | None => EmptyString end).

Definition resolve (base ref : string) : string :=
  recompose (transform (split base) (split ref)).

(** The examples of sections 5.4.1 and 5.4.2, all for the base
    [http://a/b/c/d;p?q]: reference and target. *)
Definition exampleBase : string := "http://a/b/c/d;p?q".
Definition examples : list (string * string) :=
  [ ("g:h", "g:h"); ("g", "http://a/b/c/g"); ("./g", "http://a/b/c/g");
    ("g/", "http://a/b/c/g/"); ("/g", "http://a/g"); ("//g", "http://g");
    ("?y", "http://a/b/c/d;p?y"); ("g?y", "http://a/b/c/g?y");
    ("#s", "http://a/b/c/d;p?q#s"); ("g#s", "http://a/b/c/g#s");
    ("g?y#s", "http://a/b/c/g?y#s"); (";x", "http://a/b/c/;x");
    ("g;x", "http://a/b/c/g;x"); ("g;x?y#s", "http://a/b/c/g;x?y#s");
    ("", "http://a/b/c/d;p?q"); (".", "http://a/b/c/");
    ("./", "http://a/b/c/"); ("..", "http://a/b/"); ("../", "http://a/b/");
    ("../g", "http://a/b/g"); ("../..", "http://a/"); ("../../", "http://a/");
    ("../../g", "http://a/g");
    ("../../../g", "http://a/g"); ("../../../../g", "http://a/g");
    ("/./g", "http://a/g"); ("/../g", "http://a/g");
    ("g.", "http://a/b/c/g."); (".g", "http://a/b/c/.g");
    ("g..", "http://a/b/c/g.."); ("..g", "http://a/b/c/..g");
    ("./../g", "http://a/b/g"); ("./g/.", "http://a/b/c/g/");
    ("g/./h", "http://a/b/c/g/h"); ("g/../h", "http://a/b/c/h");
    ("g;x=1/./y", "http://a/b/c/g;x=1/y"); ("g;x=1/../y", "http://a/b/c/y");
    ("g?y/./x", "http://a/b/c/g?y/./x"); ("g?y/../x", "http://a/b/c/g?y/../x");
    ("g#s/./x", "http://a/b/c/g#s/./x"); ("g#s/../x", "http://a/b/c/g#s/../x");
    ("http:g", "http:g") ].

End rfc3986.

(** * Vocabulary of the properties

    Test data, the notions of the specification (a decimal numeral and its
    value, a document without link) and the shape of an encoded query
    string, in which the properties below are stated. *)

Import paginate.

(** A crawl: the calls the crawler makes on one paginator, in order, with
    the state threaded through; it yields the final state and every
    result. *)
Fixpoint crawl {P : Type} `{Paginator P} (p : P)
  (pages : list (string * goquery.Selection))
  : P * list (string * option error) :=
  match pages with
  | [] => (p, [])
  | (url, doc) :: pages' =>
      let '(p1, r) := NextPage p url doc in
      let '(p2, rs) := crawl p1 pages' in
      (p2, r :: rs)
  end.

(** A counting test double: it records how often it was invoked and always
    gives the same answer. *)
Record countingPaginator : Type := mkCounting {
  invocations : nat;
  answer : string * option error
}.

#[global] Instance counting_Paginator : Paginator countingPaginator :=
  fun p _ _ => (mkCounting (S (invocations p)) (answer p), answer p).

(** An empty document: no node, and no selector selects anything. *)
Definition noDocument : goquery.Selection :=
  goquery.mkSelection [] (fun _ _ => []).

(** A page whose only anchor of class [next] carries [href]: a toy selector
    engine that knows the selector [a.next]. *)
Definition pageWithNext (href : string) : goquery.Selection :=
  goquery.mkSelection
    [goquery.mkNode "html" []]
    (fun selector _ =>
       if String.eqb selector "a.next"
       then [goquery.mkNode "a"
               [goquery.mkAttribute EmptyString "class" "next";
                goquery.mkAttribute EmptyString "href" href]]
       else []).

(** What it means for the document to offer no link: the selector selects
    nothing, or the first selected element has no attribute of that name. *)
Definition noLink (p : bySelectorPaginator) (doc : goquery.Selection)
  : Prop :=
  match goquery.Nodes (goquery.Find doc (sel p)) with
  | [] => True
  | n :: _ => Forall (fun a => goquery.Key a ≠ attr p) (goquery.NodeAttr n)
  end.

(** The parameter value as the specification speaks of it: a base-10
    integer without sign is a non-empty string of decimal digits
    ([isDecimal]), and [decimalValue] is the number it denotes, without any
    bound. *)
Definition digitValue (c : ascii) : Z := Z.of_N (byte.val c) - 48.

(** The number a string of decimal digits denotes, read on from [n]. *)
Fixpoint decimalValue_from (s : string) (n : Z) : Z :=
  match s with
  | EmptyString => n
  | String c s' => decimalValue_from s' (10 * n + digitValue c)
  end.

Definition decimalValue (s : string) : Z := decimalValue_from s 0.

Definition isDecimal (s : string) : bool :=
  url.nonempty s && url.allDigits s.

Abbreviation QC := url.encodeQueryComponent.

(** Does the byte [c] occur in [s]. *)
Fixpoint hasByte (c : ascii) (s : string) : bool :=
  match s with
  | EmptyString => false
  | String x s' => Ascii.eqb x c || hasByte c s'
  end.

(** What [Values.Encode] writes: [queryPairs v] lists the key/value pairs
    of [v], the keys in ascending order and the values of one key in their
    order in [v]; [queryPiece p] is the text written for one pair. *)
Definition sortedKeys (v : url.Values) : list string :=
  merge_sort String.le (map_to_list v).*1.

Definition pairsOf (f : string -> list string) (keys : list string)
  : list (string * string) :=
  concat ((fun k => pair k <$> f k) <$> keys).

Definition queryPairs (v : url.Values) : list (string * string) :=
  pairsOf (url.Values_at v) (sortedKeys v).

Definition queryPiece (p : string * string) : string :=
  url.QueryEscape p.1 +:+ "=" +:+ url.QueryEscape p.2.

(** [m[key] = append(m[key], value)], the one update [parseQuery] makes. *)
Definition addPair (m : url.Values) (p : string * string) : url.Values :=
  <[p.1 := url.Values_at m p.1 ++ [p.2]]> m.

(** The string builder discipline of [Encode]: an ampersand before every
    piece but the first. *)
Definition joinTo (buf : string) (pieces : list string) : string :=
  fold_left
    (fun buf piece =>
       (if 0 <? strings.len buf then buf +:+ "&" else buf) +:+ piece)
    pieces buf.

Definition tailJoin (pieces : list string) : string :=
  foldr (fun piece acc => "&" +:+ piece +:+ acc) EmptyString pieces.

(** A map as [ParseQuery] builds it: no key with an empty list. *)
Definition noEmptyValues (v : url.Values) : Prop :=
  map_Forall (fun _ l => l ≠ []) v.

(** The three texts [URL.String] puts together: the URL without query and
    fragment, the query with its question mark, the fragment with its
    number sign. *)
Definition beforeQuery (u : url.URL) : url.URL :=
  url.set_ForceQuery
    (url.set_Fragment (url.set_RawQuery u EmptyString) EmptyString) false.

Definition queryText (force : bool) (query : string) : string :=
  if force || url.nonempty query then "?" +:+ query else EmptyString.

Definition fragmentText (u : url.URL) : string :=
  if url.nonempty (url.Fragment u) then "#" +:+ url.EscapedFragment u
  else EmptyString.

(** ** Vocabulary of the further properties *)

(** Every percent sign of [s] is followed by two hexadecimal digits. *)
Fixpoint wellEscaped (s : string) : bool :=
  match s with
  | EmptyString => true
  | String "%" (String a (String b rest)) =>
      url.ishex a && url.ishex b && wellEscaped rest
  | String "%" _ => false
  | String _ rest => wellEscaped rest
  end.

(** Plain URLs: the URLs whose parts are written as they are, without
    escapes, user information, port or fragment. *)
Fixpoint allBytes (ok : ascii -> bool) (s : string) : bool :=
  match s with
  | EmptyString => true
  | String c s' => ok c && allBytes ok s'
  end.

Definition alnum (c : ascii) : bool :=
  byte.within "a" "z" c || byte.within "A" "Z" c || byte.within "0" "9" c.

(** The bytes of a scheme after its first letter, of a host name, of a
    path, and of an encoded query. *)
Definition schemeByte (c : ascii) : bool :=
  byte.within "a" "z" c || byte.within "0" "9" c || byte.oneof "+-." c.
Definition hostByte (c : ascii) : bool := alnum c || byte.oneof "-." c.
Definition pathByte (c : ascii) : bool := alnum c || byte.oneof "-_.~/" c.
Definition queryByte (c : ascii) : bool := alnum c || byte.oneof "-_.~%+&=" c.

(** No control byte. *)
Definition notCTL (c : ascii) : bool :=
  negb ((byte.val c <? 32)%N || (byte.val c =? 127)%N).

(** A lower-case scheme, a host name without port, an absolute path, none
    of them in need of escaping. *)
Definition plainScheme (s : string) : bool :=
  match s with
  | EmptyString => false
  | String c s' => byte.within "a" "z" c && allBytes schemeByte s'
  end.
Definition plainHost (s : string) : bool :=
  url.nonempty s && allBytes hostByte s.
Definition plainPath (s : string) : bool :=
  strings.HasPrefix s "/" && allBytes pathByte s.

(** The text [scheme://host/path?query], without the question mark when
    there is no query, and the URL value it stands for. *)
Definition plainURL (scheme host path query : string) : string :=
  scheme +:+ "://" +:+ host +:+ path +:+ queryText false query.

Definition plainRecord (scheme host path query : string) : url.URL :=
  url.mkURL scheme EmptyString None host path EmptyString false false
            query EmptyString EmptyString.

(** The URL value of a reference [path?query] without scheme and
    authority. *)
Definition plainReference (path query : string) : url.URL :=
  url.mkURL EmptyString EmptyString None EmptyString path EmptyString
            false false query EmptyString EmptyString.

(** The segments of a path, the text between its slashes. *)
Fixpoint segments (s : string) : list string :=
  match s with
  | EmptyString => [EmptyString]
  | String c s' =>
      if Ascii.eqb c "/" then EmptyString :: segments s'
      else match segments s' with
           | seg :: rest => String c seg :: rest
           | [] => [String c EmptyString]
           end
  end.

(** A path without dot segments. *)
Definition isDot (seg : string) : bool :=
  String.eqb seg "." || String.eqb seg "..".
Definition dotFree (path : string) : bool :=
  forallb (fun seg => negb (isDot seg)) (segments path).

(** The path [resolvePath] starts from: the reference if it begins with a
    slash, the base if the reference is empty, else the base up to its last
    slash followed by the reference. *)
Definition mergedPath (base ref : string) : string :=
  if String.eqb ref EmptyString then base
  else if negb (strings.HasPrefix ref "/")
  then strings.upto (Z.to_nat (strings.LastIndex base "/" + 1)) base +:+ ref
  else ref.

(** Following the paginator: from [u], fetch the page, ask for the next
    URL and go there, [k] times; [None] when a call fails or gives the
    empty string before that. *)
Fixpoint follow {P : Type} `{Paginator P} (p : P)
  (fetch : string -> goquery.Selection) (k : nat) (u : string)
  : option string :=
  match k with
  | O => Some u
  | S k' =>
      match NextPage p u (fetch u) with
      | (p', (next, None)) =>
          if String.eqb next EmptyString then None
          else follow p' fetch k' next
      | (_, (_, Some _)) => None
      end
  end.

(** * Properties *)

(** ** LimitPages *)
Section LimitPagesProperties.
Context {U : Type} `{Paginator U}.

Lemma limitPages_stop (p : limitPagesPaginator U) (url : string)
  (doc : goquery.Selection) :
  limit p <= current p -> NextPage p url doc = (p, (EmptyString, None)).
Proof.
  intros Hge. unfold NextPage, limitPages_Paginator, limitPages_NextPage.
  apply Z.leb_le in Hge. by rewrite Hge.
Qed.

Lemma crawl_stopped (p : limitPagesPaginator U)
  (pages : list (string * goquery.Selection)) :
  limit p <= current p ->
  crawl p pages = (p, (fun _ => (EmptyString, None)) <$> pages).
Proof.
  intros Hge. induction pages as [|[url doc] pages IH]; [done|].
  cbn [crawl]. rewrite (limitPages_stop p url doc Hge), IH. done.
Qed.

Lemma int_id (z : Z) : isInt z -> int z = z.
Proof.
  unfold isInt, minInt, maxInt, int. intros Hz.
  rewrite Z.mod_small; lia.
Qed.

Lemma limitPages_go (p : limitPagesPaginator U) (url : string)
  (doc : goquery.Selection) :
  current p < limit p ->
  NextPage p url doc
  = (mkLimitPages (int (current p + 1)) (limit p)
       (NextPage (underlying p) url doc).1,
     (NextPage (underlying p) url doc).2).
Proof.
  intros Hlt. unfold NextPage at 1, limitPages_Paginator, limitPages_NextPage.
  apply Z.leb_gt in Hlt. rewrite Hlt. cbn [underlying current limit].
  by destruct (NextPage (underlying p) url doc).
Qed.

End LimitPagesProperties.

(** C3: once [current >= limit], every call to [NextPage] of a
    LimitingPaginator returns the empty URL and no error and leaves the whole
    paginator as it was: [current] keeps its value and the wrapped
    paginator is in the state it was in, whatever its own [NextPage] does, so
    it was not invoked (a counting double records no invocation).  This holds
    for one call and for every further call of a crawl, and with limit 0
    already for the first call on a fresh paginator. *)
Theorem limitPages_exhausted_is_inert {U : Type} `{Paginator U}
  (p : limitPagesPaginator U) :
  limit p <= current p ->
  (forall url doc, NextPage p url doc = (p, (EmptyString, None)))
  /\ (forall pages,
        crawl p pages = (p, (fun _ => (EmptyString, None)) <$> pages))
  /\ (forall (c : countingPaginator) pages,
        invocations
          (underlying (crawl (mkLimitPages (current p) (limit p) c) pages).1)
        = invocations c)
  /\ (forall (u : U) url doc,
        NextPage (LimitPages 0 u) url doc
        = (LimitPages 0 u, (EmptyString, None))).
Proof.
  intros Hge. split; [|split; [|split]].
  - intros url doc. by apply limitPages_stop.
  - intros pages. by apply crawl_stopped.
  - intros c pages. by rewrite crawl_stopped.
  - intros u url doc. by apply limitPages_stop.
Qed.

Lemma limitPages_exhausted_is_inert_witness :
  let p := mkLimitPages 2 2 (mkCounting 2 ("http://x/next", None)) in
  limit p <= current p
  /\ NextPage p "http://x/" noDocument = (p, (EmptyString, None)).
Proof.
  split; [cbn; lia|].
  refine (proj1 (limitPages_exhausted_is_inert
                   (mkLimitPages 2 2 (mkCounting 2 ("http://x/next", None)))
                   _) "http://x/" noDocument).
  cbn; lia.
Defined.

(** C8: while [current < limit], a call to [NextPage] of a LimitingPaginator
    adds exactly 1 to [current] and hands back what the wrapped paginator
    returned, URL and error alike; the counter is incremented also when that
    result is an error. *)
Theorem limitPages_delegates {U : Type} `{Paginator U}
  (p : limitPagesPaginator U) (url : string) (doc : goquery.Selection) :
  isInt (current p) -> isInt (limit p) ->
  current p < limit p ->
  let inner := NextPage (underlying p) url doc in
  NextPage p url doc
  = (mkLimitPages (current p + 1) (limit p) inner.1, inner.2)
  /\ (forall s e, inner.2 = (s, Some e) ->
        (NextPage p url doc).2 = (s, Some e)
        /\ current (NextPage p url doc).1 = current p + 1).
Proof.
  intros Hc Hl Hlt inner.
  assert (NextPage p url doc
          = (mkLimitPages (current p + 1) (limit p) inner.1, inner.2)) as Heq.
  { rewrite (limitPages_go p url doc Hlt). rewrite int_id; [done|].
    unfold isInt in *; lia. }
  split; [exact Heq|].
  intros s e He. rewrite Heq. cbn. by rewrite He.
Qed.

Lemma limitPages_delegates_witness :
  let failing :=
    mkCounting 0 (EmptyString, Some (errorString "inner failure")) in
  NextPage (LimitPages 1 failing) "http://x/" noDocument
  = (mkLimitPages 1 1 (mkCounting 1 (answer failing)),
     (EmptyString, Some (errorString "inner failure"))).
Proof.
  refine (proj1 (limitPages_delegates
                   (LimitPages 1
                      (mkCounting 0
                         (EmptyString, Some (errorString "inner failure"))))
                   "http://x/" noDocument _ _ _));
    unfold isInt, minInt, maxInt; cbn; lia.
Defined.

(** C10: [LimitPages] accepts any limit; with a limit that is zero or
    negative, every call on the fresh paginator returns the empty URL and no
    error, the paginator (counter and wrapped strategy) stays as constructed,
    and the results are those of limit 0. *)
Theorem LimitPages_nonpositive_limit {U : Type} `{Paginator U}
  (limit : Z) (u : U) (pages : list (string * goquery.Selection)) :
  limit <= 0 ->
  crawl (LimitPages limit u) pages
  = (LimitPages limit u, (fun _ => (EmptyString, None)) <$> pages)
  /\ (crawl (LimitPages limit u) pages).2 = (crawl (LimitPages 0 u) pages).2
  /\ underlying (crawl (LimitPages limit u) pages).1 = u.
Proof.
  intros Hle.
  assert (forall l, l <= 0 ->
            crawl (LimitPages l u) pages
            = (LimitPages l u, (fun _ => (EmptyString, None)) <$> pages)) as Hs.
  { intros l Hl. apply crawl_stopped. cbn. exact Hl. }
  rewrite (Hs limit Hle), (Hs 0 (Z.le_refl 0)). done.
Qed.

Lemma LimitPages_nonpositive_limit_witness :
  let inner := mkCounting 0 ("http://x/next", None) in
  let pages := [("http://x/", noDocument); ("http://x/", noDocument)] in
  -3 <= 0
  /\ crawl (LimitPages (-3) inner) pages
     = (LimitPages (-3) inner, [(EmptyString, None); (EmptyString, None)]).
Proof.
  split; [lia|].
  refine (proj1 (LimitPages_nonpositive_limit (-3)
                   (mkCounting 0 ("http://x/next", None))
                   [("http://x/", noDocument); ("http://x/", noDocument)] _)).
  lia.
Defined.

(** ** BySelector *)

Lemma bySelector_not_found (p : bySelectorPaginator) (uri : string)
  (doc : goquery.Selection) :
  (goquery.Attr (goquery.Find doc (sel p)) (attr p)).2 = false ->
  NextPage p uri doc = (p, (EmptyString, None)).
Proof.
  intros Hnf. unfold NextPage, bySelector_Paginator, bySelector_NextPage.
  destruct (goquery.Attr (goquery.Find doc (sel p)) (attr p)) as [val found].
  cbn in Hnf. by rewrite Hnf.
Qed.

Lemma getAttributePtr_absent (attrName : string)
  (attrs : list goquery.Attribute) :
  Forall (fun a => goquery.Key a ≠ attrName) attrs ->
  goquery.getAttributePtr attrName attrs = None.
Proof.
  induction 1 as [|a attrs Ha _ IH]; [done|]. cbn.
  destruct (String.eqb_spec (goquery.Key a) attrName); [done|]. exact IH.
Qed.

Lemma noLink_not_found (p : bySelectorPaginator) (doc : goquery.Selection) :
  noLink p doc ->
  (goquery.Attr (goquery.Find doc (sel p)) (attr p)).2 = false.
Proof.
  unfold noLink, goquery.Attr.
  destruct (goquery.Nodes (goquery.Find doc (sel p))) as [|n ns]; [done|].
  intros Hn. unfold goquery.getAttributeValue.
  by rewrite getAttributePtr_absent.
Qed.

(** C7: when the configured selector matches no element of the document,
    or the first matched element lacks the configured attribute,
    [SelectorPaginator.NextPage] returns the empty URL and no error. *)
Theorem bySelector_no_link_ends_pagination (p : bySelectorPaginator)
  (uri : string) (doc : goquery.Selection) :
  goquery.Nodes (goquery.Find doc (sel p)) = []
  \/ (exists n ns,
        goquery.Nodes (goquery.Find doc (sel p)) = n :: ns
        /\ forall a, a ∈ goquery.NodeAttr n -> goquery.Key a ≠ attr p) ->
  NextPage p uri doc = (p, (EmptyString, None)).
Proof.
  intros Hdoc. apply bySelector_not_found, noLink_not_found. unfold noLink.
  destruct Hdoc as [-> | (n & ns & -> & Hn)]; [done|].
  by apply Forall_forall.
Qed.

Lemma bySelector_no_link_ends_pagination_witness :
  NextPage (BySelector "a.next" "src") "http://a/b/c/d;p?q" (pageWithNext "g")
  = (BySelector "a.next" "src", (EmptyString, None)).
Proof.
  apply (bySelector_no_link_ends_pagination (BySelector "a.next" "src")
           "http://a/b/c/d;p?q" (pageWithNext "g")).
  right. eexists _, _. split; [reflexivity|].
  intros a Ha. cbn in Ha.
  apply elem_of_cons in Ha as [-> | Ha]; [done|].
  apply elem_of_cons in Ha as [-> | Ha]; [done|].
  by apply elem_of_nil in Ha.
Defined.

(** C9: when the selector finds no attribute value, [NextPage] answers
    before it looks at [currentURL]: also for a [currentURL] that
    [url.Parse] rejects, the result is the empty URL without an error, so no
    parse error is reported for it. *)
Theorem bySelector_no_link_ignores_malformed_url (p : bySelectorPaginator)
  (uri : string) (doc : goquery.Selection) (e : error) :
  (goquery.Attr (goquery.Find doc (sel p)) (attr p)).2 = false ->
  url.Parse uri = Err e ->
  NextPage p uri doc = (p, (EmptyString, None))
  /\ (NextPage p uri doc).2.2 ≠ Some e.
Proof.
  intros Hnf _. rewrite (bySelector_not_found p uri doc Hnf). done.
Qed.

Lemma bySelector_no_link_ignores_malformed_url_witness :
  url.Parse ":" = Err (urlError "parse" ":" (errorString "missing protocol scheme"))
  /\ NextPage (BySelector "a.prev" "href") ":" (pageWithNext "g")
     = (BySelector "a.prev" "href", (EmptyString, None)).
Proof.
  split; [reflexivity|].
  refine (proj1 (bySelector_no_link_ignores_malformed_url
                   (BySelector "a.prev" "href") ":" (pageWithNext "g")
                   (urlError "parse" ":" (errorString "missing protocol scheme"))
                   _ _)); reflexivity.
Defined.

(** ** BySelector: resolving the link *)

Lemma ToLower_idemp (s : string) :
  strings.ToLower (strings.ToLower s) = strings.ToLower s.
Proof.
  induction s as [|c s IH]; [done|]. cbn. rewrite IH. f_equal.
  by destruct c as [[] [] [] [] [] [] [] []].
Qed.

Lemma setPath_Scheme (u : url.URL) (p : string) :
  url.Scheme (url.setPath u p).1 = url.Scheme u.
Proof.
  unfold url.setPath. destruct (url.unescape p url.encodePath); [|done].
  by destruct (String.eqb p _).
Qed.

Lemma setFragment_Scheme (u : url.URL) (f : string) :
  url.Scheme (url.setFragment u f).1 = url.Scheme u.
Proof.
  unfold url.setFragment. destruct (url.unescape f url.encodeFragment); [|done].
  by destruct (String.eqb f _).
Qed.

Lemma parse_Scheme_lower (rawURL : string) (viaRequest : bool) (u : url.URL) :
  url.parse rawURL viaRequest = Ok u ->
  url.Scheme u = strings.ToLower (url.Scheme u).
Proof.
  unfold url.parse. intros Hp.
  destruct (url.stringContainsCTLByte rawURL); [done|].
  destruct (String.eqb rawURL EmptyString && viaRequest); [done|].
  destruct (String.eqb rawURL "*"); [by injection Hp as <-|].
  destruct (url.getScheme rawURL) as [[scheme rest]|]; [|done].
  cbn [mbind url.res_bind] in Hp.
  set (url0 := url.set_Scheme url.zeroURL (strings.ToLower scheme)) in Hp.
  assert (forall v : url.URL, url.Scheme v = url.Scheme url0 ->
            url.Scheme v = strings.ToLower (url.Scheme v)) as Hlow.
  { intros v ->. cbn. by rewrite ToLower_idemp. }
  destruct (if strings.HasSuffix rest "?" && (strings.CountByte rest "?" =? 1)
            then _ else _) as [url1 rest1] eqn:Hq.
  assert (url.Scheme url1 = url.Scheme url0) as H1.
  { destruct (strings.HasSuffix rest "?" && _); [by injection Hq as <- _|].
    destruct (strings.Cut rest "?") as [[? ?] ?]. by injection Hq as <- _. }
  clearbody url0. clear Hq.
  destruct (negb (strings.HasPrefix rest1 "/") && url.nonempty (url.Scheme url1)).
  { injection Hp as <-. apply Hlow. by rewrite <- H1. }
  destruct (negb (strings.HasPrefix rest1 "/") && viaRequest); [done|].
  destruct (negb (strings.HasPrefix rest1 "/") && _); [done|].
  destruct (if _ && strings.HasPrefix rest1 "//" then _ else _)
    as [[url2 rest2]|] eqn:Ha; [|done].
  assert (url.Scheme url2 = url.Scheme url0) as H2.
  { destruct (_ && strings.HasPrefix rest1 "//").
    - destruct (if 0 <=? _ then _ else _) as [authority rest3].
      destruct (url.parseAuthority authority) as [[user host]|]; [|done].
      cbn in Ha. by injection Ha as <- _.
    - destruct (url.nonempty (url.Scheme url1) && _); by injection Ha as <- _. }
  cbn [mbind url.res_bind] in Hp.
  pose proof (setPath_Scheme url2 rest2) as H3.
  destruct (url.setPath url2 rest2) as [url3 [err|]]; [done|].
  injection Hp as <-. apply Hlow. cbn in H3. by rewrite H3.
Qed.

Lemma Parse_Scheme_lower (rawURL : string) (u : url.URL) :
  url.Parse rawURL = Ok u -> url.Scheme u = strings.ToLower (url.Scheme u).
Proof.
  unfold url.Parse. destruct (strings.Cut rawURL "#") as [[s frag] found].
  destruct (url.parse s false) as [url0|] eqn:Hp; [|done].
  apply parse_Scheme_lower in Hp.
  destruct (String.eqb frag EmptyString); [by intros [= <-]|].
  pose proof (setFragment_Scheme url0 frag) as Hf.
  destruct (url.setFragment url0 frag) as [url1 [err|]]; [done|].
  intros [= <-]. cbn in Hf. by rewrite Hf.
Qed.


Lemma setPath_authority (u : url.URL) (p : string) :
  url.Host (url.setPath u p).1 = url.Host u
  /\ url.User_ (url.setPath u p).1 = url.User_ u.
Proof.
  unfold url.setPath. destruct (url.unescape p url.encodePath); [|done].
  by destruct (String.eqb p _).
Qed.

Lemma ResolveReference_relative (base ref : url.URL) :
  url.Scheme ref = EmptyString -> url.Host ref = EmptyString ->
  url.User_ ref = None -> url.Opaque ref = EmptyString ->
  url.Opaque base = EmptyString ->
  url.Scheme (url.ResolveReference base ref) = url.Scheme base
  /\ url.Host (url.ResolveReference base ref) = url.Host base
  /\ url.User_ (url.ResolveReference base ref) = url.User_ base.
Proof.
  intros Hs Hh Hu Ho Hb. unfold url.ResolveReference, url.nonempty.
  rewrite Hs, Hh, Hu, Ho, Hb. cbn [String.eqb negb orb].
  rewrite bool_decide_false by (intros H; by apply H).
  rewrite andb_false_r.
  match goal with
  | |- context [url.setPath ?x ?q] =>
      destruct (setPath_authority x q) as [H1 H2];
      pose proof (setPath_Scheme x q) as H0
  end.
  rewrite H0, H1, H2. split; [|done].
  destruct (_ && _ && _); [|done]. by destruct (String.eqb (url.Fragment ref) _).
Qed.

Lemma bySelector_found (p : bySelectorPaginator) (uri : string)
  (doc : goquery.Selection) (val : string) :
  goquery.Attr (goquery.Find doc (sel p)) (attr p) = (val, true) ->
  NextPage p uri doc
  = (p,
     match url.Parse uri with
     | Err err => (EmptyString, Some err)
     | Ok base =>
         match url.Parse val with
         | Err err => (EmptyString, Some err)
         | Ok attrUrl =>
             (url.URL_String (url.ResolveReference base attrUrl), None)
         end
     end).
Proof.
  intros Hattr. unfold NextPage, bySelector_Paginator, bySelector_NextPage.
  by rewrite Hattr.
Qed.

(** C4, as the code has it: when the current URL and the extracted
    reference both parse, [NextPage] returns the text of Go's
    [ResolveReference] of the reference against the base.  A reference with
    a scheme is resolved without regard to the base (its scheme was
    lower-cased by the parser and the dot segments of its path are removed);
    a relative reference (no scheme, no authority) takes scheme, host and
    user from the base; and on every example of RFC 3986, sections 5.4.1 and
    5.4.2, the result is the one the RFC lists and the one the RFC's
    algorithm computes, so reference [g] against [http://a/b/c/d;p?q] yields
    [http://a/b/c/g]. *)
Theorem bySelector_resolves_reference (p : bySelectorPaginator) (uri : string)
  (doc : goquery.Selection) (val : string) (base ref : url.URL) :
  goquery.Attr (goquery.Find doc (sel p)) (attr p) = (val, true) ->
  url.Parse uri = Ok base ->
  url.Parse val = Ok ref ->
  NextPage p uri doc
  = (p, (url.URL_String (url.ResolveReference base ref), None))
  /\ (url.Scheme ref ≠ EmptyString ->
      url.Scheme ref = strings.ToLower (url.Scheme ref)
      /\ url.ResolveReference base ref
         = (url.setPath ref
              (url.resolvePath (url.EscapedPath ref) EmptyString)).1)
  /\ (url.Scheme ref = EmptyString -> url.Host ref = EmptyString ->
      url.User_ ref = None -> url.Opaque ref = EmptyString ->
      url.Opaque base = EmptyString ->
      url.Scheme (url.ResolveReference base ref) = url.Scheme base
      /\ url.Host (url.ResolveReference base ref) = url.Host base
      /\ url.User_ (url.ResolveReference base ref) = url.User_ base)
  /\ Forall
       (fun e =>
          rfc3986.resolve rfc3986.exampleBase e.1 = e.2
          /\ forall doc',
               goquery.Attr (goquery.Find doc' (sel p)) (attr p) = (e.1, true) ->
               NextPage p rfc3986.exampleBase doc' = (p, (e.2, None)))
       rfc3986.examples.
Proof.
  intros Hattr Hbase Href. split; [|split; [|split]].
  - by rewrite (bySelector_found p uri doc val Hattr), Hbase, Href.
  - intros Hs. split; [by apply (Parse_Scheme_lower val)|].
    unfold url.ResolveReference, url.nonempty.
    destruct (String.eqb_spec (url.Scheme ref) EmptyString); done.
  - apply ResolveReference_relative.
  - unfold rfc3986.examples.
    repeat (apply Forall_cons; split;
            [split;
             [vm_compute; reflexivity
             |intros doc' Hdoc'; rewrite (bySelector_found p _ doc' _ Hdoc');
              vm_compute; reflexivity]|]).
    constructor.
Qed.

Lemma bySelector_resolves_reference_witness :
  NextPage (BySelector "a.next" "href") "http://a/b/c/d;p?q" (pageWithNext "g")
  = (BySelector "a.next" "href", ("http://a/b/c/g", None)).
Proof.
  refine (eq_trans
            (proj1 (bySelector_resolves_reference (BySelector "a.next" "href")
                      "http://a/b/c/d;p?q" (pageWithNext "g") "g"
                      (url.mkURL "http" EmptyString None "a" "/b/c/d;p"
                         EmptyString false false "q" EmptyString EmptyString)
                      (url.mkURL EmptyString EmptyString None EmptyString "g"
                         EmptyString false false EmptyString EmptyString
                         EmptyString)
                      _ _ _))
            _).
  - vm_compute. reflexivity.
  - vm_compute. reflexivity.
  - vm_compute. reflexivity.
  - vm_compute. reflexivity.
Defined.

(** C4 as stated fails: an absolute reference is not passed through
    unchanged (RFC 3986 keeps the scheme as written, the code lower-cases
    it), and an empty reference keeps the fragment of the base, which the
    resolution of the RFC drops. *)
Lemma bySelector_resolves_reference_counterexample :
  rfc3986.resolve "http://a/b/c/d;p?q" "HTTP://x/y" = "HTTP://x/y"
  /\ NextPage (BySelector "a.next" "href") "http://a/b/c/d;p?q"
       (pageWithNext "HTTP://x/y")
     = (BySelector "a.next" "href", ("http://x/y", None))
  /\ rfc3986.resolve "http://a/b#s" EmptyString = "http://a/b"
  /\ NextPage (BySelector "a.next" "href") "http://a/b#s"
       (pageWithNext EmptyString)
     = (BySelector "a.next" "href", ("http://a/b#s", None)).
Proof. vm_compute. done. Qed.

(** ** ByQueryParam: reading the number *)

Lemma within_digit (c : ascii) :
  byte.within "0" "9" c = true -> 0 <= digitValue c <= 9.
Proof.
  unfold byte.within, digitValue.
  change (byte.val "0") with 48%N. change (byte.val "9") with 57%N.
  intros [H1 H2]%andb_prop. apply N.leb_le in H1, H2. lia.
Qed.

Lemma decimalValue_from_ge (s : string) (n : Z) :
  url.allDigits s = true -> 0 <= n -> n <= decimalValue_from s n.
Proof.
  revert n; induction s as [|c s IH]; intros n Hs Hn; cbn in *; [lia|].
  apply andb_prop in Hs as [Hc Hs]. apply within_digit in Hc.
  etrans; [|apply IH]; [lia|done|lia].
Qed.

Lemma ParseUint_loop_digit (s0 : string) (c : ascii) (s : string) (n : Z) :
  byte.within "0" "9" c = true ->
  strconv.ParseUint_loop s0 (String c s) n
  = if 1844674407370955162 <=? n
    then (strconv.maxUint64, Some (strconv.rangeError "ParseUint" s0))
    else
      let n1 := strconv.u64 (strconv.u64 (n * 10) + digitValue c) in
      if (n1 <? strconv.u64 (n * 10)) || (strconv.maxUint64 <? n1)
      then (strconv.maxUint64, Some (strconv.rangeError "ParseUint" s0))
      else strconv.ParseUint_loop s0 s n1.
Proof.
  intros Hc. cbn [strconv.ParseUint_loop]. rewrite Hc.
  pose proof (within_digit c Hc) as Hd.
  assert (Z.of_N (byte.val c - byte.val "0") = digitValue c) as ->.
  { unfold digitValue in *. change (byte.val "0") with 48%N. lia. }
  destruct (10 <=? digitValue c) eqn:H10; [apply Z.leb_le in H10; lia|].
  reflexivity.
Qed.

Lemma ParseUint_loop_decimal (s0 s : string) (n : Z) :
  url.allDigits s = true -> 0 <= n < 2 ^ 64 ->
  strconv.ParseUint_loop s0 s n
  = if decimalValue_from s n <? 2 ^ 64
    then (decimalValue_from s n, None)
    else (strconv.maxUint64, Some (strconv.rangeError "ParseUint" s0)).
Proof.
  revert n; induction s as [|c s IH]; intros n Hs Hn.
  - cbn. destruct (Z.ltb_spec n (2 ^ 64)); [done|lia].
  - cbn in Hs. apply andb_prop in Hs as [Hc Hs].
    rewrite (ParseUint_loop_digit _ _ _ _ Hc).
    pose proof (within_digit c Hc) as Hd.
    cbn [decimalValue_from].
    pose proof (decimalValue_from_ge s (10 * n + digitValue c) Hs ltac:(lia)) as Hge.
    destruct (Z.leb_spec 1844674407370955162 n) as [Hcut|Hcut].
    { destruct (Z.ltb_spec (decimalValue_from s (10 * n + digitValue c)) (2 ^ 64));
        [lia|done]. }
    cbv zeta. unfold strconv.u64, strconv.maxUint64.
    rewrite (Z.mod_small (n * 10)) by lia.
    destruct (Z.lt_ge_cases (n * 10 + digitValue c) (2 ^ 64)) as [Hfit|Hover].
    + rewrite (Z.mod_small (n * 10 + digitValue c)) by lia.
      destruct (Z.ltb_spec (n * 10 + digitValue c) (n * 10)); [lia|].
      destruct (Z.ltb_spec (2 ^ 64 - 1) (n * 10 + digitValue c)); [lia|].
      cbn [orb]. rewrite IH by (done || lia).
      by replace (n * 10 + digitValue c) with (10 * n + digitValue c) by lia.
    + assert ((n * 10 + digitValue c) mod 2 ^ 64 = n * 10 + digitValue c - 2 ^ 64) as ->.
      { symmetry. apply Z.mod_unique with 1; lia. }
      destruct (Z.ltb_spec (n * 10 + digitValue c - 2 ^ 64) (n * 10)); [|lia].
      cbn [orb].
      destruct (Z.ltb_spec (decimalValue_from s (10 * n + digitValue c)) (2 ^ 64));
        [lia|done].
Qed.

Lemma ParseUint_decimal (s : string) :
  isDecimal s = true ->
  strconv.ParseUint s
  = if decimalValue s <? 2 ^ 64
    then (decimalValue s, None)
    else (strconv.maxUint64, Some (strconv.rangeError "ParseUint" s)).
Proof.
  unfold isDecimal. intros [Hne Hs]%andb_prop.
  destruct s as [|c s]; [done|]. unfold strconv.ParseUint.
  by rewrite ParseUint_loop_decimal.
Qed.

Lemma ParseUint_loop_not_digits (s0 s : string) (n : Z) :
  url.allDigits s = false ->
  exists m e, strconv.ParseUint_loop s0 s n = (m, Some e).
Proof.
  revert n; induction s as [|c s IH]; intros n Hs; [done|].
  cbn in Hs. destruct (byte.within "0" "9" c) eqn:Hc.
  - rewrite (ParseUint_loop_digit _ _ _ _ Hc). cbn in Hs.
    destruct (_ <=? n); [by eexists _, _|]. cbv zeta.
    destruct (_ || _); [by eexists _, _|]. by apply IH.
  - cbn [strconv.ParseUint_loop]. rewrite Hc.
    clear Hs.
    destruct ((byte.val "a" <=? strconv.lower c)%N && _) eqn:Hletter;
      [|by eexists _, _].
    apply andb_prop in Hletter as [Hl _]. apply N.leb_le in Hl.
    change (byte.val "a") with 97%N in *.
    destruct (10 <=? _) eqn:H10; [by eexists _, _|]. apply Z.leb_gt in H10. lia.
Qed.

Lemma ParseUint_not_decimal (s : string) :
  isDecimal s = false -> exists m e, strconv.ParseUint s = (m, Some e).
Proof.
  unfold isDecimal. destruct s as [|c s]; [by eexists _, _|]. cbn [url.nonempty].
  intros Hs. unfold strconv.ParseUint. apply ParseUint_loop_not_digits.
  exact Hs.
Qed.

Lemma byQueryParam_unfold (p : byQueryParamPaginator) (u : string)
  (doc : goquery.Selection) (uri : url.URL) (vals : url.Values) :
  url.Parse u = Ok uri ->
  url.ParseQuery (url.RawQuery uri) = (vals, None) ->
  NextPage p u doc
  = (p,
     match vals !! param p with
     | None | Some [] => (EmptyString, None)
     | Some (first :: more) =>
         match strconv.ParseUint first with
         | (_, Some _) => (EmptyString, None)
         | (parsed, None) =>
             (url.URL_String
                (url.set_RawQuery uri
                   (url.Encode
                      (<[param p :=
                           strconv.FormatUint (strconv.u64 (parsed + 1))
                           :: more]> vals))),
              None)
         end
     end).
Proof.
  intros Hu Hq.
  unfold NextPage, byQueryParam_Paginator, byQueryParam_NextPage.
  rewrite Hu, Hq. unfold url.Values_at.
  by destruct (vals !! param p) as [[|first more]|] eqn:Hl; cbn.
Qed.

(** C6, as the code has it: for a URL that parses, when the configured
    parameter is absent from what the query parser read, has no value, or
    has a first value that is not a base-10 integer without sign,
    [QueryParamPaginator.NextPage] returns the empty URL together with the
    error of the query parser: no error when the query string parses, and
    the parser's error (a malformed percent escape, a semicolon separator)
    when it does not.  That the URL parses is not enough for "no error". *)
Theorem byQueryParam_ends_pagination (p : byQueryParamPaginator) (u : string)
  (doc : goquery.Selection) (uri : url.URL) (vals : url.Values)
  (err : option error) :
  url.Parse u = Ok uri ->
  url.ParseQuery (url.RawQuery uri) = (vals, err) ->
  vals !! param p = None
  \/ vals !! param p = Some []
  \/ (exists first more,
        vals !! param p = Some (first :: more) /\ isDecimal first = false) ->
  NextPage p u doc = (p, (EmptyString, err)).
Proof.
  intros Hu Hq Hcase. destruct err as [e|].
  - unfold NextPage, byQueryParam_Paginator, byQueryParam_NextPage.
    by rewrite Hu, Hq.
  - rewrite (byQueryParam_unfold p u doc uri vals Hu Hq).
    destruct Hcase as [-> | [-> | (first & more & -> & Hnd)]]; [done..|].
    by destruct (ParseUint_not_decimal first Hnd) as (m & e & ->).
Qed.

Lemma byQueryParam_ends_pagination_witness :
  NextPage (ByQueryParam "page") "http://x/?page=abc" noDocument
  = (ByQueryParam "page", (EmptyString, None)).
Proof.
  eapply (byQueryParam_ends_pagination (ByQueryParam "page")
            "http://x/?page=abc" noDocument).
  - vm_compute. reflexivity.
  - vm_compute. reflexivity.
  - right. right. exists "abc", []. split; vm_compute; reflexivity.
Defined.

(** C6 as stated fails: [http://x/?sort=a;b] parses and has no parameter
    [page], and [http://x/?page=abc&q=100%] parses and gives [page] a first
    value that is no number, yet both calls return an error, the one of the
    query parser. *)
Lemma byQueryParam_ends_pagination_counterexample :
  (exists uri,
     url.Parse "http://x/?sort=a;b" = Ok uri
     /\ (url.ParseQuery (url.RawQuery uri)).1 !! "page" = None)
  /\ NextPage (ByQueryParam "page") "http://x/?sort=a;b" noDocument
     = (ByQueryParam "page",
        (EmptyString,
         Some (errorString "invalid semicolon separator in query")))
  /\ (exists uri,
        url.Parse "http://x/?page=abc&q=100%" = Ok uri
        /\ (url.ParseQuery (url.RawQuery uri)).1 !! "page" = Some ["abc"]
        /\ isDecimal "abc" = false)
  /\ NextPage (ByQueryParam "page") "http://x/?page=abc&q=100%" noDocument
     = (ByQueryParam "page", (EmptyString, Some (EscapeError "%"))).
Proof.
  split; [|split; [|split]].
  - exists (url.mkURL "http" EmptyString None "x" "/" EmptyString false false
              "sort=a;b" EmptyString EmptyString).
    split; vm_compute; reflexivity.
  - vm_compute. reflexivity.
  - exists (url.mkURL "http" EmptyString None "x" "/" EmptyString false false
              "page=abc&q=100%" EmptyString EmptyString).
    split; [|split]; vm_compute; reflexivity.
  - vm_compute. reflexivity.
Qed.




(** ** Query escaping *)

Lemma str_app_cons (c : ascii) (s t : string) :
  String c s +:+ t = String c (s +:+ t).
Proof. reflexivity. Qed.

Lemma str_app_nil_l (t : string) : EmptyString +:+ t = t.
Proof. reflexivity. Qed.

Lemma str_app_nil_r (s : string) : s +:+ EmptyString = s.
Proof. induction s as [|c s IH]; [done|]. by rewrite str_app_cons, IH. Qed.

Lemma str_app_assoc (s t r : string) : (s +:+ t) +:+ r = s +:+ (t +:+ r).
Proof. induction s as [|c s IH]; [done|]. by rewrite !str_app_cons, IH. Qed.

Lemma hasByte_app (c : ascii) (s t : string) :
  hasByte c (s +:+ t) = hasByte c s || hasByte c t.
Proof.
  induction s as [|x s IH]; [done|].
  rewrite str_app_cons. cbn. by rewrite IH, orb_assoc.
Qed.

Lemma hex_roundtrip (c : ascii) :
  url.unhex2 (url.hexAt (N.shiftr (byte.val c) 4))
             (url.hexAt (N.land (byte.val c) 15)) = c.
Proof. by destruct c as [[] [] [] [] [] [] [] []]. Qed.

Lemma hexAt_ishex (c : ascii) :
  url.ishex (url.hexAt (N.shiftr (byte.val c) 4)) = true
  /\ url.ishex (url.hexAt (N.land (byte.val c) 15)) = true.
Proof. by destruct c as [[] [] [] [] [] [] [] []]. Qed.

Lemma hexAt_plain (c x : ascii) :
  x = "&"%char \/ x = "="%char \/ x = ";"%char ->
  url.hexAt (N.shiftr (byte.val c) 4) ≠ x
  /\ url.hexAt (N.land (byte.val c) 15) ≠ x.
Proof.
  intros [-> | [-> | ->]]; by destruct c as [[] [] [] [] [] [] [] []].
Qed.

Lemma unescaped_byte (c : ascii) :
  url.shouldEscape c QC = false ->
  c ≠ "%"%char /\ c ≠ "+"%char /\ c ≠ " "%char
  /\ c ≠ "&"%char /\ c ≠ "="%char /\ c ≠ ";"%char.
Proof. by destruct c as [[] [] [] [] [] [] [] []]. Qed.

Lemma escape_count_bounds (s : string) (mode : url.encoding) (a b : Z) :
  a <= (url.escape_count s mode a b).1
  /\ b <= (url.escape_count s mode a b).2
  /\ ((url.escape_count s mode a b).1 = a ->
      (url.escape_count s mode a b).2 = b ->
      url.escape_build s mode = s).
Proof.
  revert a b; induction s as [|c s IH]; intros a b; cbn; [done|].
  destruct (url.shouldEscape c mode) eqn:Hc.
  - destruct (Ascii.eqb c " " && url.isQueryComponent mode).
    + destruct (IH (a + 1) b) as (? & ? & _). repeat split; lia.
    + destruct (IH a (b + 1)) as (? & ? & _). repeat split; lia.
  - destruct (IH a b) as (? & ? & Hid). repeat split; [done..|].
    intros Ha Hb.
    destruct (Ascii.eqb_spec c " ") as [->|_];
      destruct mode; cbn in *; try done; by rewrite Hid.
Qed.

Lemma escape_eq (s : string) (mode : url.encoding) :
  url.escape s mode = url.escape_build s mode.
Proof.
  unfold url.escape.
  pose proof (escape_count_bounds s mode 0 0) as (Ha & Hb & Hid).
  destruct (url.escape_count s mode 0 0) as [a b]; cbn in *.
  destruct (Z.eqb_spec a 0) as [->|]; [|done].
  destruct (Z.eqb_spec b 0) as [->|]; [|done].
  cbn. by rewrite Hid.
Qed.

Lemma escape_build_cons (c : ascii) (s : string) :
  url.escape_build (String c s) QC
  = if Ascii.eqb c " " then String "+" (url.escape_build s QC)
    else if url.shouldEscape c QC
    then String "%"
           (String (url.hexAt (N.shiftr (byte.val c) 4))
              (String (url.hexAt (N.land (byte.val c) 15))
                 (url.escape_build s QC)))
    else String c (url.escape_build s QC).
Proof. cbn [url.escape_build url.isQueryComponent]. by rewrite andb_true_r. Qed.

Lemma escape_build_free (x : ascii) (s : string) :
  x = "&"%char \/ x = "="%char \/ x = ";"%char ->
  hasByte x (url.escape_build s QC) = false.
Proof.
  intros Hx. induction s as [|c s IH]; [done|].
  rewrite escape_build_cons.
  destruct (Ascii.eqb_spec c " ") as [->|Hsp].
  { cbn. rewrite IH. by destruct Hx as [-> | [-> | ->]]. }
  destruct (url.shouldEscape c QC) eqn:Hc.
  - destruct (hexAt_plain c x Hx) as [H1 H2]. cbn. rewrite IH.
    apply Ascii.eqb_neq in H1, H2. rewrite H1, H2.
    by destruct Hx as [-> | [-> | ->]].
  - destruct (unescaped_byte c Hc) as (_ & _ & _ & H1 & H2 & H3).
    cbn. rewrite IH, orb_false_r. apply Ascii.eqb_neq.
    by destruct Hx as [-> | [-> | ->]].
Qed.

Lemma unescape_check_plain (c : ascii) (r : string) (n : Z) (hp : bool) :
  c ≠ "%"%char -> c ≠ "+"%char ->
  url.unescape_check (String c r) QC n hp = url.unescape_check r QC n hp.
Proof. by destruct c as [[] [] [] [] [] [] [] []]. Qed.

Lemma unescape_build_plain (c : ascii) (r : string) :
  c ≠ "%"%char -> c ≠ "+"%char ->
  url.unescape_build (String c r) QC = String c (url.unescape_build r QC).
Proof. by destruct c as [[] [] [] [] [] [] [] []]. Qed.

Lemma unescape_check_escaped (a b : ascii) (r : string) (n : Z) (hp : bool) :
  url.ishex a = true -> url.ishex b = true ->
  url.unescape_check (String "%" (String a (String b r))) QC n hp
  = url.unescape_check r QC (n + 1) hp.
Proof. intros Ha Hb. cbn [url.unescape_check]. by rewrite Ha, Hb. Qed.

Lemma unescape_build_escape (s : string) :
  url.unescape_build (url.escape_build s QC) QC = s.
Proof.
  induction s as [|c s IH]; [done|]. rewrite escape_build_cons.
  destruct (Ascii.eqb_spec c " ") as [->|Hsp]; [cbn; by rewrite IH|].
  destruct (url.shouldEscape c QC) eqn:Hc.
  - cbn [url.unescape_build]. by rewrite hex_roundtrip, IH.
  - destruct (unescaped_byte c Hc) as (H1 & H2 & _).
    by rewrite unescape_build_plain, IH.
Qed.

Lemma unescape_check_escape (s : string) (n : Z) (hp : bool) :
  exists n' hp',
    url.unescape_check (url.escape_build s QC) QC n hp = Ok (n', hp')
    /\ n <= n' /\ (hp = true -> hp' = true)
    /\ (n' = n -> hp' = false -> url.escape_build s QC = s).
Proof.
  revert n hp; induction s as [|c s IH]; intros n hp.
  { exists n, hp. by cbn. }
  rewrite escape_build_cons.
  destruct (Ascii.eqb_spec c " ") as [->|Hsp].
  { destruct (IH n true) as (n' & hp' & Heq & Hn & Hhp & _).
    exists n', hp'. cbn [url.unescape_check url.isQueryComponent].
    rewrite Heq. repeat split; [done| |]; intros; rewrite Hhp in *; done. }
  destruct (url.shouldEscape c QC) eqn:Hc.
  - destruct (hexAt_ishex c) as [Ha Hb].
    destruct (IH (n + 1) hp) as (n' & hp' & Heq & Hn & Hhp & _).
    exists n', hp'. rewrite unescape_check_escaped by done.
    rewrite Heq. repeat split; [lia|done|lia].
  - destruct (unescaped_byte c Hc) as (H1 & H2 & _).
    destruct (IH n hp) as (n' & hp' & Heq & Hn & Hhp & Hid).
    exists n', hp'. rewrite unescape_check_plain by done.
    rewrite Heq. repeat split; [done..|].
    intros ??. by rewrite Hid.
Qed.

Lemma QueryUnescape_QueryEscape (s : string) :
  url.QueryUnescape (url.QueryEscape s) = Ok s.
Proof.
  unfold url.QueryUnescape, url.QueryEscape, url.unescape.
  rewrite escape_eq.
  destruct (unescape_check_escape s 0 false) as (n & hp & -> & Hn & _ & Hid).
  destruct (Z.eqb_spec n 0) as [->|]; cbn.
  - destruct hp; cbn; [by rewrite unescape_build_escape|]. by rewrite Hid.
  - by rewrite unescape_build_escape.
Qed.

(** ** Cutting at a byte *)

Lemma HasPrefix_byte (c x : ascii) (s : string) :
  strings.HasPrefix (String x s) (String c EmptyString) = Ascii.eqb x c.
Proof. cbn. destruct s; by rewrite andb_true_r. Qed.

Lemma Index_app_byte (a b : string) (c : ascii) :
  hasByte c a = false ->
  strings.Index (a +:+ String c b) (String c EmptyString)
  = Z.of_nat (String.length a).
Proof.
  induction a as [|x a IH]; intros Ha.
  - rewrite str_app_nil_l. cbn [strings.Index].
    by rewrite HasPrefix_byte, Ascii.eqb_refl.
  - cbn in Ha. apply orb_false_elim in Ha as [Hx Ha].
    rewrite str_app_cons. cbn [strings.Index].
    rewrite HasPrefix_byte, Hx, (IH Ha).
    destruct (Z.ltb_spec (Z.of_nat (String.length a)) 0); [lia|].
    cbn [String.length]. lia.
Qed.

Lemma Index_no_byte (a : string) (c : ascii) :
  hasByte c a = false -> strings.Index a (String c EmptyString) = -1.
Proof.
  induction a as [|x a IH]; intros Ha; [done|].
  cbn in Ha. apply orb_false_elim in Ha as [Hx Ha].
  cbn [strings.Index]. by rewrite HasPrefix_byte, Hx, (IH Ha).
Qed.

Lemma upto_app (a b : string) : strings.upto (String.length a) (a +:+ b) = a.
Proof.
  induction a as [|x a IH]; [by destruct b|].
  rewrite str_app_cons. cbn. by rewrite IH.
Qed.

Lemma from_app (a b : string) : strings.from (String.length a) (a +:+ b) = b.
Proof. induction a as [|x a IH]; [done|]. by rewrite str_app_cons. Qed.

Lemma Cut_app_byte (a b : string) (c : ascii) :
  hasByte c a = false ->
  strings.Cut (a +:+ String c b) (String c EmptyString) = (a, b, true).
Proof.
  intros Ha. unfold strings.Cut. rewrite (Index_app_byte a b c Ha).
  destruct (Z.leb_spec 0 (Z.of_nat (String.length a))); [|lia].
  rewrite Nat2Z.id, upto_app.
  replace (a +:+ String c b) with ((a +:+ String c EmptyString) +:+ b)
    by (by rewrite str_app_assoc).
  replace (String.length a + String.length (String c EmptyString))%nat
    with (String.length (a +:+ String c EmptyString)).
  - by rewrite from_app.
  - clear. induction a as [|x a IH]; [done|].
    rewrite str_app_cons. cbn [String.length]. by rewrite IH.
Qed.

Lemma Cut_no_byte (a : string) (c : ascii) :
  hasByte c a = false ->
  strings.Cut a (String c EmptyString) = (a, EmptyString, false).
Proof. intros Ha. unfold strings.Cut. by rewrite (Index_no_byte a c Ha). Qed.

Lemma Contains_no_byte (a : string) (c : ascii) :
  hasByte c a = false -> strings.Contains a (String c EmptyString) = false.
Proof. intros Ha. unfold strings.Contains. by rewrite (Index_no_byte a c Ha). Qed.

(** ** The loop of [parseQuery] *)

Lemma parseQuery_done (m : url.Values) (err : option error) :
  url.parseQuery m EmptyString err = (m, err).
Proof. by simp parseQuery. Qed.

Lemma parseQuery_next (m : url.Values) (query : string) (err : option error) :
  query ≠ EmptyString ->
  url.parseQuery m query err
  = url.parseQuery
      (url.parseQuery_step m (strings.Cut query "&").1.1 err).1
      (strings.Cut query "&").1.2
      (url.parseQuery_step m (strings.Cut query "&").1.1 err).2.
Proof.
  intros Hne. funelim (url.parseQuery m query err).
  - by pose proof (proj1 (String.eqb_eq _ _) e).
  - reflexivity.
Qed.

(** ** What [Values.Encode] writes *)

Lemma len_pos (s : string) : s ≠ EmptyString -> (0 <? strings.len s) = true.
Proof.
  destruct s; [done|]. intros _. apply Z.ltb_lt.
  unfold strings.len. cbn [String.length]. lia.
Qed.

Lemma str_app_nonempty (s t : string) :
  t ≠ EmptyString -> s +:+ t ≠ EmptyString.
Proof. destruct s; [by rewrite str_app_nil_l|by rewrite str_app_cons]. Qed.

Lemma joinTo_nonempty (buf : string) (pieces : list string) :
  buf ≠ EmptyString -> joinTo buf pieces = buf +:+ tailJoin pieces.
Proof.
  revert buf; induction pieces as [|p ps IH]; intros buf Hbuf.
  - cbn. by rewrite str_app_nil_r.
  - cbn [joinTo fold_left tailJoin foldr]. rewrite (len_pos buf Hbuf).
    fold (joinTo ((buf +:+ "&") +:+ p) ps). rewrite IH.
    + fold (tailJoin ps). by rewrite !str_app_assoc.
    + rewrite str_app_assoc. by apply str_app_nonempty.
Qed.

Lemma concat_tailJoin (p : string) (ps : list string) :
  String.concat "&" (p :: ps) = p +:+ tailJoin ps.
Proof.
  revert p; induction ps as [|q ps IH]; intros p.
  - cbn. by rewrite str_app_nil_r.
  - change (String.concat "&" (p :: q :: ps))
      with (p +:+ "&" +:+ String.concat "&" (q :: ps)).
    by rewrite IH.
Qed.

Lemma joinTo_concat (pieces : list string) :
  Forall (fun p => p ≠ EmptyString) pieces ->
  joinTo EmptyString pieces = String.concat "&" pieces.
Proof.
  destruct 1 as [|p ps Hp _]; [done|].
  rewrite concat_tailJoin. cbn [joinTo fold_left].
  change (0 <? strings.len EmptyString) with false. rewrite str_app_nil_l.
  by apply joinTo_nonempty.
Qed.

Lemma joinTo_app (buf : string) (ps qs : list string) :
  joinTo buf (ps ++ qs) = joinTo (joinTo buf ps) qs.
Proof. apply fold_left_app. Qed.

Lemma Encode_values_joinTo (keyEscaped : string) (vs : list string)
  (buf : string) :
  url.Encode_values keyEscaped vs buf
  = joinTo buf ((fun x => keyEscaped +:+ "=" +:+ url.QueryEscape x) <$> vs).
Proof.
  unfold url.Encode_values, joinTo.
  revert buf; induction vs as [|x vs IH]; intros buf; [done|].
  cbn [fold_left fmap list_fmap]. by rewrite IH.
Qed.

Lemma queryPiece_nonempty (p : string * string) : queryPiece p ≠ EmptyString.
Proof. unfold queryPiece. by apply str_app_nonempty. Qed.

Lemma Encode_keys_joinTo (v : url.Values) (keys : list string) (buf : string) :
  fold_left
    (fun buf k => url.Encode_values (url.QueryEscape k) (url.Values_at v k) buf)
    keys buf
  = joinTo buf
      (queryPiece <$> concat ((fun k => pair k <$> url.Values_at v k) <$> keys)).
Proof.
  revert buf; induction keys as [|k keys IH]; intros buf; [done|].
  cbn [fold_left fmap list_fmap concat]. rewrite IH, Encode_values_joinTo.
  rewrite fmap_app, joinTo_app. do 2 f_equal.
  rewrite <- list_fmap_compose. done.
Qed.

(** [Encode] writes the pieces of [queryPairs], joined by ampersands. *)
Lemma Encode_queryPairs (v : url.Values) :
  url.Encode v = String.concat "&" (queryPiece <$> queryPairs v).
Proof.
  unfold url.Encode, queryPairs, sortedKeys.
  destruct (Nat.eqb_spec (size v) 0) as [Hsz|_].
  - apply map_size_empty_inv in Hsz as ->. by rewrite map_to_list_empty.
  - rewrite Encode_keys_joinTo. apply joinTo_concat.
    apply Forall_fmap, Forall_true. intros p. apply queryPiece_nonempty.
Qed.

Lemma sortedKeys_spec (v : url.Values) :
  StronglySorted String.le (sortedKeys v)
  /\ NoDup (sortedKeys v)
  /\ (forall k, k ∈ sortedKeys v <-> is_Some (v !! k)).
Proof.
  unfold sortedKeys. split; [|split].
  - apply StronglySorted_merge_sort; apply _.
  - rewrite merge_sort_Permutation. apply NoDup_fst_map_to_list.
  - intros k. rewrite merge_sort_Permutation, list_elem_of_fmap. split.
    + intros ([k' l] & -> & Hin). apply elem_of_map_to_list in Hin. by eexists.
    + intros [l Hl]. exists (k, l). split; [done|].
      by apply elem_of_map_to_list.
Qed.

(** ** Reading back what [Encode] wrote *)

Lemma queryPiece_free (x : ascii) (p : string * string) :
  x = "&"%char \/ x = ";"%char -> hasByte x (queryPiece p) = false.
Proof.
  intros Hx. unfold queryPiece, url.QueryEscape.
  rewrite !escape_eq, !hasByte_app, !escape_build_free by tauto.
  by destruct Hx as [-> | ->].
Qed.

Lemma parseQuery_step_piece (m : url.Values) (p : string * string)
  (err : option error) :
  url.parseQuery_step m (queryPiece p) err = (addPair m p, err).
Proof.
  unfold url.parseQuery_step.
  rewrite (Contains_no_byte _ ";") by (apply queryPiece_free; tauto).
  destruct (String.eqb_spec (queryPiece p) EmptyString) as [He|_];
    [by apply queryPiece_nonempty in He|].
  change (queryPiece p)
    with (url.QueryEscape p.1 +:+ String "=" (url.QueryEscape p.2)).
  rewrite (Cut_app_byte _ _ "=").
  - by rewrite !QueryUnescape_QueryEscape.
  - unfold url.QueryEscape. rewrite escape_eq. apply escape_build_free. tauto.
Qed.

Lemma parseQuery_pieces (m : url.Values) (ps : list (string * string))
  (err : option error) :
  url.parseQuery m (String.concat "&" (queryPiece <$> ps)) err
  = (foldl addPair m ps, err).
Proof.
  revert m; induction ps as [|p ps IH]; intros m.
  { apply parseQuery_done. }
  assert (hasByte "&" (queryPiece p) = false) as Hamp
    by (apply queryPiece_free; tauto).
  destruct ps as [|q ps].
  - cbn [fmap list_fmap String.concat foldl].
    rewrite parseQuery_next by apply queryPiece_nonempty.
    rewrite (Cut_no_byte _ "&" Hamp). cbn [fst snd].
    rewrite parseQuery_step_piece. apply parseQuery_done.
  - change (String.concat "&" (queryPiece <$> p :: q :: ps))
      with (queryPiece p +:+ String "&" (String.concat "&" (queryPiece <$> q :: ps))).
    rewrite parseQuery_next.
    + rewrite (Cut_app_byte _ _ "&" Hamp). cbn [fst snd].
      rewrite parseQuery_step_piece. cbn [fst snd]. by rewrite IH.
    + apply str_app_nonempty. done.
Qed.

Lemma Values_at_addPair (m : url.Values) (p : string * string) (j : string) :
  url.Values_at (addPair m p) j
  = url.Values_at m j ++ (if decide (p.1 = j) then [p.2] else []).
Proof.
  unfold addPair, url.Values_at. destruct (decide (p.1 = j)) as [<-|Hne].
  - by rewrite lookup_insert_eq.
  - rewrite lookup_insert_ne by done. by rewrite app_nil_r.
Qed.

Lemma Values_at_foldl_addPair (ps : list (string * string)) (m : url.Values)
  (j : string) :
  url.Values_at (foldl addPair m ps) j
  = url.Values_at m j ++ (filter (fun p => p.1 = j) ps).*2.
Proof.
  revert m; induction ps as [|p ps IH]; intros m.
  { cbn. by rewrite app_nil_r. }
  cbn [foldl]. rewrite IH, Values_at_addPair, <- app_assoc. f_equal.
  destruct (decide (p.1 = j)) as [Hj|Hj].
  - by rewrite filter_cons_True.
  - by rewrite filter_cons_False.
Qed.

Lemma is_Some_foldl_addPair (ps : list (string * string)) (m : url.Values)
  (j : string) :
  is_Some (foldl addPair m ps !! j) <-> is_Some (m !! j) \/ j ∈ ps.*1.
Proof.
  revert m; induction ps as [|p ps IH]; intros m.
  { cbn. rewrite elem_of_nil. tauto. }
  cbn [foldl]. rewrite IH. unfold addPair. rewrite fmap_cons, elem_of_cons.
  destruct (decide (p.1 = j)) as [<-|Hne].
  - rewrite lookup_insert_eq. split; [tauto|]. intros _. left. by eexists.
  - rewrite lookup_insert_ne by done. split; [tauto|].
    intros [?|[?|?]]; [tauto|done|tauto].
Qed.

Lemma pairsOf_keys (f : string -> list string) (keys : list string)
  (j : string) :
  j ∈ (pairsOf f keys).*1 <-> j ∈ keys /\ f j ≠ [].
Proof.
  unfold pairsOf. induction keys as [|k keys IH].
  { cbn. rewrite !elem_of_nil. tauto. }
  cbn [fmap list_fmap concat]. rewrite fmap_app, elem_of_app, IH, elem_of_cons.
  rewrite <- list_fmap_compose.
  assert (j ∈ (fst ∘ pair k) <$> f k <-> j = k /\ f j ≠ []) as ->.
  { rewrite list_elem_of_fmap. split.
    - intros (x & -> & Hx). split; [done|]. cbn. by destruct (f k); [inversion Hx|].
    - intros [-> Hne]. destruct (f k) as [|x l]; [done|].
      exists x. split; [done|]. by left. }
  tauto.
Qed.

Lemma pairsOf_values (f : string -> list string) (keys : list string)
  (j : string) :
  NoDup keys -> j ∈ keys ->
  (filter (fun p => p.1 = j) (pairsOf f keys)).*2 = f j.
Proof.
  assert (forall k l, k ≠ j ->
            filter (fun p : string * string => p.1 = j) (pair k <$> l) = [])
    as Hother.
  { intros k l Hk. induction l as [|x l IH]; [done|].
    cbn [fmap list_fmap]. by rewrite filter_cons_False. }
  assert (forall l,
            (filter (fun p : string * string => p.1 = j) (pair j <$> l)).*2 = l)
    as Hsame.
  { induction l as [|x l IH]; [done|].
    cbn [fmap list_fmap]. rewrite filter_cons_True by done.
    cbn [fmap list_fmap]. by rewrite IH. }
  assert (forall ks, j ∉ ks ->
            filter (fun p : string * string => p.1 = j) (pairsOf f ks) = [])
    as Hnone.
  { induction ks as [|k ks IH]; intros Hj; [done|].
    apply not_elem_of_cons in Hj as [Hne Hj]. unfold pairsOf in *.
    cbn [fmap list_fmap concat]. rewrite filter_app, Hother, IH by done.
    done. }
  unfold pairsOf. induction keys as [|k keys IH]; intros Hnd Hj.
  { by apply elem_of_nil in Hj. }
  apply NoDup_cons in Hnd as [Hk Hnd].
  cbn [fmap list_fmap concat]. rewrite filter_app, fmap_app.
  destruct (decide (k = j)) as [->|Hne].
  - fold (pairsOf f keys). by rewrite Hsame, Hnone, app_nil_r.
  - apply elem_of_cons in Hj as [->|Hj]; [done|].
    rewrite Hother by done. by rewrite IH.
Qed.

(** Parsing what [Encode] wrote gives the map back. *)
Lemma ParseQuery_Encode (v : url.Values) :
  noEmptyValues v -> url.ParseQuery (url.Encode v) = (v, None).
Proof.
  intros Hv. unfold url.ParseQuery.
  rewrite Encode_queryPairs, parseQuery_pieces. f_equal.
  destruct (sortedKeys_spec v) as (_ & Hnd & Hkeys).
  apply map_eq. intros j.
  pose proof (Values_at_foldl_addPair (queryPairs v) ∅ j) as Hat.
  pose proof (is_Some_foldl_addPair (queryPairs v) ∅ j) as Hsome.
  unfold queryPairs in *.
  fold (pairsOf (url.Values_at v) (sortedKeys v)) in *.
  rewrite pairsOf_keys, Hkeys, lookup_empty in Hsome.
  destruct (v !! j) as [l|] eqn:Hl.
  - assert (url.Values_at v j = l) as Hvl by (unfold url.Values_at; by rewrite Hl).
    rewrite pairsOf_values, Hvl in Hat by (done || by apply Hkeys).
    destruct Hsome as [_ [l' Hl']].
    { right. split; [done|]. rewrite Hvl. by apply (Hv j). }
    rewrite Hl'. f_equal.
    assert (url.Values_at ∅ j = []) as Hnil by done.
    rewrite Hnil in Hat. cbn [app] in Hat. rewrite <- Hat.
    unfold url.Values_at at 1. by rewrite Hl'.
  - destruct (foldl addPair ∅ _ !! j) eqn:Hf; [|done].
    destruct Hsome as [[[? ?]|[[? ?] _]] _]; done.
Qed.

(** ** Writing the number *)

Lemma digitAt_digit (d : Z) :
  0 <= d <= 9 ->
  byte.within "0" "9" (strconv.digitAt d) = true
  /\ digitValue (strconv.digitAt d) = d.
Proof.
  intros Hd.
  assert (d = 0 \/ d = 1 \/ d = 2 \/ d = 3 \/ d = 4 \/ d = 5 \/ d = 6
          \/ d = 7 \/ d = 8 \/ d = 9) as Hcases by lia.
  repeat (destruct Hcases as [-> | Hcases]; [done|]). by subst.
Qed.

Lemma decimalValue_from_app (s t : string) (n : Z) :
  decimalValue_from (s +:+ t) n = decimalValue_from t (decimalValue_from s n).
Proof.
  revert n; induction s as [|c s IH]; intros n; [done|].
  rewrite str_app_cons. cbn. apply IH.
Qed.

Lemma allDigits_app (s t : string) :
  url.allDigits (s +:+ t) = url.allDigits s && url.allDigits t.
Proof.
  induction s as [|c s IH]; [done|].
  rewrite str_app_cons. cbn. by rewrite IH, andb_assoc.
Qed.

Lemma str_length_app (s t : string) :
  String.length (s +:+ t) = (String.length s + String.length t)%nat.
Proof.
  induction s as [|c s IH]; [done|].
  rewrite str_app_cons. cbn. by rewrite IH.
Qed.

Lemma formatBits_digits (fuel : nat) (u : Z) (a : string) :
  0 <= u < 10 ^ Z.of_nat (S fuel) ->
  exists ds,
    strconv.formatBits (S fuel) u a = ds +:+ a
    /\ ds ≠ EmptyString
    /\ url.allDigits ds = true
    /\ forall n,
         decimalValue_from ds n = n * 10 ^ Z.of_nat (String.length ds) + u.
Proof.
  revert u a; induction fuel as [|fuel IH]; intros u a Hu;
    cbn [strconv.formatBits]; destruct (Z.leb_spec 10 u) as [Hge|Hlt].
  - change (10 ^ Z.of_nat 1) with 10 in Hu. lia.
  - destruct (digitAt_digit u ltac:(lia)) as [Hw Hv].
    exists (String (strconv.digitAt u) EmptyString).
    split; [done|]. split; [done|]. split; [cbn; by rewrite Hw|].
    intros n. cbn. rewrite Hv. lia.
  - destruct (IH (u / 10) (String (strconv.digitAt (u mod 10)) a))
      as (ds & Heq & Hne & Hds & Hval).
    { rewrite Nat2Z.inj_succ, Z.pow_succ_r in Hu by lia.
      split; [apply Z.div_pos; lia|]. apply Z.div_lt_upper_bound; lia. }
    destruct (digitAt_digit (u mod 10)) as [Hw Hv].
    { pose proof (Z.mod_pos_bound u 10). lia. }
    exists (ds +:+ String (strconv.digitAt (u mod 10)) EmptyString).
    cbn [strconv.formatBits] in Heq. rewrite Heq.
    split; [by rewrite str_app_assoc|].
    split; [by apply str_app_nonempty|].
    split; [rewrite allDigits_app, Hds; cbn; by rewrite Hw|].
    intros n. rewrite decimalValue_from_app, Hval, str_length_app. cbn.
    rewrite Hv, Nat2Z.inj_add, Z.pow_add_r by lia.
    change (10 ^ Z.of_nat 1) with 10.
    pose proof (Z.div_mod u 10). lia.
  - destruct (digitAt_digit u ltac:(lia)) as [Hw Hv].
    exists (String (strconv.digitAt u) EmptyString).
    split; [done|]. split; [done|]. split; [cbn; by rewrite Hw|].
    intros n. cbn. rewrite Hv. lia.
Qed.

(** [FormatUint] writes the decimal numeral of its argument. *)
Lemma FormatUint_decimal (m : Z) :
  0 <= m < 2 ^ 64 ->
  isDecimal (strconv.FormatUint m) = true
  /\ decimalValue (strconv.FormatUint m) = m.
Proof.
  intros Hm. unfold strconv.FormatUint.
  destruct (formatBits_digits 19 m EmptyString) as (ds & -> & Hne & Hds & Hval).
  { change (10 ^ Z.of_nat 20) with 100000000000000000000. lia. }
  rewrite str_app_nil_r. unfold isDecimal, decimalValue.
  rewrite Hds, Hval, andb_true_r. split; [|lia].
  by destruct ds.
Qed.

Lemma ParseUint_ok (s : string) (n : Z) :
  strconv.ParseUint s = (n, None) ->
  isDecimal s = true /\ decimalValue s = n /\ 0 <= n < 2 ^ 64.
Proof.
  intros Hp. destruct (isDecimal s) eqn:Hd.
  - rewrite (ParseUint_decimal s Hd) in Hp.
    destruct (Z.ltb_spec (decimalValue s) (2 ^ 64)); [|done].
    injection Hp as <-. split; [done|]. split; [done|]. split; [|done].
    unfold isDecimal in Hd. apply andb_prop in Hd as [_ Hd].
    by apply (decimalValue_from_ge s 0 Hd).
  - destruct (ParseUint_not_decimal s Hd) as (m & e & He). congruence.
Qed.

(** ** Putting the query back *)

(** [URL.String] writes the query between two texts that do not depend on
    it. *)
Lemma URL_String_query (u : url.URL) (query : string) :
  url.URL_String (url.set_RawQuery u query)
  = url.URL_String
      (url.set_ForceQuery
         (url.set_Fragment (url.set_RawQuery u EmptyString) EmptyString) false)
    +:+ queryText (url.ForceQuery u) query +:+ fragmentText u.
Proof.
  unfold url.URL_String, queryText, fragmentText. cbn.
  set (front := (if url.nonempty (url.Opaque u) then _ else _)).
  destruct (url.ForceQuery u || url.nonempty query);
    destruct (url.nonempty (url.Fragment u));
    by rewrite ?str_app_nil_r, ?str_app_assoc.
Qed.

Lemma parseQuery_noEmptyValues (m : url.Values) (query : string)
  (err : option error) :
  noEmptyValues m -> noEmptyValues (url.parseQuery m query err).1.
Proof.
  funelim (url.parseQuery m query err); [intros Hm; exact Hm|].
  intros Hm. apply H. clear H Heqcall.
  unfold url.parseQuery_step.
  generalize ((strings.Cut query "&").1.1) as piece. intros piece.
  destruct (strings.Contains piece ";"); [exact Hm|].
  destruct (String.eqb piece EmptyString); [exact Hm|].
  destruct (strings.Cut piece "=") as [[key value] found].
  destruct (url.QueryUnescape key) as [key'|]; [|exact Hm].
  destruct (url.QueryUnescape value) as [value'|]; [|exact Hm].
  cbn. apply map_Forall_insert_2; [|done]. by destruct (url.Values_at m key').
Qed.

Lemma Encode_nonempty (v : url.Values) (k x : string) (l : list string) :
  v !! k = Some (x :: l) -> url.Encode v ≠ EmptyString.
Proof.
  intros Hk. rewrite Encode_queryPairs.
  destruct (sortedKeys_spec v) as (_ & _ & Hkeys).
  assert (k ∈ (queryPairs v).*1) as Hin.
  { apply pairsOf_keys. split; [apply Hkeys; by eexists|].
    unfold url.Values_at. by rewrite Hk. }
  destruct (queryPairs v) as [|q qs]; [by apply elem_of_nil in Hin|].
  rewrite fmap_cons, concat_tailJoin.
  intros Hnil. apply (queryPiece_nonempty q).
  by destruct (queryPiece q).
Qed.

Lemma ParseQuery_noEmptyValues (query : string) (vals : url.Values)
  (err : option error) :
  url.ParseQuery query = (vals, err) -> noEmptyValues vals.
Proof.
  unfold url.ParseQuery. intros Hq.
  pose proof (parseQuery_noEmptyValues ∅ query None) as Hne.
  rewrite Hq in Hne. apply Hne. apply map_Forall_empty.
Qed.

Lemma noEmptyValues_insert (v : url.Values) (k x : string) (l : list string) :
  noEmptyValues v -> noEmptyValues (<[k := x :: l]> v).
Proof. intros Hv. by apply map_Forall_insert_2. Qed.

(** C5, as the code has it: when the first value of the parameter parses as
    [n] and [n + 1] is still an unsigned 64-bit number, [NextPage] returns
    the URL whose query is the encoding of the parameters with that first
    value replaced: the first value was the decimal numeral of [n], the new
    one is the decimal numeral of [n + 1], reading the new query back gives
    exactly the old parameters with the first value of the configured one
    replaced (its further values and every other parameter as they were),
    and the returned text is the URL's text with only the query part
    exchanged. *)
Theorem byQueryParam_increments (p : byQueryParamPaginator) (u : string)
  (doc : goquery.Selection) (uri : url.URL) (vals : url.Values)
  (first : string) (more : list string) (n : Z) :
  url.Parse u = Ok uri ->
  url.ParseQuery (url.RawQuery uri) = (vals, None) ->
  vals !! param p = Some (first :: more) ->
  strconv.ParseUint first = (n, None) ->
  n < 2 ^ 64 - 1 ->
  let next := strconv.FormatUint (n + 1) in
  let vals' := <[param p := next :: more]> vals in
  NextPage p u doc
  = (p, (url.URL_String (url.set_RawQuery uri (url.Encode vals')), None))
  /\ (isDecimal first = true /\ decimalValue first = n)
  /\ (isDecimal next = true /\ decimalValue next = n + 1)
  /\ url.ParseQuery (url.Encode vals') = (vals', None)
  /\ url.URL_String (url.set_RawQuery uri (url.Encode vals'))
     = url.URL_String (beforeQuery uri)
       +:+ "?" +:+ url.Encode vals' +:+ fragmentText uri
  /\ url.URL_String uri
     = url.URL_String (beforeQuery uri)
       +:+ queryText (url.ForceQuery uri) (url.RawQuery uri)
       +:+ fragmentText uri.
Proof.
  intros Hu Hq Hl Hp Hn next vals'.
  destruct (ParseUint_ok first n Hp) as (Hd & Hv & Hn0 & _).
  split; [|split; [done|split; [|split; [|split]]]].
  - rewrite (byQueryParam_unfold p u doc uri vals Hu Hq), Hl, Hp.
    unfold strconv.u64. rewrite Z.mod_small by lia. done.
  - apply FormatUint_decimal. lia.
  - apply ParseQuery_Encode, noEmptyValues_insert.
    by apply (ParseQuery_noEmptyValues _ _ _ Hq).
  - rewrite URL_String_query. unfold queryText, beforeQuery.
    assert (url.nonempty (url.Encode vals') = true) as ->; [|by rewrite orb_true_r].
    pose proof (Encode_nonempty vals' (param p) next more) as Hne.
    unfold url.nonempty.
    destruct (String.eqb_spec (url.Encode vals') EmptyString) as [He|]; [|done].
    exfalso. apply Hne; [|done]. apply lookup_insert_eq.
  - unfold beforeQuery.
    rewrite <- (URL_String_query uri (url.RawQuery uri)). by destruct uri.
Qed.

Lemma byQueryParam_increments_witness :
  NextPage (ByQueryParam "page") "http://x/?page=3" noDocument
  = (ByQueryParam "page", ("http://x/?page=4", None)).
Proof.
  refine (eq_trans
            (proj1 (byQueryParam_increments (ByQueryParam "page")
                      "http://x/?page=3" noDocument
                      (url.mkURL "http" EmptyString None "x" "/" EmptyString
                         false false "page=3" EmptyString EmptyString)
                      (url.ParseQuery "page=3").1 "3" [] 3 _ _ _ _ _))
            _).
  - vm_compute. reflexivity.
  - vm_compute. reflexivity.
  - vm_compute. reflexivity.
  - vm_compute. reflexivity.
  - vm_compute. reflexivity.
  - vm_compute. reflexivity.
Defined.

(** C5 as stated fails at the largest value: the first value parses as
    2^64 - 1, and the value put in its place is 0, not the numeral of
    2^64. *)
Lemma byQueryParam_increments_counterexample :
  strconv.ParseUint "18446744073709551615" = (2 ^ 64 - 1, None)
  /\ NextPage (ByQueryParam "page") "http://x/?page=18446744073709551615"
       noDocument
     = (ByQueryParam "page", ("http://x/?page=0", None))
  /\ decimalValue "0" ≠ 2 ^ 64 - 1 + 1.
Proof. vm_compute. done. Qed.

(** C1, as the code has it: the other parameters are not kept in their
    original order.  The query of the returned URL lists the parameters by
    ascending key (byte-wise), every key once with its values in their
    order, each pair written as escaped key, equals sign, escaped value, the
    pairs joined by ampersands. *)
Theorem byQueryParam_orders_by_key (p : byQueryParamPaginator) (u : string)
  (doc : goquery.Selection) (uri : url.URL) (vals : url.Values)
  (first : string) (more : list string) (n : Z) :
  url.Parse u = Ok uri ->
  url.ParseQuery (url.RawQuery uri) = (vals, None) ->
  vals !! param p = Some (first :: more) ->
  strconv.ParseUint first = (n, None) ->
  let vals' :=
    <[param p := strconv.FormatUint (strconv.u64 (n + 1)) :: more]> vals in
  exists keys : list string,
    StronglySorted String.le keys
    /\ NoDup keys
    /\ (forall k, k ∈ keys <-> is_Some (vals' !! k))
    /\ NextPage p u doc
       = (p,
          (url.URL_String
             (url.set_RawQuery uri
                (String.concat "&"
                   (queryPiece <$> pairsOf (url.Values_at vals') keys))),
           None)).
Proof.
  intros Hu Hq Hl Hp vals'. exists (sortedKeys vals').
  destruct (sortedKeys_spec vals') as (Hs & Hnd & Hkeys).
  split; [done|]. split; [done|]. split; [done|].
  rewrite (byQueryParam_unfold p u doc uri vals Hu Hq), Hl, Hp.
  fold vals'. by rewrite Encode_queryPairs.
Qed.

Lemma byQueryParam_orders_by_key_witness :
  let vals' : url.Values :=
    <[ "page" := ["4"] ]> (url.ParseQuery "sort=asc&page=3").1 in
  exists keys : list string,
    StronglySorted String.le keys
    /\ NoDup keys
    /\ (forall k, k ∈ keys <-> is_Some (vals' !! k))
    /\ NextPage (ByQueryParam "page") "http://x/?sort=asc&page=3" noDocument
       = (ByQueryParam "page",
          (url.URL_String
             (url.set_RawQuery
                (url.mkURL "http" EmptyString None "x" "/" EmptyString false
                   false "sort=asc&page=3" EmptyString EmptyString)
                (String.concat "&"
                   (queryPiece <$> pairsOf (url.Values_at vals') keys))),
           None)).
Proof.
  refine (byQueryParam_orders_by_key (ByQueryParam "page")
            "http://x/?sort=asc&page=3" noDocument
            (url.mkURL "http" EmptyString None "x" "/" EmptyString false
               false "sort=asc&page=3" EmptyString EmptyString)
            (url.ParseQuery "sort=asc&page=3").1 "3" [] 3 _ _ _ _).
  - vm_compute. reflexivity.
  - vm_compute. reflexivity.
  - vm_compute. reflexivity.
  - vm_compute. reflexivity.
Defined.

(** C1 as stated fails on its own example: [sort] comes after [page] in the
    returned URL. *)
Lemma byQueryParam_orders_by_key_counterexample :
  NextPage (ByQueryParam "page") "http://x/?sort=asc&page=3" noDocument
  = (ByQueryParam "page", ("http://x/?page=4&sort=asc", None))
  /\ "http://x/?page=4&sort=asc" ≠ "http://x/?sort=asc&page=4".
Proof. vm_compute. done. Qed.

(** * Further properties *)

(** ** LimitPages: the budget over a crawl *)

Lemma crawl_cons {P : Type} `{Paginator P} (p : P) (url : string)
  (doc : goquery.Selection) (pages : list (string * goquery.Selection)) :
  crawl p ((url, doc) :: pages)
  = ((crawl (NextPage p url doc).1 pages).1,
     (NextPage p url doc).2 :: (crawl (NextPage p url doc).1 pages).2).
Proof.
  cbn [crawl]. destruct (NextPage p url doc) as [p1 r]. cbn [fst snd].
  by destruct (crawl p1 pages).
Qed.

Lemma crawl_length {P : Type} `{Paginator P} (p : P)
  (pages : list (string * goquery.Selection)) :
  length (crawl p pages).2 = length pages.
Proof.
  revert p; induction pages as [|[url doc] pages IH]; intros p; [done|].
  rewrite crawl_cons. cbn. by rewrite IH.
Qed.

(** The crawl of a limiting paginator, from any state: the wrapped
    paginator sees the pages that are still within the budget, and every
    later page gets the empty answer. *)
Lemma crawl_limitPages {U : Type} `{Paginator U} (p : limitPagesPaginator U)
  (pages : list (string * goquery.Selection)) :
  isInt (current p) -> isInt (limit p) ->
  crawl p pages
  = (mkLimitPages
       (current p
        + Z.of_nat (Nat.min (Z.to_nat (limit p - current p)) (length pages)))
       (limit p)
       (crawl (underlying p) (take (Z.to_nat (limit p - current p)) pages)).1,
     (crawl (underlying p) (take (Z.to_nat (limit p - current p)) pages)).2
     ++ replicate (length pages - Z.to_nat (limit p - current p))
          (EmptyString, None)).
Proof.
  revert p; induction pages as [|[url doc] pages IH]; intros p Hc Hl.
  { cbn. rewrite Nat.min_0_r, Z.add_0_r, take_nil. by destruct p. }
  destruct (Z.le_gt_cases (limit p) (current p)) as [Hge|Hlt].
  - rewrite (crawl_stopped p _ Hge).
    replace (Z.to_nat (limit p - current p)) with 0%nat by lia.
    cbn. rewrite Z.add_0_r. destruct p as [c l u]. cbn. do 3 f_equal.
    clear. induction pages as [|x xs IH]; [done|]. cbn. by rewrite IH.
  - rewrite crawl_cons, (limitPages_go p url doc Hlt). cbn [fst snd].
    rewrite int_id by (unfold isInt, minInt, maxInt in *; lia).
    rewrite IH; cbn [current limit underlying];
      [|unfold isInt, minInt, maxInt in *; lia|done].
    replace (Z.to_nat (limit p - current p))
      with (S (Z.to_nat (limit p - (current p + 1)))) by lia.
    cbn [take length Nat.min Nat.sub]. rewrite crawl_cons. cbn [fst snd].
    f_equal. f_equal. lia.
Qed.

Lemma crawl_counting (c : countingPaginator)
  (pages : list (string * goquery.Selection)) :
  invocations (crawl c pages).1 = (invocations c + length pages)%nat.
Proof.
  revert c; induction pages as [|[url doc] pages IH]; intros c.
  { cbn. lia. }
  rewrite crawl_cons. cbn [fst]. rewrite IH. cbn. lia.
Qed.

(** X1: a fresh [LimitPages limit underlying] with [limit >= 0] hands
    exactly the first [limit] calls of a crawl to the wrapped paginator, in
    order, and returns their results; every later call gets the empty URL
    and no error.  The counter ends at the smaller of [limit] and the number
    of calls, and a counting double records that many invocations. *)
Theorem LimitPages_crawl {U : Type} `{Paginator U} (limit : Z) (u : U)
  (pages : list (string * goquery.Selection)) :
  0 <= limit -> isInt limit ->
  crawl (LimitPages limit u) pages
  = (mkLimitPages (Z.min limit (Z.of_nat (length pages))) limit
       (crawl u (take (Z.to_nat limit) pages)).1,
     (crawl u (take (Z.to_nat limit) pages)).2
     ++ replicate (length pages - Z.to_nat limit) (EmptyString, None))
  /\ forall c : countingPaginator,
       invocations (underlying (crawl (LimitPages limit c) pages).1)
       = (invocations c + Nat.min (Z.to_nat limit) (length pages))%nat.
Proof.
  intros H0 Hl.
  assert (isInt 0) as Hz by (unfold isInt, minInt, maxInt; lia).
  split.
  - rewrite crawl_limitPages by done. cbn [current paginate.limit underlying LimitPages].
    rewrite Z.sub_0_r. do 2 f_equal. lia.
  - intros c. rewrite crawl_limitPages by done.
    cbn [current paginate.limit underlying LimitPages fst].
    rewrite Z.sub_0_r, crawl_counting, length_take. done.
Qed.

Lemma LimitPages_crawl_witness :
  crawl (LimitPages 2 (mkCounting 0 ("http://x/next", None)))
        [("http://x/1", noDocument); ("http://x/2", noDocument);
         ("http://x/3", noDocument)]
  = (mkLimitPages 2 2 (mkCounting 2 ("http://x/next", None)),
     [("http://x/next", None); ("http://x/next", None); (EmptyString, None)]).
Proof.
  refine (eq_trans
            (proj1 (LimitPages_crawl 2 (mkCounting 0 ("http://x/next", None))
                      [("http://x/1", noDocument); ("http://x/2", noDocument);
                       ("http://x/3", noDocument)] _ _))
            _).
  - lia.
  - unfold isInt, minInt, maxInt. lia.
  - reflexivity.
Defined.

(** X2: what a limiting paginator keeps over any crawl, from any state
    whose fields are Go ints: the limit never changes, the counter never
    decreases, grows by at most one per call, stays a Go int (the increment
    never wraps) and never passes the limit once it is at or below it. *)
Theorem limitPages_counter_invariant {U : Type} `{Paginator U}
  (p : limitPagesPaginator U) (pages : list (string * goquery.Selection)) :
  isInt (current p) -> isInt (limit p) ->
  limit (crawl p pages).1 = limit p
  /\ current p <= current (crawl p pages).1
     <= current p + Z.of_nat (length pages)
  /\ isInt (current (crawl p pages).1)
  /\ (current p <= limit p -> current (crawl p pages).1 <= limit p).
Proof.
  intros Hc Hl. rewrite crawl_limitPages by done. cbn [fst current limit].
  unfold isInt, minInt, maxInt in *. repeat split; lia.
Qed.

Lemma limitPages_counter_invariant_witness :
  current
    (crawl (mkLimitPages 1 3 (mkCounting 0 ("http://x/next", None)))
           [("http://x/1", noDocument); ("http://x/2", noDocument);
            ("http://x/3", noDocument)]).1
  <= 3.
Proof.
  refine (proj2 (proj2 (proj2
            (limitPages_counter_invariant
               (mkLimitPages 1 3 (mkCounting 0 ("http://x/next", None)))
               [("http://x/1", noDocument); ("http://x/2", noDocument);
                ("http://x/3", noDocument)] _ _))) _);
    unfold isInt, minInt, maxInt; cbn; lia.
Defined.

(** X3: limits compose by taking the smaller one: a limiting paginator
    around a limiting paginator gives, over any crawl, the results of a
    single one with the minimum of the two limits, and leaves the innermost
    paginator in the same state. *)
Theorem LimitPages_nested {U : Type} `{Paginator U} (outer inner : Z) (u : U)
  (pages : list (string * goquery.Selection)) :
  0 <= outer -> isInt outer -> 0 <= inner -> isInt inner ->
  (crawl (LimitPages outer (LimitPages inner u)) pages).2
  = (crawl (LimitPages (Z.min outer inner) u) pages).2
  /\ underlying (underlying (crawl (LimitPages outer (LimitPages inner u)) pages).1)
     = underlying (crawl (LimitPages (Z.min outer inner) u) pages).1.
Proof.
  intros Ho Hio Hi Hii.
  assert (isInt 0) as Hz by (unfold isInt, minInt, maxInt; lia).
  assert (isInt (Z.min outer inner)) as Hm
    by (unfold isInt, minInt, maxInt in *; lia).
  rewrite (crawl_limitPages (LimitPages outer (LimitPages inner u))) by done.
  rewrite (crawl_limitPages (LimitPages (Z.min outer inner) u)) by done.
  cbn [current limit underlying LimitPages fst snd]. rewrite !Z.sub_0_r.
  rewrite (crawl_limitPages (LimitPages inner u)) by done.
  cbn [current limit underlying LimitPages fst snd]. rewrite !Z.sub_0_r.
  rewrite take_take, length_take.
  replace (Z.to_nat (Z.min outer inner))
    with (Nat.min (Z.to_nat inner) (Z.to_nat outer)) by lia.
  split; [|done].
  rewrite <- app_assoc, <- replicate_add. do 2 f_equal. lia.
Qed.

Lemma LimitPages_nested_witness :
  (crawl (LimitPages 2 (LimitPages 1 (mkCounting 0 ("http://x/next", None))))
         [("http://x/1", noDocument); ("http://x/2", noDocument);
          ("http://x/3", noDocument)]).2
  = (crawl (LimitPages (Z.min 2 1) (mkCounting 0 ("http://x/next", None)))
           [("http://x/1", noDocument); ("http://x/2", noDocument);
            ("http://x/3", noDocument)]).2.
Proof.
  refine (proj1 (LimitPages_nested 2 1 (mkCounting 0 ("http://x/next", None))
                   [("http://x/1", noDocument); ("http://x/2", noDocument);
                    ("http://x/3", noDocument)] _ _ _ _));
    unfold isInt, minInt, maxInt; lia.
Defined.

(** ** ByQueryParam: when there is a next page *)

Lemma str_app_nonempty_l (s t : string) :
  s ≠ EmptyString -> s +:+ t ≠ EmptyString.
Proof. by destruct s. Qed.

Lemma byQueryParam_url_nonempty (uri : url.URL) (v : url.Values)
  (k x : string) (l : list string) :
  v !! k = Some (x :: l) ->
  url.URL_String (url.set_RawQuery uri (url.Encode v)) ≠ EmptyString.
Proof.
  intros Hk. rewrite URL_String_query. unfold queryText.
  pose proof (Encode_nonempty v k x l Hk) as Hne.
  assert (url.nonempty (url.Encode v) = true) as ->.
  { unfold url.nonempty. by destruct (String.eqb_spec (url.Encode v) EmptyString). }
  rewrite orb_true_r. apply str_app_nonempty, str_app_nonempty_l. done.
Qed.

(** X4: [QueryParamPaginator.NextPage] returns a non-empty URL exactly when
    the URL parses, its query parses, and the first value of the configured
    parameter is a decimal numeral below 2^64; a non-empty URL never comes
    with an error. *)
Theorem byQueryParam_next_page_iff (p : byQueryParamPaginator) (u : string)
  (doc : goquery.Selection) :
  ((NextPage p u doc).2.1 ≠ EmptyString
   <-> exists uri vals first more,
         url.Parse u = Ok uri
         /\ url.ParseQuery (url.RawQuery uri) = (vals, None)
         /\ vals !! param p = Some (first :: more)
         /\ isDecimal first = true
         /\ decimalValue first < 2 ^ 64)
  /\ ((NextPage p u doc).2.1 ≠ EmptyString -> (NextPage p u doc).2.2 = None).
Proof.
  assert ((NextPage p u doc).2.1 ≠ EmptyString ->
          (exists uri vals first more,
             url.Parse u = Ok uri
             /\ url.ParseQuery (url.RawQuery uri) = (vals, None)
             /\ vals !! param p = Some (first :: more)
             /\ isDecimal first = true
             /\ decimalValue first < 2 ^ 64)
          /\ (NextPage p u doc).2.2 = None) as Hfwd.
  { destruct (url.Parse u) as [uri|e] eqn:Hu.
    2:{ unfold NextPage, byQueryParam_Paginator, byQueryParam_NextPage.
        rewrite Hu. by cbn. }
    destruct (url.ParseQuery (url.RawQuery uri)) as [vals [e|]] eqn:Hq.
    { unfold NextPage, byQueryParam_Paginator, byQueryParam_NextPage.
      rewrite Hu, Hq. by cbn. }
    rewrite (byQueryParam_unfold p u doc uri vals Hu Hq). cbn [fst snd].
    destruct (vals !! param p) as [[|first more]|] eqn:Hl; [done| |done].
    destruct (strconv.ParseUint first) as [n [e|]] eqn:Hp; [done|].
    intros _. split; [|done].
    destruct (ParseUint_ok first n Hp) as (Hd & Hv & _ & Hn).
    exists uri, vals, first, more. rewrite Hv. done. }
  split; [split|]; [apply Hfwd| |apply Hfwd].
  intros (uri & vals & first & more & Hu & Hq & Hl & Hd & Hv).
  rewrite (byQueryParam_unfold p u doc uri vals Hu Hq), Hl.
  rewrite (ParseUint_decimal first Hd).
  destruct (Z.ltb_spec (decimalValue first) (2 ^ 64)); [|lia]. cbn [fst snd].
  eapply byQueryParam_url_nonempty. apply lookup_insert_eq.
Qed.

(** ** ByQueryParam: a semicolon in the query *)

Lemma upto_from (n : nat) (s : string) :
  strings.upto n s +:+ strings.from n s = s.
Proof.
  revert s; induction n as [|n IH]; intros [|c s]; cbn; try done.
  rewrite str_app_cons. by rewrite IH.
Qed.

Lemma Index_has_byte (a : string) (c : ascii) :
  hasByte c a = true -> 0 <= strings.Index a (String c EmptyString).
Proof.
  induction a as [|x a IH]; [done|]. cbn [hasByte strings.Index].
  rewrite HasPrefix_byte. destruct (Ascii.eqb x c); [done|]. cbn [orb].
  intros Ha. specialize (IH Ha).
  destruct (Z.ltb_spec (strings.Index a (String c EmptyString)) 0); lia.
Qed.

Lemma Contains_has_byte (a : string) (c : ascii) :
  strings.Contains a (String c EmptyString) = hasByte c a.
Proof.
  destruct (hasByte c a) eqn:Ha; [|by apply Contains_no_byte].
  unfold strings.Contains. apply Z.leb_le. by apply Index_has_byte.
Qed.

Lemma hasByte_from (c : ascii) (n : nat) (s : string) :
  hasByte c (strings.from n s) = true -> hasByte c s = true.
Proof.
  revert s; induction n as [|n IH]; intros [|x s]; cbn; try done.
  intros Hs. by rewrite (IH s Hs), orb_true_r.
Qed.

(** A byte other than the separator is in the text before the first
    separator or in the text after it. *)
Lemma hasByte_Cut (c sep : ascii) (s : string) :
  c ≠ sep ->
  hasByte c s
  = hasByte c (strings.Cut s (String sep EmptyString)).1.1
    || hasByte c (strings.Cut s (String sep EmptyString)).1.2.
Proof.
  intros Hne. induction s as [|x s IH]; [done|].
  unfold strings.Cut in *. cbn [strings.Index].
  rewrite HasPrefix_byte. destruct (Ascii.eqb_spec x sep) as [->|Hx].
  { cbn. apply Ascii.eqb_neq in Hne. by rewrite Ascii.eqb_sym, Hne. }
  destruct (Z.ltb_spec (strings.Index s (String sep EmptyString)) 0) as [Hi|Hi].
  - destruct (Z.leb_spec 0 (strings.Index s (String sep EmptyString))); [lia|].
    cbn in *. by rewrite orb_false_r.
  - destruct (Z.leb_spec 0 (strings.Index s (String sep EmptyString))) as [_|];
      [|lia].
    destruct (Z.leb_spec 0 (strings.Index s (String sep EmptyString) + 1));
      [|lia].
    cbn [fst snd] in *.
    replace (Z.to_nat (strings.Index s (String sep EmptyString) + 1))
      with (S (Z.to_nat (strings.Index s (String sep EmptyString)))) by lia.
    cbn. by rewrite IH, orb_assoc.
Qed.

Lemma parseQuery_step_semicolon (m : url.Values) (key : string)
  (err : option error) :
  err = Some (errorString "invalid semicolon separator in query")
  \/ hasByte ";" key = true ->
  (url.parseQuery_step m key err).2
  = Some (errorString "invalid semicolon separator in query").
Proof.
  unfold url.parseQuery_step. rewrite Contains_has_byte.
  destruct (hasByte ";" key); [done|]. intros [->|?]; [|done].
  destruct (String.eqb key EmptyString); [done|].
  destruct (strings.Cut key "=") as [[k v] f].
  destruct (url.QueryUnescape k); [|done].
  by destruct (url.QueryUnescape v).
Qed.

Lemma parseQuery_semicolon (m : url.Values) (query : string)
  (err : option error) :
  err = Some (errorString "invalid semicolon separator in query")
  \/ hasByte ";" query = true ->
  (url.parseQuery m query err).2
  = Some (errorString "invalid semicolon separator in query").
Proof.
  funelim (url.parseQuery m query err).
  - intros [->|Hq]; [done|].
    by rewrite (proj1 (String.eqb_eq _ _) e) in Hq.
  - intros Hcase. apply H.
    rewrite (hasByte_Cut ";" "&" query) in Hcase by done.
    destruct Hcase as [->|[Hk|Hr]%orb_prop].
    + left. apply parseQuery_step_semicolon. by left.
    + left. apply parseQuery_step_semicolon. by right.
    + by right.
Qed.

(** X5: a semicolon anywhere in the query of a URL that parses makes
    [QueryParamPaginator.NextPage] fail with the query parser's semicolon
    error and an empty URL, whatever the configured parameter and whatever
    else the query holds. *)
Theorem byQueryParam_semicolon_fails (p : byQueryParamPaginator) (u : string)
  (doc : goquery.Selection) (uri : url.URL) :
  url.Parse u = Ok uri ->
  hasByte ";" (url.RawQuery uri) = true ->
  NextPage p u doc
  = (p, (EmptyString,
         Some (errorString "invalid semicolon separator in query"))).
Proof.
  intros Hu Hs.
  unfold NextPage, byQueryParam_Paginator, byQueryParam_NextPage.
  rewrite Hu. unfold url.ParseQuery.
  pose proof (parseQuery_semicolon ∅ (url.RawQuery uri) None (or_intror Hs))
    as Herr.
  destruct (url.parseQuery ∅ (url.RawQuery uri) None) as [vals err].
  cbn in Herr. by rewrite Herr.
Qed.

Lemma byQueryParam_semicolon_fails_witness :
  NextPage (ByQueryParam "page") "http://x/?page=3&sort=a;b" noDocument
  = (ByQueryParam "page",
     (EmptyString, Some (errorString "invalid semicolon separator in query"))).
Proof.
  refine (byQueryParam_semicolon_fails (ByQueryParam "page")
            "http://x/?page=3&sort=a;b" noDocument
            (url.mkURL "http" EmptyString None "x" "/" EmptyString false
               false "page=3&sort=a;b" EmptyString EmptyString) _ _).
  - vm_compute. reflexivity.
  - vm_compute. reflexivity.
Defined.

(** ** ByQueryParam: the shape of the new value *)

Lemma digitAt_leading (d : Z) :
  1 <= d <= 9 -> byte.within "1" "9" (strconv.digitAt d) = true.
Proof.
  intros Hd.
  assert (d = 1 \/ d = 2 \/ d = 3 \/ d = 4 \/ d = 5 \/ d = 6
          \/ d = 7 \/ d = 8 \/ d = 9) as Hcases by lia.
  repeat (destruct Hcases as [-> | Hcases]; [done|]). by subst.
Qed.

Lemma formatBits_leading (fuel : nat) (u : Z) (a : string) :
  1 <= u < 10 ^ Z.of_nat (S fuel) ->
  exists c rest,
    strconv.formatBits (S fuel) u a = String c rest
    /\ byte.within "1" "9" c = true.
Proof.
  revert u a; induction fuel as [|fuel IH]; intros u a Hu;
    cbn [strconv.formatBits]; destruct (Z.leb_spec 10 u) as [Hge|Hlt].
  - change (10 ^ Z.of_nat 1) with 10 in Hu. lia.
  - eexists _, _. split; [done|]. apply digitAt_leading. lia.
  - apply IH. rewrite Nat2Z.inj_succ, Z.pow_succ_r in Hu by lia.
    split; [apply Z.div_le_lower_bound; lia|].
    apply Z.div_lt_upper_bound; lia.
  - eexists _, _. split; [done|]. apply digitAt_leading. lia.
Qed.

(** X7: for a first value [n] below [2^64 - 1], the value [NextPage]
    writes is the numeral of [n + 1] without leading zeros, whatever the
    old value looked like: it starts with a digit from 1 to 9, so a
    zero-padded page number loses its padding. *)
Theorem byQueryParam_drops_leading_zeros (p : byQueryParamPaginator)
  (u : string) (doc : goquery.Selection) (uri : url.URL) (vals : url.Values)
  (first : string) (more : list string) :
  url.Parse u = Ok uri ->
  url.ParseQuery (url.RawQuery uri) = (vals, None) ->
  vals !! param p = Some (first :: more) ->
  isDecimal first = true ->
  decimalValue first < 2 ^ 64 - 1 ->
  exists c rest,
    byte.within "1" "9" c = true
    /\ decimalValue (String c rest) = decimalValue first + 1
    /\ NextPage p u doc
       = (p,
          (url.URL_String
             (url.set_RawQuery uri
                (url.Encode (<[param p := String c rest :: more]> vals))),
           None)).
Proof.
  intros Hu Hq Hl Hd Hv.
  pose proof (decimalValue_from_ge first 0) as Hge.
  unfold isDecimal in Hd. apply andb_prop in Hd as [Hne Hds].
  specialize (Hge Hds ltac:(lia)). fold (decimalValue first) in Hge.
  assert (isDecimal first = true) as Hd by (unfold isDecimal; by rewrite Hne, Hds).
  destruct (formatBits_leading 19 (decimalValue first + 1) EmptyString)
    as (c & rest & Hfmt & Hc).
  { change (10 ^ Z.of_nat 20) with 100000000000000000000. lia. }
  fold (strconv.FormatUint (decimalValue first + 1)) in Hfmt.
  exists c, rest. split; [done|]. rewrite <- Hfmt. split.
  - apply FormatUint_decimal. lia.
  - rewrite (byQueryParam_unfold p u doc uri vals Hu Hq), Hl.
    rewrite (ParseUint_decimal first Hd).
    destruct (Z.ltb_spec (decimalValue first) (2 ^ 64)); [|lia].
    unfold strconv.u64. rewrite Z.mod_small by lia. done.
Qed.

Lemma byQueryParam_drops_leading_zeros_witness :
  exists c rest,
    byte.within "1" "9" c = true
    /\ decimalValue (String c rest) = decimalValue "007" + 1
    /\ NextPage (ByQueryParam "page") "http://x/?page=007" noDocument
       = (ByQueryParam "page",
          (url.URL_String
             (url.set_RawQuery
                (url.mkURL "http" EmptyString None "x" "/" EmptyString false
                   false "page=007" EmptyString EmptyString)
                (url.Encode
                   (<[ "page" := [String c rest] ]>
                      (url.ParseQuery "page=007").1))),
           None)).
Proof.
  refine (byQueryParam_drops_leading_zeros (ByQueryParam "page")
            "http://x/?page=007" noDocument
            (url.mkURL "http" EmptyString None "x" "/" EmptyString false
               false "page=007" EmptyString EmptyString)
            (url.ParseQuery "page=007").1 "007" [] _ _ _ _ _).
  - vm_compute. reflexivity.
  - vm_compute. reflexivity.
  - vm_compute. reflexivity.
  - vm_compute. reflexivity.
  - vm_compute. reflexivity.
Defined.

(** X8: at the largest value the increment wraps: when the first value is
    a numeral of 2^64 - 1 (with or without leading zeros), [NextPage]
    returns, without an error, the URL in which that value is replaced
    by 0. *)
Theorem byQueryParam_wraps_at_max (p : byQueryParamPaginator) (u : string)
  (doc : goquery.Selection) (uri : url.URL) (vals : url.Values)
  (first : string) (more : list string) :
  url.Parse u = Ok uri ->
  url.ParseQuery (url.RawQuery uri) = (vals, None) ->
  vals !! param p = Some (first :: more) ->
  isDecimal first = true ->
  decimalValue first = 2 ^ 64 - 1 ->
  NextPage p u doc
  = (p,
     (url.URL_String
        (url.set_RawQuery uri
           (url.Encode (<[param p := "0" :: more]> vals))),
      None)).
Proof.
  intros Hu Hq Hl Hd Hv.
  rewrite (byQueryParam_unfold p u doc uri vals Hu Hq), Hl.
  rewrite (ParseUint_decimal first Hd), Hv. done.
Qed.

Lemma byQueryParam_wraps_at_max_witness :
  NextPage (ByQueryParam "page") "http://x/?page=018446744073709551615&a=b"
    noDocument
  = (ByQueryParam "page", ("http://x/?a=b&page=0", None)).
Proof.
  refine (eq_trans
            (byQueryParam_wraps_at_max (ByQueryParam "page")
               "http://x/?page=018446744073709551615&a=b" noDocument
               (url.mkURL "http" EmptyString None "x" "/" EmptyString false
                  false "page=018446744073709551615&a=b" EmptyString
                  EmptyString)
               (url.ParseQuery "page=018446744073709551615&a=b").1
               "018446744073709551615" [] _ _ _ _ _)
            _).
  - vm_compute. reflexivity.
  - vm_compute. reflexivity.
  - vm_compute. reflexivity.
  - vm_compute. reflexivity.
  - vm_compute. reflexivity.
  - vm_compute. reflexivity.
Defined.

(** ** BySelector: the next URL is absolute *)

Lemma ResolveReference_Scheme (base ref : url.URL) :
  url.Scheme (url.ResolveReference base ref)
  = if String.eqb (url.Scheme ref) EmptyString then url.Scheme base
    else url.Scheme ref.
Proof.
  unfold url.ResolveReference.
  destruct (url.nonempty (url.Scheme ref) || url.nonempty (url.Host ref)
            || bool_decide (url.User_ ref ≠ None)).
  { rewrite setPath_Scheme. by destruct (String.eqb (url.Scheme ref) _). }
  destruct (url.nonempty (url.Opaque ref)).
  { by destruct (String.eqb (url.Scheme ref) _). }
  destruct (String.eqb (url.Path ref) EmptyString && url.nonempty (url.Opaque base)).
  { destruct (_ && _ && _); [|by destruct (String.eqb (url.Scheme ref) _)].
    destruct (String.eqb (url.Fragment ref) _);
      by destruct (String.eqb (url.Scheme ref) _). }
  rewrite setPath_Scheme.
  destruct (_ && _ && _); [|by destruct (String.eqb (url.Scheme ref) _)].
  destruct (String.eqb (url.Fragment ref) _);
    by destruct (String.eqb (url.Scheme ref) _).
Qed.

Lemma URL_String_scheme (u : url.URL) :
  url.Scheme u ≠ EmptyString ->
  exists rest, url.URL_String u = url.Scheme u +:+ ":" +:+ rest.
Proof.
  intros Hs. unfold url.URL_String.
  assert (url.nonempty (url.Scheme u) = true) as ->.
  { unfold url.nonempty. by destruct (String.eqb_spec (url.Scheme u) EmptyString). }
  rewrite str_app_nil_l.
  set (front := if url.nonempty (url.Opaque u) then _ else _).
  assert (exists r, front = (url.Scheme u +:+ ":") +:+ r) as [r ->].
  { subst front. destruct (url.nonempty (url.Opaque u)); [by eexists|].
    cbn [orb].
    set (auth := if url.OmitHost u && _ && _ then _ else _).
    assert (exists a, auth = (url.Scheme u +:+ ":") +:+ a) as [a ->].
    { subst auth. destruct (url.OmitHost u && _ && _).
      { exists EmptyString. by rewrite str_app_nil_r. }
      destruct (url.nonempty (url.Host u) || url.nonempty (url.Path u)
                || bool_decide (url.User_ u ≠ None));
        destruct (url.User_ u); destruct (url.nonempty (url.Host u));
        eexists; rewrite ?str_app_assoc; try reflexivity;
        by rewrite str_app_nil_r. }
    destruct (_ && _ && url.nonempty (url.Host u));
      (destruct (String.eqb _ EmptyString && _);
       eexists; rewrite ?str_app_assoc; reflexivity). }
  destruct (url.ForceQuery u || url.nonempty (url.RawQuery u));
    destruct (url.nonempty (url.Fragment u));
    eexists; rewrite ?str_app_assoc; reflexivity.
Qed.

(** X6: when the link is found and the current URL and the link both parse,
    a current URL with a scheme gives a next URL with a scheme: the
    returned URL is not empty and begins with the scheme of the link, or,
    for a link without one, with the scheme of the current URL, followed by
    a colon. *)
Theorem bySelector_next_is_absolute (p : bySelectorPaginator) (uri : string)
  (doc : goquery.Selection) (val : string) (base ref : url.URL) :
  goquery.Attr (goquery.Find doc (sel p)) (attr p) = (val, true) ->
  url.Parse uri = Ok base ->
  url.Parse val = Ok ref ->
  url.Scheme base ≠ EmptyString ->
  exists rest,
    NextPage p uri doc
    = (p,
       ((if String.eqb (url.Scheme ref) EmptyString then url.Scheme base
         else url.Scheme ref) +:+ ":" +:+ rest,
        None)).
Proof.
  intros Hattr Hbase Href Hs.
  rewrite (bySelector_found p uri doc val Hattr), Hbase, Href.
  destruct (URL_String_scheme (url.ResolveReference base ref)) as [rest Hrest].
  { rewrite ResolveReference_Scheme.
    by destruct (String.eqb_spec (url.Scheme ref) EmptyString). }
  exists rest. by rewrite Hrest, ResolveReference_Scheme.
Qed.

Lemma bySelector_next_is_absolute_witness :
  exists rest,
    NextPage (BySelector "a.next" "href") "https://a/b/c" (pageWithNext "../g?x")
    = (BySelector "a.next" "href", ("https" +:+ ":" +:+ rest, None)).
Proof.
  refine (bySelector_next_is_absolute (BySelector "a.next" "href")
            "https://a/b/c" (pageWithNext "../g?x") "../g?x"
            (url.mkURL "https" EmptyString None "a" "/b/c" EmptyString false
               false EmptyString EmptyString EmptyString)
            (url.mkURL EmptyString EmptyString None EmptyString "../g"
               EmptyString false false "x" EmptyString EmptyString)
            _ _ _ _).
  - vm_compute. reflexivity.
  - vm_compute. reflexivity.
  - vm_compute. reflexivity.
  - vm_compute. discriminate.
Defined.

(** ** BySelector: control bytes in the current URL or in the link *)

(** X9: when a link is found, [NextPage] fails with the parser's control
    character error, and an empty URL, if the current URL has an ASCII
    control byte (a tab or a line break, say) before its fragment; and, for
    a current URL that parses, if the link has one before its fragment.  The
    link is not trimmed. *)
Theorem bySelector_control_byte_fails (p : bySelectorPaginator) (uri : string)
  (doc : goquery.Selection) (val : string) :
  goquery.Attr (goquery.Find doc (sel p)) (attr p) = (val, true) ->
  (url.stringContainsCTLByte (strings.Cut uri "#").1.1 = true ->
   NextPage p uri doc
   = (p, (EmptyString,
          Some (urlError "parse" (strings.Cut uri "#").1.1
                  (errorString "net/url: invalid control character in URL")))))
  /\ (forall base,
        url.Parse uri = Ok base ->
        url.stringContainsCTLByte (strings.Cut val "#").1.1 = true ->
        NextPage p uri doc
        = (p, (EmptyString,
               Some (urlError "parse" (strings.Cut val "#").1.1
                       (errorString
                          "net/url: invalid control character in URL"))))).
Proof.
  intros Hattr.
  assert (forall s,
            url.stringContainsCTLByte (strings.Cut s "#").1.1 = true ->
            url.Parse s
            = Err (urlError "parse" (strings.Cut s "#").1.1
                     (errorString "net/url: invalid control character in URL")))
    as Hctl.
  { intros s Hs. unfold url.Parse, url.parse.
    destruct (strings.Cut s "#") as [[s0 frag] found]. cbn in Hs.
    by rewrite Hs. }
  rewrite (bySelector_found p uri doc val Hattr). split.
  - intros Hu. by rewrite (Hctl uri Hu).
  - intros base Hbase Hv. by rewrite Hbase, (Hctl val Hv).
Qed.

Lemma bySelector_control_byte_fails_witness :
  NextPage (BySelector "a.next" "href") "http://a/b"
    (pageWithNext (String "010" "/next"))
  = (BySelector "a.next" "href",
     (EmptyString,
      Some (urlError "parse" (String "010" "/next")
              (errorString "net/url: invalid control character in URL")))).
Proof.
  refine (proj2 (bySelector_control_byte_fails (BySelector "a.next" "href")
                   "http://a/b" (pageWithNext (String "010" "/next"))
                   (String "010" "/next") _)
            (url.mkURL "http" EmptyString None "a" "/b" EmptyString false
               false EmptyString EmptyString EmptyString) _ _).
  - vm_compute. reflexivity.
  - vm_compute. reflexivity.
  - vm_compute. reflexivity.
Defined.

(** ** ByQueryParam: a malformed percent escape in the query *)

Lemma wellEscaped_plain (c : ascii) (s : string) :
  c ≠ "%"%char -> wellEscaped (String c s) = wellEscaped s.
Proof. by destruct c as [[] [] [] [] [] [] [] []]. Qed.

Lemma string_length_ind (P : string -> Prop) :
  (forall s, (forall t, (String.length t < String.length s)%nat -> P t) -> P s) ->
  forall s, P s.
Proof.
  intros Hstep s. remember (String.length s) as n eqn:Hn.
  revert s Hn. induction (lt_wf n) as [n _ IH]. intros s ->.
  apply Hstep. intros t Ht. by apply (IH (String.length t)).
Qed.

Lemma unescape_check_malformed (s : string) (n : Z) (hasPlus : bool) :
  wellEscaped s = false ->
  exists e, url.unescape_check s QC n hasPlus = Err e.
Proof.
  revert n hasPlus. induction s as [s IH] using string_length_ind.
  intros n hasPlus Hs. destruct s as [|c s]; [done|].
  destruct (Ascii.eqb_spec c "%") as [->|Hc].
  - destruct s as [|a [|b rest]]; [by eexists..|].
    cbn [url.unescape_check]. cbn [wellEscaped] in Hs.
    destruct (url.ishex a); [|by eexists].
    destruct (url.ishex b); [|by eexists]. cbn [negb orb andb] in *.
    apply IH; [cbn; lia|done].
  - rewrite wellEscaped_plain in Hs by done.
    destruct (Ascii.eqb_spec c "+") as [->|Hp].
    + cbn [url.unescape_check]. apply IH; [cbn; lia|done].
    + rewrite unescape_check_plain by done. apply IH; [cbn; lia|done].
Qed.

Lemma QueryUnescape_malformed (s : string) :
  wellEscaped s = false -> exists e, url.QueryUnescape s = Err e.
Proof.
  intros Hs. unfold url.QueryUnescape, url.unescape.
  destruct (unescape_check_malformed s 0 false Hs) as [e ->]. by eexists.
Qed.

Lemma Cut_cons_sep (sep : ascii) (s : string) :
  strings.Cut (String sep s) (String sep EmptyString) = (EmptyString, s, true).
Proof. apply (Cut_app_byte EmptyString s sep). done. Qed.

Lemma Cut_cons_other (x sep : ascii) (s : string) :
  x ≠ sep ->
  strings.Cut (String x s) (String sep EmptyString)
  = (String x (strings.Cut s (String sep EmptyString)).1.1,
     (strings.Cut s (String sep EmptyString)).1.2,
     (strings.Cut s (String sep EmptyString)).2).
Proof.
  intros Hx. unfold strings.Cut. cbn [strings.Index].
  rewrite HasPrefix_byte. apply Ascii.eqb_neq in Hx. rewrite Hx.
  destruct (Z.ltb_spec (strings.Index s (String sep EmptyString)) 0) as [Hi|Hi].
  - destruct (Z.leb_spec 0 (strings.Index s (String sep EmptyString))); [lia|].
    done.
  - destruct (Z.leb_spec 0 (strings.Index s (String sep EmptyString))) as [_|];
      [|lia].
    destruct (Z.leb_spec 0 (strings.Index s (String sep EmptyString) + 1));
      [|lia].
    replace (Z.to_nat (strings.Index s (String sep EmptyString) + 1))
      with (S (Z.to_nat (strings.Index s (String sep EmptyString)))) by lia.
    done.
Qed.

(** Cutting at a byte other than the percent sign cannot mend a malformed
    escape. *)
Lemma wellEscaped_Cut (sep : ascii) (s : string) :
  sep ≠ "%"%char ->
  wellEscaped s = false ->
  wellEscaped (strings.Cut s (String sep EmptyString)).1.1 = false
  \/ wellEscaped (strings.Cut s (String sep EmptyString)).1.2 = false.
Proof.
  intros Hsep. induction s as [s IH] using string_length_ind.
  intros Hs. destruct s as [|c s]; [done|].
  destruct (Ascii.eqb_spec c sep) as [->|Hc].
  { right. rewrite wellEscaped_plain in Hs by done.
    by rewrite Cut_cons_sep. }
  rewrite Cut_cons_other by done. cbn [fst snd].
  destruct (Ascii.eqb_spec c "%") as [->|Hp].
  2:{ rewrite wellEscaped_plain in Hs |- * by done.
      apply IH; [cbn; lia|done]. }
  destruct s as [|a s]; [by left|].
  destruct (Ascii.eqb_spec a sep) as [->|Ha].
  { left. by rewrite Cut_cons_sep. }
  rewrite Cut_cons_other by done. cbn [fst snd].
  destruct s as [|b s]; [by left|].
  destruct (Ascii.eqb_spec b sep) as [->|Hb].
  { left. by rewrite Cut_cons_sep. }
  rewrite Cut_cons_other by done. cbn [fst snd].
  cbn [wellEscaped] in Hs |- *.
  destruct (url.ishex a && url.ishex b); [|by left]. cbn [andb] in *.
  apply IH; [cbn; lia|done].
Qed.

Lemma parseQuery_step_malformed (m : url.Values) (key : string)
  (err : option error) :
  is_Some err \/ wellEscaped key = false ->
  is_Some (url.parseQuery_step m key err).2.
Proof.
  unfold url.parseQuery_step.
  destruct (strings.Contains key ";"); [by eexists|].
  intros [[e ->]|Hk].
  { destruct (String.eqb key EmptyString); [by eexists|].
    destruct (strings.Cut key "=") as [[k v] f].
    destruct (url.QueryUnescape k); [|by eexists].
    destruct (url.QueryUnescape v); by eexists. }
  destruct (String.eqb_spec key EmptyString) as [->|_]; [done|].
  destruct (wellEscaped_Cut "=" key ltac:(done) Hk) as [Hbad|Hbad].
  - destruct (strings.Cut key "=") as [[k v] f]. cbn in Hbad.
    destruct (QueryUnescape_malformed k Hbad) as [e ->].
    destruct err; by eexists.
  - destruct (strings.Cut key "=") as [[k v] f]. cbn in Hbad.
    destruct (QueryUnescape_malformed v Hbad) as [e ->].
    destruct (url.QueryUnescape k); destruct err; by eexists.
Qed.

Lemma parseQuery_malformed (m : url.Values) (query : string)
  (err : option error) :
  is_Some err \/ wellEscaped query = false ->
  is_Some (url.parseQuery m query err).2.
Proof.
  funelim (url.parseQuery m query err).
  - intros [He|Hq]; [done|].
    by rewrite (proj1 (String.eqb_eq _ _) e) in Hq.
  - intros Hcase. apply H.
    destruct Hcase as [He|Hq].
    { left. apply parseQuery_step_malformed. by left. }
    destruct (wellEscaped_Cut "&" query ltac:(done) Hq) as [Hk|Hr].
    + left. apply parseQuery_step_malformed. by right.
    + by right.
Qed.

(** X10: a percent sign in the query that is not followed by two
    hexadecimal digits makes [QueryParamPaginator.NextPage] fail, with an
    empty URL, for a URL that otherwise parses: also when the malformed
    escape belongs to another parameter than the configured one. *)
Theorem byQueryParam_malformed_escape_fails (p : byQueryParamPaginator)
  (u : string) (doc : goquery.Selection) (uri : url.URL) :
  url.Parse u = Ok uri ->
  wellEscaped (url.RawQuery uri) = false ->
  exists e, NextPage p u doc = (p, (EmptyString, Some e)).
Proof.
  intros Hu Hs.
  unfold NextPage, byQueryParam_Paginator, byQueryParam_NextPage.
  rewrite Hu. unfold url.ParseQuery.
  destruct (parseQuery_malformed ∅ (url.RawQuery uri) None (or_intror Hs))
    as [e He].
  destruct (url.parseQuery ∅ (url.RawQuery uri) None) as [vals err].
  cbn in He. subst err. by exists e.
Qed.

Lemma byQueryParam_malformed_escape_fails_witness :
  exists e,
    NextPage (ByQueryParam "page") "http://x/?page=3&q=100%" noDocument
    = (ByQueryParam "page", (EmptyString, Some e)).
Proof.
  refine (byQueryParam_malformed_escape_fails (ByQueryParam "page")
            "http://x/?page=3&q=100%" noDocument
            (url.mkURL "http" EmptyString None "x" "/" EmptyString false
               false "page=3&q=100%" EmptyString EmptyString) _ _).
  - vm_compute. reflexivity.
  - vm_compute. reflexivity.
Defined.

(** ** ByQueryParam: pagination without end *)

Lemma allBytes_app (ok : ascii -> bool) (s t : string) :
  allBytes ok (s +:+ t) = allBytes ok s && allBytes ok t.
Proof.
  induction s as [|c s IH]; [done|].
  rewrite str_app_cons. cbn. by rewrite IH, andb_assoc.
Qed.

Lemma allBytes_impl (ok ok' : ascii -> bool) (s : string) :
  (forall c, ok c = true -> ok' c = true) ->
  allBytes ok s = true -> allBytes ok' s = true.
Proof.
  intros Himpl. induction s as [|c s IH]; [done|]. cbn.
  intros [Hc Hs]%andb_prop. by rewrite (Himpl c Hc), IH.
Qed.

Lemma allBytes_hasByte (ok : ascii -> bool) (c : ascii) (s : string) :
  ok c = false -> allBytes ok s = true -> hasByte c s = false.
Proof.
  intros Hc. induction s as [|x s IH]; [done|]. cbn.
  intros [Hx Hs]%andb_prop. rewrite (IH Hs), orb_false_r.
  apply Ascii.eqb_neq. intros ->. congruence.
Qed.

Lemma allBytes_notCTL (s : string) :
  allBytes notCTL s = true -> url.stringContainsCTLByte s = false.
Proof.
  induction s as [|c s IH]; [done|]. cbn.
  intros [Hc Hs]%andb_prop. rewrite (IH Hs), orb_false_r.
  unfold notCTL in Hc. by apply negb_true_iff in Hc.
Qed.

Lemma schemeByte_notCTL (c : ascii) : schemeByte c = true -> notCTL c = true.
Proof. by destruct c as [[] [] [] [] [] [] [] []]. Qed.
Lemma hostByte_notCTL (c : ascii) : hostByte c = true -> notCTL c = true.
Proof. by destruct c as [[] [] [] [] [] [] [] []]. Qed.
Lemma pathByte_notCTL (c : ascii) : pathByte c = true -> notCTL c = true.
Proof. by destruct c as [[] [] [] [] [] [] [] []]. Qed.
Lemma queryByte_notCTL (c : ascii) : queryByte c = true -> notCTL c = true.
Proof. by destruct c as [[] [] [] [] [] [] [] []]. Qed.

(** *** The encoded query is made of query bytes *)

Lemma escape_build_queryBytes (s : string) :
  allBytes queryByte (url.escape_build s QC) = true.
Proof.
  induction s as [|c s IH]; [done|]. rewrite escape_build_cons.
  destruct (Ascii.eqb c " "); [by cbn; rewrite IH|].
  destruct (url.shouldEscape c QC) eqn:Hc.
  - cbn [allBytes]. rewrite IH, andb_true_r.
    clear. by destruct c as [[] [] [] [] [] [] [] []].
  - cbn [allBytes]. rewrite IH, andb_true_r.
    clear IH. revert Hc. by destruct c as [[] [] [] [] [] [] [] []].
Qed.

Lemma queryPiece_queryBytes (p : string * string) :
  allBytes queryByte (queryPiece p) = true.
Proof.
  unfold queryPiece, url.QueryEscape.
  by rewrite !escape_eq, !allBytes_app, !escape_build_queryBytes.
Qed.

Lemma tailJoin_queryBytes (pieces : list string) :
  Forall (fun p => allBytes queryByte p = true) pieces ->
  allBytes queryByte (tailJoin pieces) = true.
Proof.
  induction 1 as [|p ps Hp _ IH]; [done|].
  cbn [tailJoin foldr]. fold (tailJoin ps).
  by rewrite !allBytes_app, Hp, IH.
Qed.

Lemma Encode_queryBytes (v : url.Values) :
  allBytes queryByte (url.Encode v) = true.
Proof.
  rewrite Encode_queryPairs.
  destruct (queryPairs v) as [|q qs]; [done|].
  rewrite fmap_cons, concat_tailJoin, allBytes_app, queryPiece_queryBytes.
  apply tailJoin_queryBytes, Forall_fmap, Forall_true.
  intros p. apply queryPiece_queryBytes.
Qed.

(** *** Plain text needs no escaping and unescapes to itself *)

Lemma space_escaped (c : ascii) (mode : url.encoding) :
  url.shouldEscape c mode = false -> Ascii.eqb c " " = false.
Proof.
  destruct (Ascii.eqb_spec c " ") as [->|]; [|done]. by destruct mode.
Qed.

Lemma escape_plain (s : string) (mode : url.encoding) :
  allBytes (fun c => negb (url.shouldEscape c mode)) s = true ->
  url.escape s mode = s.
Proof.
  rewrite escape_eq. induction s as [|c s IH]; [done|]. cbn.
  intros [Hc Hs]%andb_prop. apply negb_true_iff in Hc.
  by rewrite (space_escaped c mode Hc), Hc, (IH Hs).
Qed.

Lemma hostByte_unescaped (c : ascii) :
  hostByte c = true -> negb (url.shouldEscape c url.encodeHost) = true.
Proof. by destruct c as [[] [] [] [] [] [] [] []]. Qed.

Lemma pathByte_unescaped (c : ascii) :
  pathByte c = true -> negb (url.shouldEscape c url.encodePath) = true.
Proof. by destruct c as [[] [] [] [] [] [] [] []]. Qed.

Lemma unescape_check_hostByte (c : ascii) (r : string) (n : Z) (hp : bool) :
  hostByte c = true ->
  url.unescape_check (String c r) url.encodeHost n hp
  = url.unescape_check r url.encodeHost n hp.
Proof. by destruct c as [[] [] [] [] [] [] [] []]. Qed.

Lemma unescape_check_pathByte (c : ascii) (r : string) (n : Z) (hp : bool) :
  pathByte c = true ->
  url.unescape_check (String c r) url.encodePath n hp
  = url.unescape_check r url.encodePath n hp.
Proof. by destruct c as [[] [] [] [] [] [] [] []]. Qed.

Lemma unescape_host_plain (s : string) :
  allBytes hostByte s = true -> url.unescape s url.encodeHost = Ok s.
Proof.
  intros Hs. unfold url.unescape.
  assert (forall n hp, url.unescape_check s url.encodeHost n hp = Ok (n, hp))
    as ->; [|done].
  induction s as [|c s IH]; [done|]. cbn in Hs.
  apply andb_prop in Hs as [Hc Hs]. intros n hp.
  by rewrite unescape_check_hostByte, IH.
Qed.

Lemma unescape_path_plain (s : string) :
  allBytes pathByte s = true -> url.unescape s url.encodePath = Ok s.
Proof.
  intros Hs. unfold url.unescape.
  assert (forall n hp, url.unescape_check s url.encodePath n hp = Ok (n, hp))
    as ->; [|done].
  induction s as [|c s IH]; [done|]. cbn in Hs.
  apply andb_prop in Hs as [Hc Hs]. intros n hp.
  by rewrite unescape_check_pathByte, IH.
Qed.

(** *** The scheme *)

Lemma plainScheme_bytes (s : string) :
  plainScheme s = true -> allBytes schemeByte s = true.
Proof.
  destruct s as [|c s]; [done|]. cbn.
  intros [Hc Hs]%andb_prop. rewrite Hs, andb_true_r.
  unfold schemeByte. by rewrite Hc.
Qed.

Lemma lowerByte_schemeByte (c : ascii) :
  schemeByte c = true -> strings.lowerByte c = c.
Proof. by destruct c as [[] [] [] [] [] [] [] []]. Qed.

Lemma ToLower_plain (s : string) :
  allBytes schemeByte s = true -> strings.ToLower s = s.
Proof.
  induction s as [|c s IH]; [done|]. cbn.
  intros [Hc Hs]%andb_prop. by rewrite (lowerByte_schemeByte c Hc), (IH Hs).
Qed.

Lemma from_app_byte (a b : string) (x : ascii) :
  strings.from (S (String.length a)) (a +:+ String x b) = b.
Proof. induction a as [|y a IH]; [done|]. by rewrite str_app_cons. Qed.

Lemma getScheme_loop_tail (raw s rest : string) (i : nat) :
  allBytes schemeByte s = true -> (0 < i)%nat ->
  url.getScheme_loop raw i (s +:+ String ":" rest)
  = Ok (strings.upto (i + String.length s) raw,
        strings.from (S (i + String.length s)) raw).
Proof.
  revert i; induction s as [|c s IH]; intros i Hs Hi.
  - rewrite str_app_nil_l. cbn [url.getScheme_loop String.length].
    rewrite Nat.add_0_r. cbn.
    destruct (Nat.eqb_spec i 0); [lia|done].
  - cbn in Hs. apply andb_prop in Hs as [Hc Hs].
    rewrite str_app_cons. cbn [url.getScheme_loop String.length].
    rewrite Nat.add_succ_r.
    change (S (i + String.length s)) with (S i + String.length s)%nat.
    unfold schemeByte in Hc.
    destruct (byte.within "a" "z" c); cbn [orb]; [apply IH; [done|lia]|].
    destruct (byte.within "A" "Z" c); [apply IH; [done|lia]|].
    cbn [orb] in Hc. rewrite Hc.
    destruct (Nat.eqb_spec i 0); [lia|]. apply IH; [done|lia].
Qed.

Lemma getScheme_plain (s rest : string) :
  plainScheme s = true ->
  url.getScheme (s +:+ String ":" rest) = Ok (s, rest).
Proof.
  destruct s as [|c s]; [done|]. cbn [plainScheme].
  intros [Hc Hs]%andb_prop. unfold url.getScheme.
  set (raw := String c s +:+ String ":" rest).
  unfold raw at 2. rewrite str_app_cons. cbn [url.getScheme_loop].
  rewrite Hc. cbn [orb]. rewrite getScheme_loop_tail by (done || lia).
  change (1 + String.length s)%nat with (String.length (String c s)).
  unfold raw. by rewrite upto_app, from_app_byte.
Qed.

(** *** Bytes that are not there *)

Lemma LastIndex_no_byte (a : string) (c : ascii) :
  hasByte c a = false -> strings.LastIndex a (String c EmptyString) = -1.
Proof.
  induction a as [|x a IH]; intros Ha; [done|].
  cbn in Ha. apply orb_false_elim in Ha as [Hx Ha].
  cbn [strings.LastIndex]. by rewrite (IH Ha), HasPrefix_byte, Hx.
Qed.

Lemma from_add_app (a q : string) (j : nat) :
  strings.from (String.length a + j) (a +:+ q) = strings.from j q.
Proof. induction a as [|x a IH]; [done|]. by rewrite str_app_cons. Qed.

Lemma HasSuffix_no_byte (a q : string) (c : ascii) :
  q ≠ EmptyString -> hasByte c q = false ->
  strings.HasSuffix (a +:+ q) (String c EmptyString) = false.
Proof.
  intros Hq Hc. unfold strings.HasSuffix.
  apply andb_false_iff. right. apply String.eqb_neq. intros Heq.
  assert (String.length (a +:+ q) - String.length (String c EmptyString)
          = String.length a + (String.length q - 1))%nat as Hlen.
  { rewrite str_length_app. destruct q; [done|]. cbn. lia. }
  rewrite Hlen, from_add_app in Heq.
  pose proof (hasByte_from c (String.length q - 1) q) as Hin.
  rewrite Heq in Hin. cbn in Hin. rewrite Ascii.eqb_refl in Hin.
  rewrite Hin in Hc; done.
Qed.

(** *** Parsing and printing a plain URL *)

Lemma nonempty_true (s : string) : s ≠ EmptyString -> url.nonempty s = true.
Proof. intros Hs. unfold url.nonempty. by apply negb_true_iff, String.eqb_neq. Qed.

Lemma plainScheme_nonempty (s : string) :
  plainScheme s = true -> s ≠ EmptyString.
Proof. by destruct s. Qed.

Lemma plainPath_cons (path : string) :
  plainPath path = true ->
  exists rest, path = String "/" rest /\ allBytes pathByte path = true.
Proof.
  unfold plainPath. intros [Hp Hb]%andb_prop.
  destruct path as [|c rest]; [done|]. rewrite HasPrefix_byte in Hp.
  apply Ascii.eqb_eq in Hp as ->. by exists rest.
Qed.

Lemma URL_String_plain (scheme host path query : string) :
  plainScheme scheme = true -> plainHost host = true ->
  plainPath path = true ->
  url.URL_String (plainRecord scheme host path query)
  = plainURL scheme host path query.
Proof.
  intros Hs [Hh Hhb]%andb_prop Hp.
  destruct (plainPath_cons path Hp) as (rest & -> & Hpb).
  unfold url.URL_String, url.EscapedPath, plainRecord, plainURL, queryText.
  cbn [url.Scheme url.Opaque url.User_ url.Host url.Path url.RawPath
       url.OmitHost url.ForceQuery url.RawQuery url.Fragment url.RawFragment].
  rewrite (nonempty_true scheme (plainScheme_nonempty _ Hs)), Hh.
  rewrite (escape_plain host url.encodeHost)
    by (eapply allBytes_impl; [apply hostByte_unescaped|done]).
  rewrite (escape_plain (String "/" rest) url.encodePath)
    by (eapply allBytes_impl; [apply pathByte_unescaped|done]).
  cbn. rewrite !str_app_nil_l.
  destruct scheme as [|c scheme]; [done|].
  cbn. assert (strings.HasPrefix rest EmptyString = true) as ->
    by (by destruct rest).
  cbn [negb andb orb]. rewrite !str_app_cons. cbn [String.eqb andb].
  destruct (url.nonempty query);
    by repeat (rewrite ?str_app_cons, ?str_app_nil_l, ?str_app_nil_r,
                 ?str_app_assoc).
Qed.

Ltac str_norm := repeat (rewrite ?str_app_cons, ?str_app_nil_l, ?str_app_assoc).

Lemma queryText_bytes (ok : ascii -> bool) (query : string) :
  ok "?"%char = true -> allBytes ok query = true ->
  allBytes ok (queryText false query) = true.
Proof.
  intros H1 H2. unfold queryText.
  destruct (url.nonempty query); [|done].
  rewrite str_app_cons, str_app_nil_l. cbn. by rewrite H1, H2.
Qed.

Lemma queryText_hasByte (c : ascii) (query : string) :
  c ≠ "?"%char -> hasByte c query = false ->
  hasByte c (queryText false query) = false.
Proof.
  intros H1 H2. unfold queryText.
  destruct (url.nonempty query); [|done].
  rewrite str_app_cons, str_app_nil_l. cbn [orb hasByte].
  rewrite H2, orb_false_r. apply Ascii.eqb_neq. congruence.
Qed.

Lemma plainURL_shape (scheme host path query : string) :
  plainURL scheme host path query
  = scheme +:+ String ":" ((String "/" (String "/" (host +:+ path)))
                           +:+ queryText false query).
Proof. unfold plainURL. by str_norm. Qed.

Lemma plainURL_bytes (scheme host path query : string) (c : ascii) :
  schemeByte c = false -> hostByte c = false -> pathByte c = false ->
  queryByte c = false -> c ≠ ":"%char -> c ≠ "?"%char ->
  plainScheme scheme = true -> plainHost host = true ->
  plainPath path = true -> allBytes queryByte query = true ->
  hasByte c (plainURL scheme host path query) = false.
Proof.
  intros H1 H2 H3 H4 H5 H6 Hs [_ Hh]%andb_prop [_ Hp]%andb_prop Hq.
  rewrite plainURL_shape, hasByte_app. cbn [hasByte].
  rewrite hasByte_app. cbn [hasByte]. rewrite hasByte_app.
  rewrite (allBytes_hasByte schemeByte c scheme H1 (plainScheme_bytes _ Hs)).
  rewrite (allBytes_hasByte hostByte c host H2 Hh).
  rewrite (allBytes_hasByte pathByte c path H3 Hp).
  rewrite (queryText_hasByte c query H6
             (allBytes_hasByte queryByte c query H4 Hq)).
  assert (forall x : ascii, c ≠ x -> Ascii.eqb x c = false) as Hne
    by (intros x Hx; apply Ascii.eqb_neq; congruence).
  rewrite (Hne ":"%char H5), (Hne "/"%char); [done|].
  intros ->. done.
Qed.

Lemma plainURL_notCTL (scheme host path query : string) :
  plainScheme scheme = true -> plainHost host = true ->
  plainPath path = true -> allBytes queryByte query = true ->
  url.stringContainsCTLByte (plainURL scheme host path query) = false.
Proof.
  intros Hs [_ Hh]%andb_prop [_ Hp]%andb_prop Hq.
  apply allBytes_notCTL. rewrite plainURL_shape, allBytes_app.
  cbn [allBytes]. rewrite allBytes_app. cbn [allBytes]. rewrite allBytes_app.
  rewrite (allBytes_impl _ _ scheme schemeByte_notCTL (plainScheme_bytes _ Hs)).
  rewrite (allBytes_impl _ _ host hostByte_notCTL Hh).
  rewrite (allBytes_impl _ _ path pathByte_notCTL Hp).
  by rewrite (queryText_bytes notCTL query eq_refl
                (allBytes_impl _ _ query queryByte_notCTL Hq)).
Qed.

Lemma parseAuthority_plain (host : string) :
  plainHost host = true -> url.parseAuthority host = Ok (None, host).
Proof.
  intros [Hne Hb]%andb_prop. unfold url.parseAuthority, url.parseHost.
  rewrite (LastIndex_no_byte host "@")
    by (by apply (allBytes_hasByte hostByte)).
  rewrite (LastIndex_no_byte host ":")
    by (by apply (allBytes_hasByte hostByte)).
  rewrite (unescape_host_plain host Hb).
  destruct host as [|c host]; [done|].
  rewrite HasPrefix_byte.
  assert (Ascii.eqb c "[" = false) as ->; [|done].
  cbn in Hb. apply andb_prop in Hb as [Hc _].
  apply Ascii.eqb_neq. intros ->. done.
Qed.

Lemma setPath_plain (u : url.URL) (path : string) :
  allBytes pathByte path = true ->
  url.setPath u path
  = (url.set_RawPath (url.set_Path u path) EmptyString, None).
Proof.
  intros Hp. unfold url.setPath.
  rewrite (unescape_path_plain path Hp).
  rewrite (escape_plain path url.encodePath)
    by (eapply allBytes_impl; [apply pathByte_unescaped|done]).
  by rewrite String.eqb_refl.
Qed.

Lemma HasSuffix_front (front query : string) :
  hasByte "?" front = false -> hasByte "?" query = false ->
  strings.HasSuffix (front +:+ queryText false query) "?" = false.
Proof.
  intros Hfq Hq. unfold queryText, url.nonempty. cbn [orb].
  destruct (String.eqb_spec query EmptyString) as [->|Hne]; cbn [negb].
  - rewrite str_app_nil_r. destruct front as [|c front]; [done|].
    by apply (HasSuffix_no_byte EmptyString (String c front) "?").
  - replace (front +:+ "?" +:+ query) with ((front +:+ "?") +:+ query)
      by (by rewrite str_app_assoc).
    by apply HasSuffix_no_byte.
Qed.

Lemma Cut_front (front query : string) :
  hasByte "?" front = false ->
  (strings.Cut (front +:+ queryText false query) "?").1
  = (front, query).
Proof.
  intros Hf. unfold queryText, url.nonempty. cbn [orb].
  destruct (String.eqb_spec query EmptyString) as [->|Hne]; cbn [negb].
  - by rewrite str_app_nil_r, (Cut_no_byte front "?" Hf).
  - change ("?" +:+ query) with (String "?" query).
    by rewrite (Cut_app_byte front query "?" Hf).
Qed.

Lemma parse_plain (scheme host path query : string) :
  plainScheme scheme = true -> plainHost host = true ->
  plainPath path = true -> allBytes queryByte query = true ->
  url.parse (plainURL scheme host path query) false
  = Ok (plainRecord scheme host path query).
Proof.
  intros Hs Hh Hp Hq. unfold url.parse.
  rewrite (plainURL_notCTL scheme host path query Hs Hh Hp Hq).
  rewrite andb_false_r, plainURL_shape.
  rewrite (getScheme_plain scheme _ Hs).
  assert ((scheme +:+ String ":" (String "/" (String "/" (host +:+ path))
                                  +:+ queryText false query) =? "*")%string
          = false) as ->.
  { destruct scheme as [|c scheme]; [done|]. rewrite str_app_cons.
    cbn [String.eqb]. cbn in Hs. apply andb_prop in Hs as [Hc _].
    destruct (Ascii.eqb_spec c "*") as [->|]; done. }
  cbn [mbind url.res_bind].
  rewrite (ToLower_plain scheme (plainScheme_bytes _ Hs)).
  pose proof Hh as [_ Hhb]%andb_prop.
  destruct (plainPath_cons path Hp) as (tail & Hpath & Hpb).
  assert (hasByte "?" (String "/" (String "/" (host +:+ path))) = false)
    as Hfront.
  { cbn [hasByte]. rewrite hasByte_app.
    rewrite (allBytes_hasByte hostByte "?" host) by done.
    by rewrite (allBytes_hasByte pathByte "?" path). }
  set (front := String "/" (String "/" (host +:+ path))) in *.
  rewrite (HasSuffix_front front query)
    by (done || by apply (allBytes_hasByte queryByte)).
  cbn [andb].
  destruct (strings.Cut (front +:+ queryText false query) "?")
    as [[rest' query'] found] eqn:Hcut.
  pose proof (Cut_front front query Hfront) as Hcut'.
  rewrite Hcut in Hcut'. cbn in Hcut'. injection Hcut' as -> ->.
  cbn [andb url.Scheme url.set_RawQuery url.set_Scheme url.zeroURL].
  assert (strings.HasPrefix front "/" = true) as -> by done.
  assert (strings.HasPrefix front "//" = true) as ->.
  { subst front. cbn. by destruct (host +:+ path). }
  rewrite (nonempty_true scheme (plainScheme_nonempty _ Hs)).
  cbn [negb andb orb].
  change (strings.from 2 front) with (host +:+ path).
  assert (strings.Index (host +:+ path) "/" = Z.of_nat (String.length host))
    as ->.
  { rewrite Hpath. apply Index_app_byte.
    by apply (allBytes_hasByte hostByte). }
  destruct (Z.leb_spec 0 (Z.of_nat (String.length host))); [|lia].
  rewrite Nat2Z.id, upto_app, from_app.
  rewrite (parseAuthority_plain host Hh). cbn [mbind url.res_bind].
  by rewrite (setPath_plain _ path Hpb).
Qed.

Lemma Parse_plain (scheme host path query : string) :
  plainScheme scheme = true -> plainHost host = true ->
  plainPath path = true -> allBytes queryByte query = true ->
  url.Parse (plainURL scheme host path query)
  = Ok (plainRecord scheme host path query).
Proof.
  intros Hs Hh Hp Hq. unfold url.Parse.
  rewrite (Cut_no_byte (plainURL scheme host path query) "#")
    by (by apply plainURL_bytes).
  by rewrite (parse_plain scheme host path query Hs Hh Hp Hq).
Qed.

Lemma byQueryParam_plain_step (p : byQueryParamPaginator)
  (doc : goquery.Selection) (scheme host path : string) (v : url.Values)
  (first : string) (more : list string) :
  plainScheme scheme = true -> plainHost host = true ->
  plainPath path = true -> noEmptyValues v ->
  v !! param p = Some (first :: more) ->
  isDecimal first = true -> decimalValue first < 2 ^ 64 ->
  NextPage p (plainURL scheme host path (url.Encode v)) doc
  = (p, (plainURL scheme host path
           (url.Encode
              (<[param p :=
                   strconv.FormatUint ((decimalValue first + 1) mod 2 ^ 64)
                   :: more]> v)),
         None)).
Proof.
  intros Hs Hh Hp Hv Hl Hd Hn.
  rewrite (byQueryParam_unfold p _ doc
             (plainRecord scheme host path (url.Encode v)) v).
  - rewrite Hl, (ParseUint_decimal first Hd).
    apply Z.ltb_lt in Hn. rewrite Hn. unfold strconv.u64.
    f_equal. f_equal. by apply URL_String_plain.
  - apply Parse_plain; [done..|apply Encode_queryBytes].
  - by apply ParseQuery_Encode.
Qed.

Lemma plainURL_nonempty (scheme host path query : string) :
  plainScheme scheme = true ->
  String.eqb (plainURL scheme host path query) EmptyString = false.
Proof. by destruct scheme. Qed.

(** X11: on a plain URL [scheme://host/path?query] whose query is in the
    encoded form and gives the parameter a decimal first value [n] below
    [2^64], ByQueryParam never stops: followed [k + 1] times, for any [k],
    it arrives without error at the same URL with the first value
    [(n + k + 1) mod 2^64] and everything else as it was. *)
Theorem byQueryParam_paginates_without_end (p : byQueryParamPaginator)
  (fetch : string -> goquery.Selection) (scheme host path : string)
  (v : url.Values) (first : string) (more : list string) (k : nat) :
  plainScheme scheme = true -> plainHost host = true ->
  plainPath path = true -> noEmptyValues v ->
  v !! param p = Some (first :: more) ->
  isDecimal first = true -> decimalValue first < 2 ^ 64 ->
  follow p fetch (S k) (plainURL scheme host path (url.Encode v))
  = Some (plainURL scheme host path
            (url.Encode
               (<[param p :=
                    strconv.FormatUint
                      ((decimalValue first + Z.of_nat (S k)) mod 2 ^ 64)
                    :: more]> v))).
Proof.
  intros Hs Hh Hp. revert v first.
  induction k as [|k IH]; intros v first Hv Hl Hd Hn.
  - cbn [follow]. rewrite (byQueryParam_plain_step p _ scheme host path v
                             first more) by done.
    by rewrite plainURL_nonempty.
  - remember (S k) as k1. cbn [follow]. subst k1.
    rewrite (byQueryParam_plain_step p _ scheme host path v first more)
      by done.
    rewrite plainURL_nonempty by done.
    set (n1 := (decimalValue first + 1) mod 2 ^ 64).
    assert (0 <= n1 < 2 ^ 64) as Hn1 by (apply Z.mod_pos_bound; lia).
    destruct (FormatUint_decimal n1 Hn1) as [Hd1 Hv1].
    rewrite (IH (<[param p := strconv.FormatUint n1 :: more]> v)
               (strconv.FormatUint n1)).
    + rewrite insert_insert_eq, Hv1. subst n1.
      rewrite Zplus_mod_idemp_l.
      by replace (decimalValue first + 1 + Z.of_nat (S k))
        with (decimalValue first + Z.of_nat (S (S k))) by lia.
    + by apply noEmptyValues_insert.
    + apply lookup_insert_eq.
    + done.
    + rewrite Hv1. lia.
Qed.

Lemma byQueryParam_paginates_without_end_witness :
  follow (ByQueryParam "page") (fun _ => noDocument) 3
         "https://example.org/list?page=18446744073709551614&sort=asc"
  = Some "https://example.org/list?page=1&sort=asc".
Proof.
  refine (eq_trans
            (byQueryParam_paginates_without_end (ByQueryParam "page")
               (fun _ => noDocument) "https" "example.org" "/list"
               (url.ParseQuery "page=18446744073709551614&sort=asc").1
               "18446744073709551614" [] 2 _ _ _ _ _ _ _) _).
  - reflexivity.
  - reflexivity.
  - reflexivity.
  - eapply ParseQuery_noEmptyValues. apply surjective_pairing.
  - vm_compute. reflexivity.
  - reflexivity.
  - vm_compute. reflexivity.
  - vm_compute. reflexivity.
Defined.

(** ** LimitPages: the budget when the answers are followed *)

Lemma follow_limitPages_within {U : Type} `{Paginator U}
  (fetch : string -> goquery.Selection) (k : nat) :
  forall (p : limitPagesPaginator U) (u : string),
    isInt (current p) -> isInt (limit p) ->
    current p + Z.of_nat k <= limit p ->
    follow p fetch k u = follow (underlying p) fetch k u.
Proof.
  induction k as [|k IH]; intros p u Hc Hl Hk; [done|].
  cbn [follow]. rewrite limitPages_go by lia.
  assert (isInt (current p + 1)) as Hc1
    by (unfold isInt, minInt, maxInt in *; lia).
  rewrite (int_id _ Hc1).
  destruct (NextPage (underlying p) u (fetch u)) as [u' [next [e|]]] eqn:Hn;
    cbn [fst snd]; [done|].
  destruct (String.eqb next EmptyString); [done|].
  rewrite IH; cbn [limit current underlying]; [done..|lia].
Qed.

Lemma follow_limitPages_beyond {U : Type} `{Paginator U}
  (fetch : string -> goquery.Selection) (k : nat) :
  forall (p : limitPagesPaginator U) (u : string),
    isInt (current p) -> isInt (limit p) ->
    limit p < current p + Z.of_nat k -> (0 < k)%nat ->
    follow p fetch k u = None.
Proof.
  induction k as [|k IH]; intros p u Hc Hl Hk Hpos; [lia|].
  cbn [follow].
  destruct (Z.le_gt_cases (limit p) (current p)) as [Hstop|Hgo].
  { by rewrite limitPages_stop. }
  rewrite limitPages_go by lia.
  assert (isInt (current p + 1)) as Hc1
    by (unfold isInt, minInt, maxInt in *; lia).
  rewrite (int_id _ Hc1).
  destruct (NextPage (underlying p) u (fetch u)) as [u' [next [e|]]] eqn:Hn;
    cbn [fst snd]; [done|].
  destruct (String.eqb next EmptyString); [done|].
  apply IH; cbn [limit current underlying]; [done|done|lia|lia].
Qed.

(** X12: when the answers are followed, a LimitPages paginator with a
    limit that is not negative goes where the wrapped paginator goes for
    as many steps as the limit allows, and never gets further: a walk of
    more steps than the limit stops before its end, whatever the wrapped
    paginator would have answered.  So [limit] is the number of pages
    fetched after the first one. *)
Theorem LimitPages_follow {U : Type} `{Paginator U} (limit : Z) (u : U)
  (fetch : string -> goquery.Selection) (k : nat) (start : string) :
  0 <= limit -> isInt limit ->
  follow (LimitPages limit u) fetch k start
  = if Z.of_nat k <=? limit then follow u fetch k start else None.
Proof.
  intros Hpos Hl. destruct (Z.leb_spec (Z.of_nat k) limit) as [Hk|Hk].
  - apply (follow_limitPages_within fetch k (LimitPages limit u));
      cbn [paginate.limit current LimitPages]; [|done|lia].
    unfold isInt, minInt, maxInt. lia.
  - apply (follow_limitPages_beyond fetch k (LimitPages limit u));
      cbn [paginate.limit current LimitPages]; [|done|lia|lia].
    unfold isInt, minInt, maxInt. lia.
Qed.

Lemma LimitPages_follow_witness :
  follow (LimitPages 2 (ByQueryParam "page")) (fun _ => noDocument) 2
         "http://x/?page=7"
  = Some "http://x/?page=9"
  /\ follow (LimitPages 2 (ByQueryParam "page")) (fun _ => noDocument) 3
            "http://x/?page=7"
     = None.
Proof.
  split.
  - refine (eq_trans
              (LimitPages_follow 2 (ByQueryParam "page")
                 (fun _ => noDocument) 2 "http://x/?page=7" _ _) _).
    + lia.
    + unfold isInt, minInt, maxInt. lia.
    + vm_compute. reflexivity.
  - refine (eq_trans
              (LimitPages_follow 2 (ByQueryParam "page")
                 (fun _ => noDocument) 3 "http://x/?page=7" _ _) _).
    + lia.
    + unfold isInt, minInt, maxInt. lia.
    + vm_compute. reflexivity.
Defined.

(** ** BySelector: links on plain URLs *)

Lemma segments_Cut (s : string) :
  segments s
  = (strings.Cut s "/").1.1
    :: (if (strings.Cut s "/").2 then segments (strings.Cut s "/").1.2
        else []).
Proof.
  induction s as [|c s IH]; [done|]. cbn [segments].
  destruct (Ascii.eqb_spec c "/") as [->|Hc].
  - by rewrite Cut_cons_sep.
  - rewrite Cut_cons_other by done. cbn [fst snd]. by rewrite IH.
Qed.

Lemma resolvePath_loop_next (remaining dst : string) (first : bool) :
  url.resolvePath_loop remaining dst first
  = let elem := (strings.Cut remaining "/").1.1 in
    let step := url.resolvePath_step elem dst first in
    if (strings.Cut remaining "/").2
    then url.resolvePath_loop (strings.Cut remaining "/").1.2 step.1 step.2
    else (elem, step.1).
Proof.
  funelim (url.resolvePath_loop remaining dst first).
  - rewrite Hcut. reflexivity.
  - rewrite Hcut. reflexivity.
Qed.

Lemma Cut_found (s : string) (sep : ascii) :
  (strings.Cut s (String sep EmptyString)).2 = true ->
  s = (strings.Cut s (String sep EmptyString)).1.1
      +:+ String sep (strings.Cut s (String sep EmptyString)).1.2.
Proof.
  induction s as [|c s IH].
  - by rewrite (Cut_no_byte EmptyString sep).
  - destruct (Ascii.eqb_spec c sep) as [->|Hc].
    + by rewrite Cut_cons_sep.
    + rewrite Cut_cons_other by done. cbn [fst snd]. intros Hf.
      by rewrite str_app_cons, <- (IH Hf).
Qed.

Lemma Cut_not_found (s : string) (sep : ascii) :
  (strings.Cut s (String sep EmptyString)).2 = false ->
  (strings.Cut s (String sep EmptyString)).1.1 = s.
Proof.
  unfold strings.Cut.
  by destruct (0 <=? strings.Index s (String sep EmptyString)).
Qed.

(** After the first element the loop of [resolvePath] copies a path without
    dot segments, a slash before every element. *)
Lemma resolvePath_loop_dotFree (remaining : string) :
  forall dst : string,
    dotFree remaining = true ->
    exists elem,
      url.resolvePath_loop remaining dst false
      = (elem, dst +:+ "/" +:+ remaining)
      /\ isDot elem = false.
Proof.
  induction remaining as [remaining IH] using string_length_ind.
  intros dst Hfree. unfold dotFree in Hfree.
  rewrite segments_Cut in Hfree. cbn [forallb] in Hfree.
  apply andb_prop in Hfree as [Helem Hrest]. apply negb_true_iff in Helem.
  rewrite resolvePath_loop_next. cbn zeta.
  unfold url.resolvePath_step at 1 2 3. unfold isDot in Helem.
  apply orb_false_elim in Helem as [H1 H2]. rewrite H1, H2. cbn [fst snd].
  destruct (strings.Cut remaining "/").2 eqn:Hfound.
  - pose proof (Cut_found remaining "/" Hfound) as Hshape.
    destruct (IH (strings.Cut remaining "/").1.2) with
      (dst := (dst +:+ "/") +:+ (strings.Cut remaining "/").1.1)
      as (elem & Hloop & Hdot).
    { rewrite Hshape at 2. rewrite str_length_app. cbn. lia. }
    { done. }
    exists elem. split; [|done]. rewrite Hloop. f_equal.
    rewrite Hshape at 3. by str_norm.
  - exists (strings.Cut remaining "/").1.1. rewrite (Cut_not_found _ _ Hfound).
    split; [by str_norm|]. unfold isDot.
    rewrite (Cut_not_found _ _ Hfound) in H1, H2. by rewrite H1, H2.
Qed.

Lemma resolvePath_dotFree (base ref : string) :
  plainPath (mergedPath base ref) = true ->
  dotFree (mergedPath base ref) = true ->
  url.resolvePath base ref = mergedPath base ref.
Proof.
  unfold url.resolvePath. fold (mergedPath base ref).
  generalize (mergedPath base ref) as path. intros path Hp Hfree.
  destruct (plainPath_cons path Hp) as (tail & -> & _).
  cbn [String.eqb].
  rewrite resolvePath_loop_next, Cut_cons_sep. cbn zeta. cbn [fst snd].
  unfold dotFree in Hfree. cbn [segments] in Hfree. cbn in Hfree.
  destruct (resolvePath_loop_dotFree tail ("/" +:+ EmptyString) Hfree)
    as (elem & Hloop & Hdot).
  change (url.resolvePath_step EmptyString "/" true)
    with ("/" +:+ EmptyString, false).
  cbn [fst snd]. rewrite Hloop. unfold isDot in Hdot. rewrite Hdot.
  str_norm.
  assert ((1 <? strings.len (String "/" (String "/" tail))) = true) as ->.
  { unfold strings.len. cbn [String.length]. apply Z.ltb_lt. lia. }
  cbn [strings.from]. by rewrite HasPrefix_byte.
Qed.

(** *** Parsing a reference without scheme and authority *)

Lemma getScheme_loop_no_colon (raw s : string) (i : nat) :
  hasByte ":" s = false -> url.getScheme_loop raw i s = Ok (EmptyString, raw).
Proof.
  revert i; induction s as [|c s IH]; intros i Hs; [done|].
  cbn [hasByte] in Hs. apply orb_false_elim in Hs as [Hc Hs].
  cbn [url.getScheme_loop]. rewrite Hc, !IH by done.
  by repeat case_match.
Qed.

Lemma reference_bytes (path query : string) (c : ascii) :
  pathByte c = false -> queryByte c = false -> c ≠ "?"%char ->
  allBytes pathByte path = true -> allBytes queryByte query = true ->
  hasByte c (path +:+ queryText false query) = false.
Proof.
  intros H1 H2 H3 Hp Hq. rewrite hasByte_app.
  rewrite (allBytes_hasByte pathByte c path H1 Hp).
  by rewrite (queryText_hasByte c query H3
                (allBytes_hasByte queryByte c query H2 Hq)).
Qed.

Lemma HasPrefix_hasByte (s : string) (c : ascii) (t : string) :
  hasByte c s = false -> strings.HasPrefix s (String c t) = false.
Proof.
  destruct s as [|x s]; [done|]. cbn.
  intros [Hx _]%orb_false_elim. by rewrite Hx.
Qed.

Lemma parse_reference (path query : string) :
  allBytes pathByte path = true -> strings.HasPrefix path "//" = false ->
  allBytes queryByte query = true ->
  url.parse (path +:+ queryText false query) false
  = Ok (plainReference path query).
Proof.
  intros Hp Hslash Hq. unfold url.parse.
  assert (url.stringContainsCTLByte (path +:+ queryText false query) = false)
    as ->.
  { apply allBytes_notCTL. rewrite allBytes_app.
    rewrite (allBytes_impl _ _ path pathByte_notCTL Hp).
    by rewrite (queryText_bytes notCTL query eq_refl
                  (allBytes_impl _ _ query queryByte_notCTL Hq)). }
  rewrite andb_false_r.
  assert ((path +:+ queryText false query =? "*")%string = false) as ->.
  { apply String.eqb_neq. intros Heq.
    pose proof (reference_bytes path query "*" eq_refl eq_refl
                  ltac:(done) Hp Hq) as Hstar.
    by rewrite Heq in Hstar. }
  unfold url.getScheme.
  rewrite getScheme_loop_no_colon by (by apply reference_bytes).
  cbn [mbind url.res_bind strings.ToLower].
  assert (hasByte "?" path = false) as Hfront
    by (by apply (allBytes_hasByte pathByte)).
  rewrite (HasSuffix_front path query)
    by (done || by apply (allBytes_hasByte queryByte)).
  cbn [andb].
  destruct (strings.Cut (path +:+ queryText false query) "?")
    as [[rest' query'] found] eqn:Hcut.
  pose proof (Cut_front path query Hfront) as Hcut'.
  rewrite Hcut in Hcut'. cbn in Hcut'. injection Hcut' as -> ->.
  cbn [andb url.Scheme url.set_RawQuery url.set_Scheme url.zeroURL].
  change (url.nonempty EmptyString) with false.
  rewrite !andb_false_r, Hslash, andb_false_r. cbn [orb andb].
  assert (strings.Contains (strings.Cut path "/").1.1 ":" = false) as ->.
  { rewrite Contains_has_byte.
    pose proof (hasByte_Cut ":" "/" path ltac:(done)) as Hc.
    rewrite (allBytes_hasByte pathByte ":" path eq_refl Hp) in Hc.
    symmetry in Hc. by apply orb_false_elim in Hc as [-> _]. }
  rewrite andb_false_r. cbn [mbind url.res_bind].
  by rewrite (setPath_plain _ path Hp).
Qed.

Lemma Parse_reference (path query : string) :
  allBytes pathByte path = true -> strings.HasPrefix path "//" = false ->
  allBytes queryByte query = true ->
  url.Parse (path +:+ queryText false query)
  = Ok (plainReference path query).
Proof.
  intros Hp Hslash Hq. unfold url.Parse.
  rewrite (Cut_no_byte (path +:+ queryText false query) "#")
    by (by apply reference_bytes).
  by rewrite (parse_reference path query Hp Hslash Hq).
Qed.

(** *** Resolving against a plain URL *)

Lemma EscapedPath_plain (u : url.URL) :
  url.RawPath u = EmptyString -> allBytes pathByte (url.Path u) = true ->
  url.EscapedPath u = url.Path u.
Proof.
  intros Hraw Hp. unfold url.EscapedPath. rewrite Hraw. cbn [url.nonempty].
  change (url.nonempty EmptyString) with false. cbn [andb].
  destruct (String.eqb_spec (url.Path u) "*") as [Hstar|_].
  { rewrite Hstar in Hp. done. }
  apply escape_plain. eapply allBytes_impl; [apply pathByte_unescaped|done].
Qed.

Lemma ResolveReference_absolute (base : url.URL)
  (scheme host path query : string) :
  plainScheme scheme = true -> plainPath path = true ->
  dotFree path = true ->
  url.ResolveReference base (plainRecord scheme host path query)
  = plainRecord scheme host path query.
Proof.
  intros Hs Hp Hfree. pose proof Hp as [_ Hpb]%andb_prop.
  unfold url.ResolveReference.
  cbn [url.Scheme url.Host url.User_ plainRecord].
  rewrite (nonempty_true scheme (plainScheme_nonempty _ Hs)).
  destruct (String.eqb_spec scheme EmptyString) as [->|_]; [done|].
  cbn [orb]. rewrite EscapedPath_plain by done.
  change (url.Path (plainRecord scheme host path query)) with path.
  assert (url.resolvePath path EmptyString = path) as ->.
  { apply (resolvePath_dotFree path EmptyString); done. }
  by rewrite setPath_plain.
Qed.

Lemma ResolveReference_plain (scheme host path query : string)
  (ref refQuery : string) :
  plainPath path = true ->
  plainPath (mergedPath path ref) = true ->
  dotFree (mergedPath path ref) = true ->
  allBytes pathByte ref = true ->
  url.ResolveReference (plainRecord scheme host path query)
                       (plainReference ref refQuery)
  = plainRecord scheme host (mergedPath path ref)
      (if String.eqb ref EmptyString && String.eqb refQuery EmptyString
       then query else refQuery).
Proof.
  intros [_ Hpb]%andb_prop Hm Hfree Hr. pose proof Hm as [_ Hmb]%andb_prop.
  unfold url.ResolveReference.
  cbn [url.Scheme url.Host url.User_ url.Opaque url.Path url.ForceQuery
       url.RawQuery url.Fragment url.RawFragment plainRecord plainReference
       String.eqb].
  change (url.nonempty EmptyString) with false.
  rewrite bool_decide_eq_false_2 by (intros Hne; by apply Hne).
  cbn [orb negb andb]. rewrite andb_true_r, andb_false_r.
  rewrite !EscapedPath_plain by (cbn; done || by destruct (_ && _)).
  change (url.Path (plainRecord scheme host path query)) with path.
  change (url.Path (plainReference ref refQuery)) with ref.
  rewrite (resolvePath_dotFree path ref Hm Hfree).
  destruct (String.eqb ref EmptyString && String.eqb refQuery EmptyString);
    cbn; by rewrite setPath_plain.
Qed.

Lemma bySelector_on_plain (p : bySelectorPaginator) (doc : goquery.Selection)
  (scheme host path query ref refQuery : string) :
  goquery.Attr (goquery.Find doc (sel p)) (attr p)
  = (ref +:+ queryText false refQuery, true) ->
  plainScheme scheme = true -> plainHost host = true ->
  plainPath path = true -> allBytes queryByte query = true ->
  allBytes pathByte ref = true -> strings.HasPrefix ref "//" = false ->
  allBytes queryByte refQuery = true ->
  plainPath (mergedPath path ref) = true ->
  dotFree (mergedPath path ref) = true ->
  NextPage p (plainURL scheme host path query) doc
  = (p, (plainURL scheme host (mergedPath path ref)
           (if String.eqb ref EmptyString && String.eqb refQuery EmptyString
            then query else refQuery),
         None)).
Proof.
  intros Hattr Hs Hh Hp Hq Hr Hslash Hrq Hm Hfree.
  rewrite (bySelector_found p _ doc _ Hattr).
  rewrite (Parse_plain scheme host path query Hs Hh Hp Hq).
  rewrite (Parse_reference ref refQuery Hr Hslash Hrq).
  rewrite (ResolveReference_plain scheme host path query ref refQuery
             Hp Hm Hfree Hr).
  by rewrite URL_String_plain.
Qed.

(** X13: a link that is itself a plain URL [scheme://host/path?query]
    without dot segments is returned as it stands, whatever the current
    URL is, as long as that one parses. *)
Theorem bySelector_absolute_link_as_is (p : bySelectorPaginator)
  (uri : string) (doc : goquery.Selection) (base : url.URL)
  (scheme host path query : string) :
  goquery.Attr (goquery.Find doc (sel p)) (attr p)
  = (plainURL scheme host path query, true) ->
  url.Parse uri = Ok base ->
  plainScheme scheme = true -> plainHost host = true ->
  plainPath path = true -> dotFree path = true ->
  allBytes queryByte query = true ->
  NextPage p uri doc = (p, (plainURL scheme host path query, None)).
Proof.
  intros Hattr Hbase Hs Hh Hp Hfree Hq.
  rewrite (bySelector_found p uri doc _ Hattr), Hbase.
  rewrite (Parse_plain scheme host path query Hs Hh Hp Hq).
  rewrite (ResolveReference_absolute base scheme host path query Hs Hp Hfree).
  by rewrite URL_String_plain.
Qed.

Lemma bySelector_absolute_link_as_is_witness :
  NextPage (BySelector "a.next" "href") "http://old.example/a/../b?x#top"
           (pageWithNext "https://example.org/list/page-2.html?sort=asc")
  = (BySelector "a.next" "href",
     ("https://example.org/list/page-2.html?sort=asc", None)).
Proof.
  refine (bySelector_absolute_link_as_is (BySelector "a.next" "href")
            "http://old.example/a/../b?x#top"
            (pageWithNext "https://example.org/list/page-2.html?sort=asc")
            (url.mkURL "http" EmptyString None "old.example" "/a/../b"
               EmptyString false false "x" "top" EmptyString)
            "https" "example.org" "/list/page-2.html" "sort=asc"
            _ _ _ _ _ _ _).
  - reflexivity.
  - vm_compute. reflexivity.
  - reflexivity.
  - reflexivity.
  - reflexivity.
  - reflexivity.
  - reflexivity.
Defined.

Lemma mergedPath_absolute (base ref : string) :
  plainPath ref = true -> mergedPath base ref = ref.
Proof.
  intros Hr. destruct (plainPath_cons ref Hr) as (tail & -> & _).
  unfold mergedPath. cbn [String.eqb]. by rewrite HasPrefix_byte.
Qed.

(** X14: on a plain current URL, a link that is an absolute path without
    dot segments, with or without a query, keeps scheme and host of the
    current URL and replaces its path and query. *)
Theorem bySelector_absolute_path_link (p : bySelectorPaginator)
  (doc : goquery.Selection) (scheme host path query ref refQuery : string) :
  goquery.Attr (goquery.Find doc (sel p)) (attr p)
  = (ref +:+ queryText false refQuery, true) ->
  plainScheme scheme = true -> plainHost host = true ->
  plainPath path = true -> allBytes queryByte query = true ->
  plainPath ref = true -> strings.HasPrefix ref "//" = false ->
  dotFree ref = true -> allBytes queryByte refQuery = true ->
  NextPage p (plainURL scheme host path query) doc
  = (p, (plainURL scheme host ref refQuery, None)).
Proof.
  intros Hattr Hs Hh Hp Hq Hr Hslash Hfree Hrq.
  pose proof Hr as [_ Hrb]%andb_prop.
  rewrite (bySelector_on_plain p doc scheme host path query ref refQuery);
    rewrite ?mergedPath_absolute; try done.
  destruct (plainPath_cons ref Hr) as (tail & -> & _). done.
Qed.

Lemma bySelector_absolute_path_link_witness :
  NextPage (BySelector "a.next" "href") "https://example.org/list/1?sort=asc"
           (pageWithNext "/archive/2024?page=2")
  = (BySelector "a.next" "href",
     ("https://example.org/archive/2024?page=2", None)).
Proof.
  refine (bySelector_absolute_path_link (BySelector "a.next" "href")
            (pageWithNext "/archive/2024?page=2")
            "https" "example.org" "/list/1" "sort=asc"
            "/archive/2024" "page=2" _ _ _ _ _ _ _ _ _); reflexivity.
Defined.

Lemma LastIndex_app_byte (a b : string) (c : ascii) :
  hasByte c b = false ->
  strings.LastIndex (a +:+ String c b) (String c EmptyString)
  = Z.of_nat (String.length a).
Proof.
  intros Hb. induction a as [|x a IH].
  - rewrite str_app_nil_l. cbn [strings.LastIndex].
    rewrite (LastIndex_no_byte b c Hb), HasPrefix_byte, Ascii.eqb_refl. done.
  - rewrite str_app_cons. cbn [strings.LastIndex]. rewrite IH.
    destruct (Z.leb_spec 0 (Z.of_nat (String.length a))); [|lia].
    cbn [String.length]. lia.
Qed.

Lemma mergedPath_relative (dir file ref : string) :
  hasByte "/" file = false -> ref ≠ EmptyString ->
  strings.HasPrefix ref "/" = false ->
  mergedPath (dir +:+ "/" +:+ file) ref = dir +:+ "/" +:+ ref.
Proof.
  intros Hfile Hne Hrel. unfold mergedPath.
  apply String.eqb_neq in Hne. rewrite Hne, Hrel. cbn [negb].
  change ("/" +:+ file) with (String "/" file).
  rewrite (LastIndex_app_byte dir file "/" Hfile).
  replace (Z.to_nat (Z.of_nat (String.length dir) + 1))
    with (String.length (dir +:+ "/")) by (rewrite str_length_app; cbn; lia).
  replace (dir +:+ String "/" file) with ((dir +:+ "/") +:+ file)
    by (by rewrite str_app_assoc).
  by rewrite upto_app, str_app_assoc.
Qed.

(** X15: on a plain current URL whose path is [dir/file], a link that is a
    relative path, with or without a query, replaces the part of the path
    after the last slash and the query, when the new path has no dot
    segments. *)
Theorem bySelector_relative_path_link (p : bySelectorPaginator)
  (doc : goquery.Selection)
  (scheme host dir file query ref refQuery : string) :
  goquery.Attr (goquery.Find doc (sel p)) (attr p)
  = (ref +:+ queryText false refQuery, true) ->
  plainScheme scheme = true -> plainHost host = true ->
  plainPath (dir +:+ "/" +:+ file) = true -> hasByte "/" file = false ->
  allBytes queryByte query = true ->
  ref ≠ EmptyString -> strings.HasPrefix ref "/" = false ->
  allBytes pathByte ref = true -> allBytes queryByte refQuery = true ->
  dotFree (dir +:+ "/" +:+ ref) = true ->
  NextPage p (plainURL scheme host (dir +:+ "/" +:+ file) query) doc
  = (p, (plainURL scheme host (dir +:+ "/" +:+ ref) refQuery, None)).
Proof.
  intros Hattr Hs Hh Hp Hfile Hq Hne Hrel Hr Hrq Hfree.
  assert (plainPath (dir +:+ "/" +:+ ref) = true) as Hnew.
  { unfold plainPath in *. apply andb_prop in Hp as [Hpre Hpb].
    rewrite !allBytes_app in Hpb |- *.
    apply andb_prop in Hpb as [Hd [Hsl _]%andb_prop].
    rewrite Hd, Hsl, Hr, andb_true_r.
    destruct dir as [|c dir]; str_norm; rewrite HasPrefix_byte; [done|].
    revert Hpre. str_norm. by rewrite HasPrefix_byte. }
  rewrite (bySelector_on_plain p doc scheme host (dir +:+ "/" +:+ file)
             query ref refQuery);
    try rewrite (mergedPath_relative dir file ref Hfile Hne Hrel); try done.
  - apply String.eqb_neq in Hne. by rewrite Hne.
  - destruct ref as [|c ref]; [done|]. rewrite HasPrefix_byte in Hrel.
    cbn. by rewrite Hrel.
Qed.

Lemma bySelector_relative_path_link_witness :
  NextPage (BySelector "a.next" "href")
           "https://example.org/list/page-1.html"
           (pageWithNext "page-2.html")
  = (BySelector "a.next" "href",
     ("https://example.org/list/page-2.html", None)).
Proof.
  refine (bySelector_relative_path_link (BySelector "a.next" "href")
            (pageWithNext "page-2.html")
            "https" "example.org" "/list" "page-1.html" EmptyString
            "page-2.html" EmptyString _ _ _ _ _ _ _ _ _ _ _);
    reflexivity || done.
Defined.

(** X16: on a plain current URL without dot segments, a link that consists
    of a query only replaces the query and keeps the rest, and an empty
    link gives the current URL again, so that pagination does not end
    there. *)
Theorem bySelector_query_link (p : bySelectorPaginator)
  (doc : goquery.Selection) (scheme host path query refQuery : string) :
  goquery.Attr (goquery.Find doc (sel p)) (attr p)
  = (queryText false refQuery, true) ->
  plainScheme scheme = true -> plainHost host = true ->
  plainPath path = true -> dotFree path = true ->
  allBytes queryByte query = true -> allBytes queryByte refQuery = true ->
  NextPage p (plainURL scheme host path query) doc
  = (p, (plainURL scheme host path
           (if String.eqb refQuery EmptyString then query else refQuery),
         None)).
Proof.
  intros Hattr Hs Hh Hp Hfree Hq Hrq.
  by rewrite (bySelector_on_plain p doc scheme host path query
                EmptyString refQuery).
Qed.

Lemma bySelector_query_link_witness :
  NextPage (BySelector "a.next" "href") "https://example.org/list?page=1"
           (pageWithNext "?page=2")
  = (BySelector "a.next" "href", ("https://example.org/list?page=2", None))
  /\ NextPage (BySelector "a.next" "href") "https://example.org/list?page=1"
              (pageWithNext EmptyString)
     = (BySelector "a.next" "href", ("https://example.org/list?page=1", None)).
Proof.
  split.
  - refine (bySelector_query_link (BySelector "a.next" "href")
              (pageWithNext "?page=2")
              "https" "example.org" "/list" "page=1" "page=2"
              _ _ _ _ _ _ _); reflexivity.
  - refine (bySelector_query_link (BySelector "a.next" "href")
              (pageWithNext EmptyString)
              "https" "example.org" "/list" "page=1" EmptyString
              _ _ _ _ _ _ _); reflexivity.
Defined.
